(** * The gemini-cli-core codelab scripts: a shallow embedding

    The repository consists of tutorial scripts (TypeScript) that drive a
    chat backend and a tool executor/scheduler of an external SDK.  This
    development embeds the logic the scripts own:

    - the chat/tool loops [runChatWithTool] (03-tools.ts) and [runDemo]
      (step 4),
    - the construction of tool-call requests (the [callId] default),
    - the approval handlers [onToolCallsUpdate] (steps 4 and 5) and
      [confirm] (step 5),
    - [CalculatorTool] (step 5),
    - the top-level [main().catch(...)] wrappers.

    Conventions.  A JavaScript string is a Rocq [string] whose characters
    are read as UTF-16 code units below 256 (the Latin-1 range); on that
    range [toLowerCase], [trim] and the regular-expression class [\s] are
    modelled exactly.  An [async] function is a state-passing function that
    yields a [Completion]: it resolves ([Normal]), rejects ([Throw]) or is
    still unsettled when the fuel of a [while (true)] loop runs out
    ([Pending]).  The SDK (chat client, [executeToolCall],
    [CoreToolScheduler]) is an interface the scripts are parameterised by. *)

From Stdlib Require Import ZArith String Ascii List Lia Bool DecimalString.
From stdpp Require Import base gmap strings list.
Import ListNotations.
Open Scope string_scope.

(* ===================================================================== *)
(** * Part I: definitions *)
(* ===================================================================== *)

(** ** JavaScript strings and truthiness *)
Module JS.

Definition code (c : ascii) : N := N_of_ascii c.

(** White space and line terminators of ECMAScript among the code units
    below 256: TAB, LF, VT, FF, CR, SP and NBSP.  This is what [\s]
    matches and what [String.prototype.trim] strips. *)
Definition isWhiteSpace (c : ascii) : bool :=
  let n := code c in
  ((9 <=? n) && (n <=? 13) || (n =? 32) || (n =? 160))%N.

Definition isDigit (c : ascii) : bool :=
  let n := code c in ((48 <=? n) && (n <=? 57))%N.

(** [toLowerCase] on one code unit: A-Z and the Latin-1 capitals
    U+00C0..U+00DE (except the multiplication sign U+00D7). *)
Definition toLowerChar (c : ascii) : ascii :=
  let n := code c in
  if ((65 <=? n) && (n <=? 90)
      || (192 <=? n) && (n <=? 222) && negb (n =? 215))%N
  then ascii_of_N (n + 32) else c.

Fixpoint toLowerCase (s : string) : string :=
  match s with
  | EmptyString => EmptyString
  | String c r => String (toLowerChar c) (toLowerCase r)
  end.

Fixpoint trimStart (s : string) : string :=
  match s with
  | EmptyString => EmptyString
  | String c r => if isWhiteSpace c then trimStart r else s
  end.

Fixpoint trimEnd (s : string) : string :=
  match s with
  | EmptyString => EmptyString
  | String c r =>
      match trimEnd r with
      | EmptyString => if isWhiteSpace c then EmptyString else String c EmptyString
      | r' => String c r'
      end
  end.

Definition trim (s : string) : string := trimEnd (trimStart s).

(** ToBoolean on a string: only the empty string is falsy. *)
Definition truthy (s : string) : bool := negb (s =? "").

(** ToBoolean on [string | undefined]. *)
Definition truthyOpt (o : option string) : bool :=
  match o with Some s => truthy s | None => false end.

(** ToString on an integral number (as [Date.now()] returns). *)
Definition numberToString (z : Z) : string :=
  NilZero.string_of_int (Z.to_int z).

(** [`${x}`] for [x : string | undefined]. *)
Definition template (o : option string) : string :=
  match o with Some s => s | None => "undefined" end.

(** [a ?? b] and [a || b] at type [string | undefined]. *)
Definition nullish (a : option string) (b : string) : string :=
  match a with Some s => s | None => b end.

Definition or_else (a : option string) (b : string) : string :=
  if truthyOpt a then nullish a b else b.

End JS.

(** ** Completions of asynchronous functions *)

Inductive Completion (A : Type) : Type :=
| Normal (a : A)            (* the promise resolves with [a] *)
| Throw (message : string)  (* the promise rejects / an exception escapes *)
| Pending.                  (* not settled within the fuel given *)
Arguments Normal {A} a.
Arguments Throw {A} message.
Arguments Pending {A}.

(** ** The SDK's data, as the scripts see it *)
Module Sdk.

(** JSON-like argument values. *)
Inductive Json : Type :=
| JNull | JBool (b : bool) | JNum (z : Z) | JStr (s : string)
| JCompound (source : string).  (* an array or object, kept as JSON text *)

Definition Args : Type := list (string * Json).

(** [FunctionCall] of @google/genai: every field is optional. *)
Record FunctionCall : Type := mkFunctionCall {
  fc_id : option string;
  fc_name : option string;
  fc_args : option Args
}.

Record FunctionResponse : Type := mkFunctionResponse {
  fr_id : option string;
  fr_name : option string;
  fr_response : option Args
}.

(** A content part; [thought] is [true], [false] or absent. *)
Record Part : Type := mkPart {
  text : option string;
  thought : option bool;
  functionCall : option FunctionCall;
  functionResponse : option FunctionResponse
}.

Definition textPart (s : string) : Part :=
  mkPart (Some s) None None None.

(** [PartUnion = Part | string]; the scripts also guard against
    [null]/[undefined] entries. *)
Inductive PartUnion : Type :=
| PUString (s : string)
| PUNullish
| PUPart (p : Part).

(** [PartListUnion = PartUnion[] | PartUnion]. *)
Inductive PartListUnion : Type :=
| PLArray (l : list PartUnion)
| PLSingle (p : PartUnion).

(** One streamed chunk ([GenerateContentResponse]):
    [candidates?.[0]?.content?.parts] and the [functionCalls] getter. *)
Record Chunk : Type := mkChunk {
  parts : option (list Part);
  functionCalls : option (list FunctionCall)
}.

Record ToolCallRequestInfo : Type := mkRequest {
  callId : string;
  name : option string;
  args : option Args;
  isClientInitiated : option bool
}.

Record ToolCallResponseInfo : Type := mkResponse {
  resp_callId : string;
  responseParts : PartListUnion;
  resultDisplay : option string;
  error : option string
}.

Inductive ToolConfirmationOutcome : Type :=
| ProceedOnce | ProceedAlwaysTool | Cancel.

(** Status strings of a [ToolCall]. *)
Inductive Status : Type :=
| validating | scheduled | awaiting_approval | executing
| completed | cancelled | errored.

(** What a confirmation prompt shows. *)
Inductive ConfirmationDetails : Type :=
| DiffDetails (diff : string)
| CommandDetails (command : string)
| OtherDetails.

Record ToolCall : Type := mkToolCall {
  request : ToolCallRequestInfo;
  status : Status;
  confirmationDetails : option ConfirmationDetails
}.

Record CompletedToolCall : Type := mkCompleted {
  c_request : ToolCallRequestInfo;
  c_status : Status;
  c_response : option ToolCallResponseInfo
}.

(** ToBoolean on a [PartUnion] and on a [PartListUnion] value
    ([undefined] is [PLSingle PUNullish]). *)
Definition truthyPart (p : PartUnion) : bool :=
  match p with
  | PUString s => JS.truthy s
  | PUNullish => false
  | PUPart _ => true
  end.

Definition truthyParts (rp : PartListUnion) : bool :=
  match rp with
  | PLArray _ => true
  | PLSingle p => truthyPart p
  end.

(** [Array.isArray(x) ? x : [x]]. *)
Definition asArray (rp : PartListUnion) : list PartUnion :=
  match rp with
  | PLArray l => l
  | PLSingle p => [p]
  end.

(** [typeof v === "object" && v !== null]. *)
Definition isObject (p : PartUnion) : bool :=
  match p with PUPart _ => true | _ => false end.

End Sdk.

(** ** The world of a script: SDK operations, state and log *)

(** What the scripts call on the SDK.  [W] is the state of everything
    outside the script (chat history, file system, clock, terminal). *)
Class SdkOps (W : Type) : Type := {
  (** [chat.sendMessageStream], consumed to the end of the stream. *)
  sendMessageStream : W -> list Sdk.PartUnion -> Completion (list Sdk.Chunk) * W;
  (** [executeToolCall(config, requestInfo, toolRegistry, signal)]. *)
  executeToolCall : W -> Sdk.ToolCallRequestInfo -> Completion Sdk.ToolCallResponseInfo * W;
  (** A fresh [CoreToolScheduler] from [createScheduler], its [schedule]
      and the [onAllToolCallsComplete] report; [None] when that report
      never comes. *)
  scheduleBatch : W -> list Sdk.ToolCallRequestInfo -> option (list Sdk.CompletedToolCall) * W;
  (** [Date.now()]. *)
  Date_now : W -> Z;
  (** The world a moment later, when the script has done nothing but let
      time pass (as between two readings of the clock). *)
  later : W -> W
}.

(** Calls a script makes on the SDK, in the order it makes them. *)
Inductive Event : Type :=
| EvSend (message : list Sdk.PartUnion)
| EvExecute (req : Sdk.ToolCallRequestInfo)
| EvSchedule (reqs : list Sdk.ToolCallRequestInfo).

Record St (W : Type) : Type := mkSt { world : W; log : list Event }.
Arguments mkSt {W} world log.
Arguments world {W} s.
Arguments log {W} s.

(** The monad of asynchronous script code: state passing with completions. *)
Definition M (W A : Type) : Type := St W -> Completion A * St W.

Definition ret {W A} (a : A) : M W A := fun st => (Normal a, st).

Definition bind {W A B} (m : M W A) (k : A -> M W B) : M W B :=
  fun st =>
    match m st with
    | (Normal a, st') => k a st'
    | (Throw e, st') => (Throw e, st')
    | (Pending, st') => (Pending, st')
    end.

Definition throw {W A} (e : string) : M W A := fun st => (Throw e, st).

Definition pending {W A} : M W A := fun st => (Pending, st).

Definition liftC {W A} (c : Completion A) : M W A := fun st => (c, st).

(** [try { ... } catch (error) { ... }]: only a thrown error reaches the
    handler. *)
Definition tryCatch {W A} (m : M W A) (handler : string -> M W A) : M W A :=
  fun st =>
    match m st with
    | (Throw e, st') => handler e st'
    | r => r
    end.

Declare Scope async_scope.
Delimit Scope async_scope with async.
Notation "x <- m ;; k" := (bind m (fun x => k))
  (at level 100, m at next level, right associativity) : async_scope.

(** [while (true) { ... }]: the body either goes round again with a new
    loop state ([inl]) or leaves the loop with a value ([inr], a [break]). *)
Fixpoint while_true {W S A} (body : S -> M W (S + A)) (fuel : nat) (s : S) : M W A :=
  match fuel with
  | O => pending
  | S n => (r <- body s ;;
            match r with
            | inl s' => while_true body n s'
            | inr a => ret a
            end)%async
  end.

(** The loop state and world at the start of iteration [k], when the
    iterations before it all went round again. *)
Fixpoint iteration {W S A} (body : S -> M W (S + A)) (k : nat) (s : S) (st : St W)
  : option (S * St W) :=
  match k with
  | O => Some (s, st)
  | S k' =>
      match body s st with
      | (Normal (inl s'), st') => iteration body k' s' st'
      | _ => None
      end
  end.

Section Primitives.
Context {W : Type} `{SdkOps W}.

Definition send (message : list Sdk.PartUnion) : M W (list Sdk.Chunk) :=
  fun st =>
    let '(r, w') := sendMessageStream (world st) message in
    (r, mkSt w' (log st ++ [EvSend message])).

Definition execute (req : Sdk.ToolCallRequestInfo) : M W Sdk.ToolCallResponseInfo :=
  fun st =>
    let '(r, w') := executeToolCall (world st) req in
    (r, mkSt w' (log st ++ [EvExecute req])).

Definition scheduleAndWait (reqs : list Sdk.ToolCallRequestInfo)
  : M W (list Sdk.CompletedToolCall) :=
  fun st =>
    let '(r, w') := scheduleBatch (world st) reqs in
    (match r with Some calls => Normal calls | None => Pending end,
     mkSt w' (log st ++ [EvSchedule reqs])).

Definition now : M W Z := fun st => (Normal (Date_now (world st)), st).

(** [l.map(x => f(x, Date.now()))]: the callback runs once per element, in
    order, and reads the clock anew each time; the results, and the world
    after the last callback. *)
Fixpoint readings {A B} (f : A -> Z -> B) (l : list A) (w : W) : list B * W :=
  match l with
  | [] => ([], w)
  | x :: rest =>
      let '(ys, w') := readings f rest (later w) in
      (f x (Date_now w) :: ys, w')
  end.

Definition mapNow {A B} (f : A -> Z -> B) (l : list A) : M W (list B) :=
  fun st =>
    let '(ys, w') := readings f l (world st) in
    (Normal ys, mkSt w' (log st)).

(** The state once [message] has been sent and its stream consumed. *)
Definition sent (st : St W) (message : list Sdk.PartUnion) (w' : W) : St W :=
  mkSt w' (log st ++ [EvSend message]).

End Primitives.

(** ** Building a tool-call request: the [callId] default *)

(** [`${fc.name}-${Date.now()}`] *)
Definition generatedId (fc : Sdk.FunctionCall) (t : Z) : string :=
  JS.template (Sdk.fc_name fc) ++ "-" ++ JS.numberToString t.

(** [fc.id ?? `${fc.name}-${Date.now()}`] (03-tools.ts, step 4). *)
Definition callId_nullish (fc : Sdk.FunctionCall) (t : Z) : string :=
  JS.nullish (Sdk.fc_id fc) (generatedId fc t).

(** [fc.id || `${fc.name}-${Date.now()}`] (step 5, the inline step 3). *)
Definition callId_or (fc : Sdk.FunctionCall) (t : Z) : string :=
  JS.or_else (Sdk.fc_id fc) (generatedId fc t).

(** [fc.args ?? {}] and [fc.args || {}] agree: an object is never falsy. *)
Definition argsOrEmpty (fc : Sdk.FunctionCall) : option Sdk.Args :=
  Some (match Sdk.fc_args fc with Some a => a | None => [] end).

(** ** Step 3 (03-tools.ts): [runChatWithTool] *)
Module Step3.

(** The accumulators of one round: [functionCalls], [thinkingText],
    [responseText]. *)
Record Acc : Type := mkAcc {
  functionCalls : list Sdk.FunctionCall;
  thinkingText : string;
  responseText : string
}.

Definition emptyAcc : Acc := mkAcc [] "" "".

(** [(part as any).thought === true] *)
Definition isThought (part : Sdk.Part) : bool :=
  match Sdk.thought part with Some true => true | _ => false end.

(** Lines 51-62: the body of [for (const part of ...parts)]. *)
Definition consumePart (acc : Acc) (part : Sdk.Part) : Acc :=
  let txt := match Sdk.text part with Some s => s | None => "" end in
  let acc1 :=
    if isThought part && JS.truthyOpt (Sdk.text part)
    then mkAcc (functionCalls acc) (thinkingText acc ++ txt) (responseText acc)
    else if JS.truthyOpt (Sdk.text part)
    then mkAcc (functionCalls acc) (thinkingText acc) (responseText acc ++ txt)
    else acc in
  match Sdk.functionCall part with
  | Some fc => mkAcc (functionCalls acc1 ++ [fc]) (thinkingText acc1) (responseText acc1)
  | None => acc1
  end.

(** Lines 49-64: [for await (const chunk of responseStream)]. *)
Definition consumeChunk (acc : Acc) (chunk : Sdk.Chunk) : Acc :=
  match Sdk.parts chunk with
  | Some ps => fold_left consumePart ps acc
  | None => acc
  end.

Definition consumeStream (chunks : list Sdk.Chunk) : Acc :=
  fold_left consumeChunk chunks emptyAcc.

(** Lines 76-82. *)
Definition requestInfo (fc : Sdk.FunctionCall) (t : Z) : Sdk.ToolCallRequestInfo :=
  Sdk.mkRequest (callId_nullish fc t) (Sdk.fc_name fc) (argsOrEmpty fc) (Some false).

(** Lines 92-93:
    [(toolResponse.responseParts as any).functionResponse.response.output].
    An array or a string has no [functionResponse] property, so reading
    [.response] of it raises a TypeError; so does reading [.output] of an
    absent [response]. *)
Definition readOutput (rp : Sdk.PartListUnion) : Completion unit :=
  match rp with
  | Sdk.PLSingle (Sdk.PUPart p) =>
      match Sdk.functionResponse p with
      | Some fr =>
          match Sdk.fr_response fr with
          | Some _ => Normal tt
          | None => Throw "Cannot read properties of undefined (reading 'output')"
          end
      | None => Throw "Cannot read properties of undefined (reading 'response')"
      end
  | _ => Throw "Cannot read properties of undefined (reading 'response')"
  end.

(** Lines 98-104: the body of [for (const part of parts)]. *)
Definition pushPart (toolResponseParts : list Sdk.PartUnion) (part : Sdk.PartUnion)
  : list Sdk.PartUnion :=
  match part with
  | Sdk.PUString s => toolResponseParts ++ [Sdk.PUPart (Sdk.textPart s)]
  | Sdk.PUNullish => toolResponseParts
  | Sdk.PUPart _ => toolResponseParts ++ [part]
  end.

(** Lines 95-104. *)
Definition pushParts (toolResponseParts : list Sdk.PartUnion) (rp : Sdk.PartListUnion)
  : list Sdk.PartUnion :=
  fold_left pushPart (Sdk.asArray rp) toolResponseParts.

(** Lines 91-105. *)
Definition collectResponse (toolResponseParts : list Sdk.PartUnion)
  (toolResponse : Sdk.ToolCallResponseInfo) : Completion (list Sdk.PartUnion) :=
  let rp := Sdk.responseParts toolResponse in
  if Sdk.truthyParts rp then
    match readOutput rp with
    | Normal _ => Normal (pushParts toolResponseParts rp)
    | Throw e => Throw e
    | Pending => Pending
    end
  else Normal toolResponseParts.

Section WithSdk.
Context {W : Type} `{SdkOps W}.

(** Lines 75-106: [for (const fc of functionCalls)]. *)
Fixpoint executeCalls (fcs : list Sdk.FunctionCall) (toolResponseParts : list Sdk.PartUnion)
  : M W (list Sdk.PartUnion) :=
  match fcs with
  | [] => ret toolResponseParts
  | fc :: rest =>
      (t <- now ;;
       toolResponse <- execute (requestInfo fc t) ;;
       parts' <- liftC (collectResponse toolResponseParts toolResponse) ;;
       executeCalls rest parts')%async
  end.

(** Lines 36-118: one pass through the body of [while (true)].  The loop
    state is [messages[0].parts]; the value at [break] is the text printed
    under "Assistant:", [responseText.trim()]. *)
Definition loopBody (messages : list Sdk.PartUnion)
  : M W (list Sdk.PartUnion + string) :=
  (chunks <- send messages ;;
   let acc := consumeStream chunks in
   if (0 <? length (functionCalls acc))%nat then
     toolResponseParts <- executeCalls (functionCalls acc) [] ;;
     ret (inl toolResponseParts)
   else
     ret (inr (JS.trim (responseText acc))))%async.

Definition runChatWithTool (fuel : nat) (prompt : string) : M W string :=
  while_true loopBody fuel [Sdk.PUPart (Sdk.textPart prompt)].

End WithSdk.
End Step3.

(** ** Step 4: [runDemo] and the approval handler *)
Module Step4.

Record Acc : Type := mkAcc {
  functionCalls : list Sdk.FunctionCall;
  streamedText : string
}.

Definition emptyAcc : Acc := mkAcc [] "".

(** [!part.thought] fails only for [thought: true]. *)
Definition isThought (part : Sdk.Part) : bool :=
  match Sdk.thought part with Some true => true | _ => false end.

(** Lines 446-450: [if (part.text && !part.thought) streamedText += part.text]. *)
Definition consumePart (streamedText : string) (part : Sdk.Part) : string :=
  if JS.truthyOpt (Sdk.text part) && negb (isThought part)
  then streamedText ++ match Sdk.text part with Some s => s | None => "" end
  else streamedText.

(** Lines 441-452: the body of [for await (const resp of response)]. *)
Definition consumeResp (acc : Acc) (resp : Sdk.Chunk) : Acc :=
  let fcs :=
    match Sdk.functionCalls resp with
    | Some l => (functionCalls acc ++ l)%list
    | None => functionCalls acc
    end in
  let txt :=
    match Sdk.parts resp with
    | Some ps => fold_left consumePart ps (streamedText acc)
    | None => streamedText acc
    end in
  mkAcc fcs txt.

Definition consumeStream (chunks : list Sdk.Chunk) : Acc :=
  fold_left consumeResp chunks emptyAcc.

(** Lines 462-467 (and, without [isClientInitiated], lines 166-170). *)
Definition toolRequest (fc : Sdk.FunctionCall) (t : Z) : Sdk.ToolCallRequestInfo :=
  Sdk.mkRequest (callId_nullish fc t) (Sdk.fc_name fc) (argsOrEmpty fc) (Some false).

(** Lines 474-479: the body of [for (const call of completedCalls)];
    [call.status] is not consulted. *)
Definition collect (toolResponseParts : list Sdk.PartUnion) (call : Sdk.CompletedToolCall)
  : list Sdk.PartUnion :=
  match Sdk.c_response call with
  | Some r =>
      if Sdk.truthyParts (Sdk.responseParts r)
      then toolResponseParts ++ Sdk.asArray (Sdk.responseParts r)
      else toolResponseParts
  | None => toolResponseParts
  end.

(** Lines 472-480. *)
Definition aggregate (completedCalls : list Sdk.CompletedToolCall) : list Sdk.PartUnion :=
  fold_left collect completedCalls [].

Section WithSdk.
Context {W : Type} `{SdkOps W}.

(** Lines 431-486: one pass through the body of [while (true)]; the value
    at [break] is the text printed under "Assistant:". *)
Definition loopBody (messages : list Sdk.PartUnion)
  : M W (list Sdk.PartUnion + string) :=
  (chunks <- send messages ;;
   let acc := consumeStream chunks in
   if (0 <? length (functionCalls acc))%nat then
     toolRequests <- mapNow toolRequest (functionCalls acc) ;;
     completedCalls <- scheduleAndWait toolRequests ;;
     ret (inl (aggregate completedCalls))
   else
     ret (inr (streamedText acc)))%async.

Definition runDemo (fuel : nat) (prompt : string) : M W string :=
  while_true loopBody fuel [Sdk.PUPart (Sdk.textPart prompt)].

(** Lines 462-467: the requests built for the function calls [fcs] when
    the map starts in the world [w], and the world when it is through. *)
Definition requestsFor (fcs : list Sdk.FunctionCall) (w : W) : list Sdk.ToolCallRequestInfo :=
  fst (readings toolRequest fcs w).

Definition afterRequests (fcs : list Sdk.FunctionCall) (w : W) : W :=
  snd (readings toolRequest fcs w).

End WithSdk.

(** Lines 116-128 and 403-415: the [switch (response.toLowerCase())]. *)
Definition outcomeOf (response : string) : Sdk.ToolConfirmationOutcome :=
  let r := JS.toLowerCase response in
  if r =? "y" then Sdk.ProceedOnce
  else if r =? "a" then Sdk.ProceedAlwaysTool
  else Sdk.Cancel.

End Step4.

(** One call [toolCall.confirmationDetails.onConfirm(outcome)], named by
    the call it belongs to. *)
Record Confirmation : Type := mkConfirmation {
  confirmedCall : string;
  outcome : Sdk.ToolConfirmationOutcome
}.

Module Step4Handler.

(** Lines 90-133 and 377-420: [onToolCallsUpdate].  Answers come from the
    lines typed on stdin; when there is none left [rl.question] never
    calls back and the handler stays suspended. *)
Fixpoint onToolCallsUpdate (toolCalls : list Sdk.ToolCall) (stdin : list string)
  : list Confirmation * list string :=
  match toolCalls with
  | [] => ([], stdin)
  | toolCall :: rest =>
      match Sdk.status toolCall, Sdk.confirmationDetails toolCall with
      | Sdk.awaiting_approval, Some _ =>
          match stdin with
          | [] => ([], [])
          | response :: stdin' =>
              let '(cs, remaining) := onToolCallsUpdate rest stdin' in
              (mkConfirmation (Sdk.callId (Sdk.request toolCall)) (Step4.outcomeOf response) :: cs,
               remaining)
          end
      | _, _ => onToolCallsUpdate rest stdin
      end
  end.

End Step4Handler.

(** ** Step 5: [confirm], the approval handler and request building *)
Module Step5.

(** Lines 247-251: [answer.toLowerCase() === 'y' || ... === 'yes']. *)
Definition confirm (answer : string) : bool :=
  (JS.toLowerCase answer =? "y") || (JS.toLowerCase answer =? "yes").

(** Lines 322-326. *)
Definition outcomeOf (answer : string) : Sdk.ToolConfirmationOutcome :=
  if confirm answer then Sdk.ProceedOnce else Sdk.Cancel.

(** Lines 310-332: [onToolCallsUpdate]. *)
Fixpoint onToolCallsUpdate (toolCalls : list Sdk.ToolCall) (stdin : list string)
  : list Confirmation * list string :=
  match toolCalls with
  | [] => ([], stdin)
  | toolCall :: rest =>
      match Sdk.status toolCall with
      | Sdk.awaiting_approval =>
          match Sdk.confirmationDetails toolCall with
          | Some _ =>
              match stdin with
              | [] => ([], [])
              | answer :: stdin' =>
                  let '(cs, remaining) := onToolCallsUpdate rest stdin' in
                  (mkConfirmation (Sdk.callId (Sdk.request toolCall)) (outcomeOf answer) :: cs,
                   remaining)
              end
          | None => onToolCallsUpdate rest stdin
          end
      | _ => onToolCallsUpdate rest stdin
      end
  end.

(** Lines 368-372. *)
Definition toolCallRequest (fc : Sdk.FunctionCall) (t : Z) : Sdk.ToolCallRequestInfo :=
  Sdk.mkRequest (callId_or fc t) (Sdk.fc_name fc) (Sdk.fc_args fc) None.

End Step5.

(** The inline variant of step 3: lines 246-251 and 315-320. *)
Module Step3Inline.

Definition requestInfo (fc : Sdk.FunctionCall) (t : Z) : Sdk.ToolCallRequestInfo :=
  Sdk.mkRequest (callId_or fc t)
    (Some (JS.or_else (Sdk.fc_name fc) ""))
    (argsOrEmpty fc) (Some false).

End Step3Inline.

(** How often [onConfirm] of the call [id] was invoked. *)
Definition invocations (id : string) (cs : list Confirmation) : nat :=
  length (List.filter (fun c => confirmedCall c =? id) cs).

(** ** Step 5: [CalculatorTool] *)
Module CalculatorTool.

(** The value of [params.expression]: absent, or a primitive (a number
    being an integer that JavaScript prints with all its digits, of
    magnitude below 10^21).  Objects and arrays come in with
    [CalculatorTool.Json] below. *)
Inductive ExprValue : Type :=
| EUndefined | ENull | EBool (b : bool) | ENumber (z : Z) | EString (s : string).

(** The [params: unknown] argument: nullish, or an object. *)
Inductive Params : Type :=
| ParamsUndefined | ParamsNull | ParamsObject (expression : ExprValue).

Record ToolResult : Type := mkToolResult {
  llmContent : list Sdk.Part;
  returnDisplay : string
}.

(** What running the code built by [Function(...)] does: yield a value
    (given by its string conversion) or raise an error. *)
Inductive EvalResult : Type :=
| Value (shown : string)
| Raises (message : string).

(** Line 175: [static Name = 'calculate']. *)
Definition Name : string := "calculate".

(** The complement of the class [[^0-9+\-*/().\s]]. *)
Definition allowedChar (c : ascii) : bool :=
  JS.isDigit c || JS.isWhiteSpace c
  || existsb (Ascii.eqb c) ["+"; "-"; "*"; "/"; "("; ")"; "."]%char.

Fixpoint removeDisallowed (expr : string) : string :=
  match expr with
  | EmptyString => EmptyString
  | String c r =>
      if allowedChar c then String c (removeDisallowed r) else removeDisallowed r
  end.

(** [`${expression}`] *)
Definition toString (v : ExprValue) : string :=
  match v with
  | EUndefined => "undefined"
  | ENull => "null"
  | EBool true => "true"
  | EBool false => "false"
  | ENumber z => JS.numberToString z
  | EString s => s
  end.

Definition dquote : string := String (ascii_of_N 34) EmptyString.

(** The source text handed to [Function]. *)
Definition functionSource (cleaned : string) : string :=
  dquote ++ "use strict" ++ dquote ++ "; return (" ++ cleaned ++ ")".

(** Lines 202-208; reading [args.expression] of a nullish [params] raises. *)
Definition validateToolParams (params : Params) : Completion (option string) :=
  match params with
  | ParamsUndefined => Throw "Cannot read properties of undefined (reading 'expression')"
  | ParamsNull => Throw "Cannot read properties of null (reading 'expression')"
  | ParamsObject (EString s) =>
      Normal (if JS.truthy s then None else Some "Expression parameter is required")
  | ParamsObject (ENumber z) =>
      Normal (if (z =? 0)%Z then Some "Expression parameter is required" else None)
  | ParamsObject (EBool true) => Normal None
  | ParamsObject _ => Normal (Some "Expression parameter is required")
  end.

(** Lines 242-244: [false] is [None]. *)
Definition shouldConfirmExecute (params : Params) : option Sdk.ConfirmationDetails :=
  None.

Section WithEvaluator.
(** [Function(source)()]. *)
Variable runFunction : string -> EvalResult.

(** Lines 232-240, with the list of sources handed to [Function]. *)
Definition evaluateExpression (expr : ExprValue) : EvalResult * list string :=
  match expr with
  | EString s =>
      let cleaned := removeDisallowed s in
      if negb (cleaned =? s) then (Raises "Invalid characters in expression", [])
      else (runFunction (functionSource cleaned), [functionSource cleaned])
  | EUndefined => (Raises "Cannot read properties of undefined (reading 'replace')", [])
  | ENull => (Raises "Cannot read properties of null (reading 'replace')", [])
  | _ => (Raises "expr.replace is not a function", [])
  end.

(** Lines 210-230.  The destructuring on line 211 is outside the [try]. *)
Definition execute (params : Params) : Completion ToolResult * list string :=
  match params with
  | ParamsUndefined =>
      (Throw "Cannot destructure property 'expression' of 'params' as it is undefined.", [])
  | ParamsNull =>
      (Throw "Cannot destructure property 'expression' of 'params' as it is null.", [])
  | ParamsObject expression =>
      match evaluateExpression expression with
      | (Value result, evaluated) =>
          let line := toString expression ++ " = " ++ result in
          (Normal (mkToolResult [Sdk.textPart line] line), evaluated)
      | (Raises message, evaluated) =>
          (Normal (mkToolResult
                     [Sdk.textPart ("Error calculating " ++ toString expression ++ ": " ++ message)]
                     ("Error: " ++ message)),
           evaluated)
      end
  end.

End WithEvaluator.

(** The result describes an error. *)
Definition describesError (r : ToolResult) : bool :=
  String.prefix "Error: " (returnDisplay r).

(** The tool on every [params] the backend can send: [expression] may
    also be an object or an array. *)
Module Json.

(** [params] as above, or an object whose [expression] is an object or an
    array.  Of such an [expression] the code only uses the string
    conversion [`${expression}`], given as [shown]; it is [None] when the
    conversion raises: an object with a property [toString] of its own
    (which JSON fills with a value that is no function), or an array
    holding such an object. *)
Inductive Params : Type :=
| Plain (params : CalculatorTool.Params)
| Structured (shown : option string).

(** Lines 202-208: an object or an array is truthy. *)
Definition validateToolParams (params : Params) : Completion (option string) :=
  match params with
  | Plain params => CalculatorTool.validateToolParams params
  | Structured _ => Normal None
  end.

(** Lines 210-230.  An object or array from JSON has no method [replace],
    so line 233 raises inside the [try]; the [catch] block then converts
    [expression] to a string (lines 223-226), outside any [try]. *)
Definition execute (runFunction : string -> EvalResult) (params : Params)
  : Completion ToolResult * list string :=
  match params with
  | Plain params => CalculatorTool.execute runFunction params
  | Structured (Some text) =>
      (Normal (mkToolResult
                 [Sdk.textPart ("Error calculating " ++ text
                                ++ ": expr.replace is not a function")]
                 "Error: expr.replace is not a function"),
       [])
  | Structured None => (Throw "Cannot convert object to primitive value", [])
  end.

End Json.

End CalculatorTool.

(** ** The top level of every script *)
Module Process.

(** How [main()] ends: it calls [process.exit], or its promise settles. *)
Inductive MainEnd : Type :=
| Exits (code : Z)
| Settles (c : Completion unit).

(** The first lines of every [main]:
    [if (!process.env.GEMINI_API_KEY) { ...; process.exit(1); }],
    then the rest of the function. *)
Definition main {W} (GEMINI_API_KEY : option string) (rest : St W -> MainEnd) (st : St W)
  : MainEnd :=
  if negb (JS.truthyOpt GEMINI_API_KEY) then Exits 1 else rest st.

(** How node ends a script run as
    [main().catch((error) => { ...; process.exit(1); })].
    [process.exit(code)] ends the process with [code], and a rejected
    [main()] reaches the handler that calls [process.exit(1)].  Otherwise,
    [main()] fulfilled or never settled, node ends the process with code 0
    once nothing is left to run (no timer, no open handle, no pending
    operation) and not before; [idle] tells whether that comes about.
    [None]: the process does not end. *)
Definition exitCode (e : MainEnd) (idle : bool) : option Z :=
  match e with
  | Exits code => Some code
  | Settles (Throw _) => Some 1%Z
  | Settles _ => if idle then Some 0%Z else None
  end.

Definition script {W} (GEMINI_API_KEY : option string) (rest : St W -> MainEnd)
  (idle : bool) (st : St W) : option Z :=
  exitCode (main GEMINI_API_KEY rest st) idle.

(** A [main] whose remainder makes SDK calls and never calls
    [process.exit] itself (steps 1 to 4). *)
Definition plain {W} (body : M W unit) (st : St W) : MainEnd :=
  Settles (fst (body st)).

Section Scripts.
Context {W : Type} `{SdkOps W}.
(** [await config.refreshAuth(AuthType.USE_GEMINI)] and the other set-up
    calls on the SDK. *)
Variable setup : M W unit.
(** [await fs.unlink(file)] of the clean-up. *)
Variable unlink : M W unit.
(** [await chat.sendMessage({...})] of step 1. *)
Variable sendMessage : M W unit.

Definition demoFile : string :=
  "Create a file called gemini_demo.txt with the content "
  ++ CalculatorTool.dquote
  ++ "Hello from Gemini tools! This file was created automatically."
  ++ CalculatorTool.dquote.

Definition step2Prompt : string :=
  "Explain how Google Gemini's multimodal capabilities work. Think step by step about how it processes different types of inputs (text, images, audio, video) and generates unified responses.".

Definition step3Prompts : list string :=
  ["What's the capital of France?"; demoFile;
   "List all .txt files in the current directory"].

Definition step4Prompts : list string :=
  ["Use the search_file_content tool to find all TypeScript files in the current directory.";
   "Create a file called gemini_test.md with content explaining what Google Gemini is";
   "Run the ls -la command to show detailed directory listing"].

(** [await run(p1); await run(p2); ...]: the conversations of a script,
    one after the other; nothing catches what one of them raises. *)
Fixpoint conversations (run : string -> M W string) (prompts : list string) : M W unit :=
  match prompts with
  | [] => ret tt
  | prompt :: later => (_ <- run prompt ;; conversations run later)%async
  end.

(** [try { await fs.unlink(file); ... } catch { ... }]. *)
Definition cleanUp : M W unit := tryCatch unlink (fun _ => ret tt).

(** 01-hello-world.ts, lines 23-65. *)
Definition step1 : M W unit :=
  (_ <- setup ;; sendMessage)%async.

(** Step 2, lines 23-100: the stream is consumed to its end. *)
Definition step2 : M W unit :=
  (_ <- setup ;;
   _ <- send [Sdk.PUString step2Prompt] ;;
   ret tt)%async.

(** 03-tools.ts, lines 130-178. *)
Definition step3 (fuel : nat) : M W unit :=
  (_ <- setup ;;
   _ <- conversations (Step3.runChatWithTool fuel) step3Prompts ;;
   cleanUp)%async.

(** Step 4, lines 312-516 (then [rl.close()]). *)
Definition step4 (fuel : nat) : M W unit :=
  (_ <- setup ;;
   _ <- conversations (Step4.runDemo fuel) step4Prompts ;;
   cleanUp)%async.

(** The conversations of a script are held up to the first that raises
    [e], which is not the last of them to be started only when it is the
    last. *)
Definition failsAt (run : string -> M W string) (prompts : list string) (st : St W)
  (e : string) : Prop :=
  exists before prompt after st_p,
    prompts = (before ++ prompt :: after)%list
    /\ conversations run before st = (Normal tt, st_p)
    /\ fst (run prompt st_p) = Throw e.

End Scripts.
End Process.

(** ** The approval gate of the tool scheduler *)
Module Gate.

(** Modelled from the spec: the tool scheduler ([CoreToolScheduler]) is
    imported from the SDK and its code is not among the sources; the
    definitions of this module follow the state machine of section 4.2 of
    the specification ([validating], then [awaiting_approval] or
    [executing], then [completed], [cancelled] or [errored]), with the
    auto-approve set of one scheduler instance as explicit state. *)
Inductive State : Type :=
| validating | awaiting_approval | executing | completed | cancelled | errored.

(** Modelled from the spec: "exactly one terminal status (completed,
    cancelled, or errored)". *)
Definition terminal (s : State) : bool :=
  match s with
  | completed | cancelled | errored => true
  | _ => false
  end.

Inductive Decision : Type :=
| proceed_once | proceed_always | cancel.

Inductive Payload : Type :=
| Output (parts : string)
| ErrorPayload (message : string)
| CancellationPayload.

Section WithArguments.
(** The argument mapping of a request. *)
Variable A : Type.

(** Modelled from the spec: the registry interface of section 6,
    [validate], [needsConfirmation] ([None] for "no confirmation needed")
    and [execute] (a payload, or an error). *)
Record Tool : Type := mkTool {
  validate : A -> option string;
  needsConfirmation : A -> option string;
  run : A -> string + string
}.

Record Request : Type := mkRequest {
  id : string;
  toolName : string;
  arguments : A
}.

(** A tool call with the states it went through, the decision taken on its
    prompt (if it had one) and its payload. *)
Record Call : Type := mkCall {
  request : Request;
  path : list State;
  decision : option Decision;
  payload : Payload
}.

Variable registry : string -> Tool.

(** Modelled from the spec: where a call goes from [validating], given the
    auto-approve set at the time the batch is scheduled. *)
Definition afterValidating (autoApprove : gset string) (r : Request) : State :=
  let tool := registry (toolName r) in
  match validate tool (arguments r) with
  | Some _ => errored
  | None =>
      if bool_decide (toolName r ∈ autoApprove) then executing
      else match needsConfirmation tool (arguments r) with
           | None => executing
           | Some _ => awaiting_approval
           end
  end.

(** Modelled from the spec: the [executing] state. *)
Definition runTool (r : Request) (before : list State) (d : option Decision) : Call :=
  match run (registry (toolName r)) (arguments r) with
  | inl parts => mkCall r (before ++ [executing; completed]) d (Output parts)
  | inr message => mkCall r (before ++ [executing; errored]) d (ErrorPayload message)
  end.

(** Modelled from the spec: prompts are resolved one at a time in batch
    order, each by the next decision; a prompt left without a decision is
    cancelled (the cancellation token).  [proceed_always] adds the tool
    name to the auto-approve set before the call executes. *)
Fixpoint resolve (autoApprove : gset string) (staged : list (Request * State))
  (decisions : list Decision) : list Call * gset string * list Decision :=
  match staged with
  | [] => ([], autoApprove, decisions)
  | (r, s) :: rest =>
      match s with
      | awaiting_approval =>
          match decisions with
          | proceed_once :: ds =>
              let '(cs, auto', ds') := resolve autoApprove rest ds in
              (runTool r [validating; awaiting_approval] (Some proceed_once) :: cs, auto', ds')
          | proceed_always :: ds =>
              let '(cs, auto', ds') := resolve ({[toolName r]} ∪ autoApprove) rest ds in
              (runTool r [validating; awaiting_approval] (Some proceed_always) :: cs, auto', ds')
          | cancel :: ds =>
              let '(cs, auto', ds') := resolve autoApprove rest ds in
              (mkCall r [validating; awaiting_approval; cancelled] (Some cancel)
                 CancellationPayload :: cs, auto', ds')
          | [] =>
              let '(cs, auto', ds') := resolve autoApprove rest [] in
              (mkCall r [validating; awaiting_approval; cancelled] None
                 CancellationPayload :: cs, auto', ds')
          end
      | executing =>
          let '(cs, auto', ds') := resolve autoApprove rest decisions in
          (runTool r [validating] None :: cs, auto', ds')
      | _ =>
          let '(cs, auto', ds') := resolve autoApprove rest decisions in
          (mkCall r [validating; errored] None
             (ErrorPayload (match validate (registry (toolName r)) (arguments r) with
                            | Some e => e
                            | None => ""
                            end)) :: cs, auto', ds')
      end
  end.

(** Modelled from the spec: what a batch owes a request staged in state
    [snd staged]: one call for it ("every request present at schedule time
    produces exactly one terminal-status entry"), executed exactly when it
    went from [validating] to [executing] or its prompt was answered with a
    decision to proceed. *)
Definition callOf (staged : Request * State) (call : Call) : Prop :=
  request call = fst staged
  /\ (exists s, last (path call) = Some s /\ terminal s = true)
  /\ (In executing (path call)
      <-> snd staged = executing
          \/ decision call = Some proceed_once
          \/ decision call = Some proceed_always).

(** Modelled from the spec: [schedule(requests)]; every call of the batch
    is validated against the set as it is when the batch is scheduled. *)
Definition schedule (autoApprove : gset string) (requests : list Request)
  (decisions : list Decision) : list Call * gset string * list Decision :=
  resolve autoApprove (map (fun r => (r, afterValidating autoApprove r)) requests) decisions.

(** Modelled from the spec: the batches of one scheduler instance, one
    after the other, each with the decisions typed during it. *)
Fixpoint lifetime (autoApprove : gset string) (batches : list (list Request * list Decision))
  : list (list Call) * gset string :=
  match batches with
  | [] => ([], autoApprove)
  | (requests, decisions) :: later =>
      let '(calls, auto', _) := schedule autoApprove requests decisions in
      let '(results, final) := lifetime auto' later in
      (calls :: results, final)
  end.

(** The auto-approve set when batch [k] is scheduled. *)
Definition setBefore (autoApprove : gset string) (batches : list (list Request * list Decision))
  (k : nat) : gset string :=
  snd (lifetime autoApprove (take k batches)).

End WithArguments.

Arguments mkTool {A} validate needsConfirmation run.
Arguments validate {A} t a.
Arguments needsConfirmation {A} t a.
Arguments run {A} t a.
Arguments mkRequest {A} id toolName arguments.
Arguments id {A} r.
Arguments toolName {A} r.
Arguments arguments {A} r.
Arguments mkCall {A} request path decision payload.
Arguments request {A} c.
Arguments path {A} c.
Arguments decision {A} c.
Arguments payload {A} c.
Arguments callOf {A} staged call.
Arguments afterValidating {A} registry autoApprove r.
Arguments runTool {A} registry r before d.
Arguments resolve {A} registry autoApprove staged decisions.
Arguments schedule {A} registry autoApprove requests decisions.
Arguments lifetime {A} registry autoApprove batches.
Arguments setBefore {A} registry autoApprove batches k.

End Gate.

(** [CalculatorTool] behind the registry interface of the gate. *)
Definition calculatorInRegistry (runFunction : string -> CalculatorTool.EvalResult)
  : Gate.Tool CalculatorTool.Params :=
  Gate.mkTool
    (fun params =>
       match CalculatorTool.validateToolParams params with
       | Normal r => r
       | Throw e => Some e
       | Pending => None
       end)
    (fun params =>
       match CalculatorTool.shouldConfirmExecute params with
       | Some _ => Some "Proceed?"
       | None => None
       end)
    (fun params =>
       match fst (CalculatorTool.execute runFunction params) with
       | Normal r => inl (CalculatorTool.returnDisplay r)
       | Throw e => inr e
       | Pending => inr ""
       end).

(** ** The wording of the specification, for comparison with the code *)
Module Spec.

(** All parts of a streamed reply, in arrival order. *)
Definition allParts (chunks : list Sdk.Chunk) : list Sdk.Part :=
  flat_map (fun chunk => match Sdk.parts chunk with Some ps => ps | None => [] end) chunks.

(** A text fragment that is not a thought. *)
Definition isContent (part : Sdk.Part) : bool :=
  JS.truthyOpt (Sdk.text part)
  && negb (match Sdk.thought part with Some true => true | _ => false end).

Definition textOf (part : Sdk.Part) : string :=
  match Sdk.text part with Some s => s | None => "" end.

(** The concatenation, in order, of the non-thought text fragments. *)
Definition joined (ps : list Sdk.Part) : string :=
  fold_right String.append "" (map textOf (List.filter isContent ps)).

(** The function calls carried by parts, in order. *)
Definition callsOf (ps : list Sdk.Part) : list Sdk.FunctionCall :=
  flat_map (fun part => match Sdk.functionCall part with Some fc => [fc] | None => [] end) ps.

(** "the accumulated content text": the concatenation, in arrival order,
    of all non-thought text fragments. *)
Definition contentText (chunks : list Sdk.Chunk) : string :=
  joined (allParts chunks).

(** The tool-call requests of a reply, read from the parts (step 3) and
    from the [functionCalls] getter of each chunk (step 4). *)
Definition callsInParts (chunks : list Sdk.Chunk) : list Sdk.FunctionCall :=
  callsOf (allParts chunks).

Definition callsInChunks (chunks : list Sdk.Chunk) : list Sdk.FunctionCall :=
  flat_map (fun chunk => match Sdk.functionCalls chunk with Some l => l | None => [] end)
    chunks.

(** "flatten into a single ordered sequence of parts": what one response
    payload gives: the entries of an array, the value itself when it is a
    single part, nothing when it is absent or the empty string. *)
Definition payloadParts (rp : Sdk.PartListUnion) : list Sdk.PartUnion :=
  match rp with
  | Sdk.PLArray l => l
  | Sdk.PLSingle (Sdk.PUPart p) => [Sdk.PUPart p]
  | Sdk.PLSingle (Sdk.PUString s) => if s =? "" then [] else [Sdk.PUString s]
  | Sdk.PLSingle Sdk.PUNullish => []
  end.

(** "Collect each completed call's response payload, flatten into a single
    ordered sequence of parts": the tool results of a batch, and of the
    responses of the tool executor. *)
Definition toolResults (completedCalls : list Sdk.CompletedToolCall) : list Sdk.PartUnion :=
  flat_map (fun call =>
              match Sdk.c_response call with
              | Some r => payloadParts (Sdk.responseParts r)
              | None => []
              end)
    completedCalls.

Definition responseResults (responses : list Sdk.ToolCallResponseInfo) : list Sdk.PartUnion :=
  flat_map (fun r => payloadParts (Sdk.responseParts r)) responses.

(** A payload that is a single function-response object with a [response],
    or nothing at all. *)
Definition functionResponseOrEmpty (rp : Sdk.PartListUnion) : bool :=
  match rp with
  | Sdk.PLSingle (Sdk.PUPart p) =>
      match Sdk.functionResponse p with
      | Some fr => match Sdk.fr_response fr with Some _ => true | None => false end
      | None => false
      end
  | Sdk.PLSingle (Sdk.PUString s) => s =? ""
  | Sdk.PLSingle Sdk.PUNullish => true
  | Sdk.PLArray _ => false
  end.

(** "invoking the tool" for the function calls of a reply, one after the
    other from the world [w]: each request with the response that came
    back, and the world after the last; [None] when a call does not come
    back. *)
Fixpoint toolRun {W : Type} `{SdkOps W} (fcs : list Sdk.FunctionCall) (w : W)
  : option (list (Sdk.ToolCallRequestInfo * Sdk.ToolCallResponseInfo) * W) :=
  match fcs with
  | [] => Some ([], w)
  | fc :: rest =>
      let req := Step3.requestInfo fc (Date_now w) in
      match executeToolCall w req with
      | (Normal r, w1) =>
          match toolRun rest w1 with
          | Some (run, w2) => Some ((req, r) :: run, w2)
          | None => None
          end
      | _ => None
      end
  end.

(** "a list of non-null object parts": strings become [{text}] objects,
    null and undefined entries are dropped, a single value counts as a
    one-element list. *)
Definition objectParts (rp : Sdk.PartListUnion) : list Sdk.PartUnion :=
  flat_map (fun part =>
              match part with
              | Sdk.PUString s => [Sdk.PUPart (Sdk.textPart s)]
              | Sdk.PUNullish => []
              | Sdk.PUPart _ => [part]
              end)
    (Sdk.asArray rp).

Definition objects (l : list Sdk.PartUnion) : Prop :=
  Forall (fun part => Sdk.isObject part = true) l.

(** "the token y maps to proceed-once, the token a to proceed-always,
    any other input to cancel". *)
Definition tokenProtocol (f : string -> Sdk.ToolConfirmationOutcome) : Prop :=
  f "y" = Sdk.ProceedOnce /\ f "a" = Sdk.ProceedAlwaysTool
  /\ forall s, s <> "y" -> s <> "a" -> f s = Sdk.Cancel.

Definition isPrompt (toolCall : Sdk.ToolCall) : bool :=
  match Sdk.status toolCall, Sdk.confirmationDetails toolCall with
  | Sdk.awaiting_approval, Some _ => true
  | _, _ => false
  end.

(** The prompts of one update answered in order by the lines of stdin,
    each line read through [outcomeOf]. *)
Definition answered (outcomeOf : string -> Sdk.ToolConfirmationOutcome)
  (toolCalls : list Sdk.ToolCall) (stdin : list string) : list Confirmation :=
  map (fun answer : Sdk.ToolCall * string =>
         mkConfirmation (Sdk.callId (Sdk.request (fst answer))) (outcomeOf (snd answer)))
    (combine (List.filter isPrompt toolCalls) stdin).

(** A handler that answers the prompts of every update it is given. *)
Definition answersPrompts
  (handler : list Sdk.ToolCall -> list string -> list Confirmation * list string)
  (outcomeOf : string -> Sdk.ToolConfirmationOutcome) : Prop :=
  forall toolCalls stdin,
    handler toolCalls stdin
    = (answered outcomeOf toolCalls stdin,
       skipn (length (List.filter isPrompt toolCalls)) stdin).

End Spec.

(** ** The approval handlers as the scheduler and readline run them *)
Module Approvals.

(** What reaches the handlers of steps 4 and 5: a status update of the
    scheduler, for which [onToolCallsUpdate] is invoked and not awaited, or
    input of the operator.  readline reads a chunk of input to its end
    before a suspended handler goes on, so a question only ever sees the
    first line of a chunk, [answer]; [during] are the updates the scheduler
    delivers from inside [onConfirm], before the handler goes on with its
    loop. *)
Inductive Event : Type :=
| Update (toolCalls : list Sdk.ToolCall)
| Line (answer : string) (during : list (list Sdk.ToolCall)).

(** The question readline holds: the invocation of the handler that asked
    it is suspended at its [await], about the call [asked], with the calls
    of its update it has still to look at. *)
Record Question : Type := mkQuestion {
  asked : Sdk.ToolCall;
  remaining : list Sdk.ToolCall
}.

(** An invocation runs down its update to the first call that waits for
    approval with confirmation details (part_000 lines 92-93 and 379-380,
    part_001 lines 311-318), where it asks. *)
Fixpoint firstPrompt (toolCalls : list Sdk.ToolCall) : option Question :=
  match toolCalls with
  | [] => None
  | toolCall :: rest =>
      match Sdk.status toolCall, Sdk.confirmationDetails toolCall with
      | Sdk.awaiting_approval, Some _ => Some (mkQuestion toolCall rest)
      | _, _ => firstPrompt rest
      end
  end.

(** [rl.question(query, cb)]: readline keeps one callback.  While a
    question is pending it only shows the prompt again and drops [cb], so
    the invocation that asked stays suspended for good; otherwise [cb]
    becomes the pending question. *)
Definition ask (pending : option Question) (q : option Question) : option Question :=
  match pending with
  | Some _ => pending
  | None => q
  end.

(** A status update: a new invocation of the handler. *)
Definition notify (pending : option Question) (toolCalls : list Sdk.ToolCall)
  : option Question :=
  ask pending (firstPrompt toolCalls).

(** One event.  A line typed while a question is pending clears the
    question and resumes the handler that asked: it invokes [onConfirm]
    with the outcome, inside which the scheduler may deliver updates, and
    goes on to the next prompt of its own update.  A line typed while no
    question is pending goes to the ['line'] listeners. *)
Definition step (outcomeOf : string -> Sdk.ToolConfirmationOutcome)
  (pending : option Question) (ev : Event) : list Confirmation * option Question :=
  match ev with
  | Update toolCalls => ([], notify pending toolCalls)
  | Line answer during =>
      match pending with
      | None => ([], None)
      | Some q =>
          ([mkConfirmation (Sdk.callId (Sdk.request (asked q))) (outcomeOf answer)],
           ask (fold_left notify during None) (firstPrompt (remaining q)))
      end
  end.

(** The invocations of [onConfirm] over a sequence of events. *)
Fixpoint run (outcomeOf : string -> Sdk.ToolConfirmationOutcome)
  (pending : option Question) (events : list Event) : list Confirmation :=
  match events with
  | [] => []
  | ev :: rest =>
      (fst (step outcomeOf pending ev)
         ++ run outcomeOf (snd (step outcomeOf pending ev)) rest)%list
  end.

(** The calls an update shows waiting for approval with a prompt. *)
Definition awaiting (toolCalls : list Sdk.ToolCall) : list string :=
  map (fun toolCall => Sdk.callId (Sdk.request toolCall))
    (List.filter
       (fun toolCall =>
          match Sdk.status toolCall, Sdk.confirmationDetails toolCall with
          | Sdk.awaiting_approval, Some _ => true
          | _, _ => false
          end)
       toolCalls).

(** The calls the suspended handler may still ask about. *)
Definition stillToAsk (pending : option Question) : list string :=
  match pending with
  | Some q => Sdk.callId (Sdk.request (asked q)) :: awaiting (remaining q)
  | None => []
  end.

(** An update as a scheduler delivers it once the calls [confirmed] have
    had their decision: it lists a call once, and it shows a call awaiting
    approval only while the call is awaiting approval, that is, none of
    [confirmed]. *)
Definition deliverable (confirmed : list string) (toolCalls : list Sdk.ToolCall) : Prop :=
  List.NoDup (awaiting toolCalls)
  /\ forall id, In id (awaiting toolCalls) -> ~ In id confirmed.

(** A sequence of events all of whose updates are deliverable when they
    come, from the pending question [pending] and with [confirmed]
    decided. *)
Fixpoint orderly (pending : option Question) (confirmed : list string)
  (events : list Event) : Prop :=
  match events with
  | [] => True
  | Update toolCalls :: rest =>
      deliverable confirmed toolCalls
      /\ orderly (notify pending toolCalls) confirmed rest
  | Line answer during :: rest =>
      match pending with
      | None => orderly None confirmed rest
      | Some q =>
          let confirmed' := Sdk.callId (Sdk.request (asked q)) :: confirmed in
          Forall (deliverable confirmed') during
          /\ orderly (ask (fold_left notify during None) (firstPrompt (remaining q)))
               confirmed' rest
      end
  end.

End Approvals.


(** ** A scripted world, to run the scripts on concrete inputs *)
Module Scripted.

Record World : Type := mkWorld {
  replies : list (list Sdk.Chunk);          (* what the backend streams, round by round *)
  toolOutput : Sdk.PartListUnion;           (* [responseParts] of every tool call *)
  toolStatus : Sdk.Status;                  (* final status of every scheduled call *)
  clock : Z
}.

#[global] Instance ops : SdkOps World := {
  sendMessageStream w _ :=
    match replies w with
    | [] => (Throw "stream failed", w)
    | r :: rs => (Normal r, mkWorld rs (toolOutput w) (toolStatus w) (clock w))
    end;
  executeToolCall w req :=
    (Normal (Sdk.mkResponse (Sdk.callId req) (toolOutput w) None None), w);
  scheduleBatch w reqs :=
    (Some (map (fun req =>
                  Sdk.mkCompleted req (toolStatus w)
                    (Some (Sdk.mkResponse (Sdk.callId req) (toolOutput w) None None)))
             reqs), w);
  Date_now w := clock w;
  later w := mkWorld (replies w) (toolOutput w) (toolStatus w) (clock w + 1)
}.

Definition textChunk (s : string) : Sdk.Chunk :=
  Sdk.mkChunk (Some [Sdk.textPart s]) None.

Definition call (id : option string) (name : string) : Sdk.FunctionCall :=
  Sdk.mkFunctionCall id (Some name) None.

(** A chunk carrying one function call, visible both in its parts and
    through the [functionCalls] getter. *)
Definition callChunk (fc : Sdk.FunctionCall) : Sdk.Chunk :=
  Sdk.mkChunk (Some [Sdk.mkPart None None (Some fc) None]) (Some [fc]).

Definition output (s : string) : Sdk.PartListUnion :=
  Sdk.PLSingle (Sdk.PUPart
    (Sdk.mkPart None None None
       (Some (Sdk.mkFunctionResponse None None (Some [("output", Sdk.JStr s)]))))).

Definition start (w : World) : St World := mkSt w [].

Definition waiting (id : string) : Sdk.ToolCall :=
  Sdk.mkToolCall (Sdk.mkRequest id (Some "write_file") (Some []) None)
    Sdk.awaiting_approval (Some (Sdk.DiffDetails "+ hello")).

(** A registry in which only [write_file] asks for confirmation. *)
Definition registry (name : string) : Gate.Tool Sdk.Args :=
  Gate.mkTool (fun _ => None)
    (fun _ => if name =? "write_file" then Some "+ hello" else None)
    (fun _ => inl "ok").

Definition write (id : string) : Gate.Request Sdk.Args :=
  Gate.mkRequest id "write_file" [].

(** Two batches on one scheduler: in the first, two writes are prompted
    and the first is answered "always"; the second batch is one more write. *)
Definition twoBatches : list (list (Gate.Request Sdk.Args) * list Gate.Decision) :=
  [([write "w1"; write "w2"], [Gate.proceed_always; Gate.proceed_once]);
   ([write "w3"], [])].

End Scripted.

(** ** A world in which no tool call comes back *)
Module Unattended.

(** What the backend streams, round by round.  The approval prompt is left
    unanswered, so the scheduler never reports a batch complete, and the
    tool executor does not return. *)
Definition World : Type := list (list Sdk.Chunk).

#[global] Instance ops : SdkOps World := {
  sendMessageStream w _ :=
    match w with
    | [] => (Throw "stream failed", w)
    | r :: rs => (Normal r, rs)
    end;
  executeToolCall w _ := (Pending, w);
  scheduleBatch w _ := (None, w);
  Date_now _ := 0%Z;
  later w := w
}.

End Unattended.

(** ** More of the scripts *)

(** The events of a log that call [executeToolCall], and the counts of the
    backend calls and of the scheduled batches. *)
Definition executed (l : list Event) : list Sdk.ToolCallRequestInfo :=
  flat_map (fun ev => match ev with EvExecute req => [req] | _ => [] end) l.

Definition sends (l : list Event) : nat :=
  length (List.filter (fun ev => match ev with EvSend _ => true | _ => false end) l).

Definition schedules (l : list Event) : nat :=
  length (List.filter (fun ev => match ev with EvSchedule _ => true | _ => false end) l).

Definition executions (l : list Event) : nat :=
  length (List.filter (fun ev => match ev with EvExecute _ => true | _ => false end) l).

(** The thought fragments of a reply, joined in arrival order. *)
Definition isThoughtText (part : Sdk.Part) : bool :=
  JS.truthyOpt (Sdk.text part)
  && match Sdk.thought part with Some true => true | _ => false end.

Definition thoughtJoined (ps : list Sdk.Part) : string :=
  fold_right String.append "" (map Spec.textOf (List.filter isThoughtText ps)).

Definition thoughtText (chunks : list Sdk.Chunk) : string :=
  thoughtJoined (Spec.allParts chunks).

(** All non-empty text fragments of a reply, in arrival order. *)
Definition texts (chunks : list Sdk.Chunk) : list string :=
  map Spec.textOf
    (List.filter (fun part => JS.truthyOpt (Sdk.text part)) (Spec.allParts chunks)).

(** The [functionCalls] getter of a chunk agrees with its parts: it is
    [undefined] when no part carries a function call and the list of the
    parts' function calls otherwise. *)
Definition getterAgrees (chunk : Sdk.Chunk) : Prop :=
  Sdk.functionCalls chunk
  = match Spec.callsOf (match Sdk.parts chunk with Some ps => ps | None => [] end) with
    | [] => None
    | fcs => Some fcs
    end.

(** A part that carries a function response with a [response] object. *)
Definition isFunctionResponse (part : Sdk.PartUnion) : Prop :=
  exists p fr resp,
    part = Sdk.PUPart p /\ Sdk.functionResponse p = Some fr /\ Sdk.fr_response fr = Some resp.

(** ** Step 2: streaming with thinking *)
Module Step2.

(** What the loop writes to the terminal. *)
Inductive Out : Type :=
| ThinkingHeader          (* console.log("[THINKING]") *)
| Spacing                 (* console.log("\n") after a thinking run *)
| ResponseHeader          (* console.log("[RESPONSE]") *)
| Dim (s : string)        (* a thought fragment, in dim text *)
| Plain (s : string).     (* a content fragment *)

(** Lines 58-61, with what has been written so far. *)
Record State : Type := mkState {
  isThinking : bool;
  hasContent : bool;
  thoughtCount : nat;
  contentCount : nat;
  written : list Out
}.

Definition initial : State := mkState false false 0 0 [].

(** Lines 68-92: the body of [for (const part of ...parts)]. *)
Definition onPart (st : State) (part : Sdk.Part) : State :=
  match Sdk.text part with
  | Some s =>
      if JS.truthy s then
        match Sdk.thought part with
        | Some true =>
            let st1 :=
              if negb (isThinking st)
              then mkState true false (thoughtCount st) (contentCount st)
                     (written st ++ [ThinkingHeader])
              else st in
            mkState (isThinking st1) (hasContent st1)
              (thoughtCount st1 + String.length s) (contentCount st1)
              (written st1 ++ [Dim s])
        | _ =>
            let st1 :=
              if isThinking st || negb (hasContent st)
              then mkState false true (thoughtCount st) (contentCount st)
                     (written st ++ (if isThinking st then [Spacing] else []) ++ [ResponseHeader])
              else st in
            mkState (isThinking st1) (hasContent st1)
              (thoughtCount st1) (contentCount st1 + String.length s)
              (written st1 ++ [Plain s])
        end
      else st
  | None => st
  end.

(** Lines 64-95: [for await (const event of stream)]. *)
Definition onEvent (st : State) (event : Sdk.Chunk) : State :=
  match Sdk.parts event with
  | Some ps => fold_left onPart ps st
  | None => st
  end.

Definition run (stream : list Sdk.Chunk) : State :=
  fold_left onEvent stream initial.

(** The text fragments written, without the headers. *)
Definition fragments (out : list Out) : list string :=
  flat_map (fun o => match o with Dim s | Plain s => [s] | _ => [] end) out.

(** The text fragments written, each with its kind ([Dim] for a thought,
    [Plain] for content), without the headers. *)
Definition body (out : list Out) : list Out :=
  List.filter (fun o => match o with Dim _ | Plain _ => true | _ => false end) out.

(** Where a reader of the output stands: before any header, under a
    thinking or response header with text, or right after a header or the
    blank line, where one thing only may follow. *)
Inductive Mode : Type :=
| NoHeader | Thinking | Response
| ThinkingOpened | Spaced | ResponseOpened.

(** Reading the output from the start: a thought fragment stands under a
    thinking header and a content fragment under a response header; a
    thinking header is written only at the start or after content, and a
    thought fragment follows it at once; a response header is written only
    at the start or after the blank line that ends a thinking run, and a
    content fragment follows it at once.  [None] when the output breaks
    this. *)
Definition scan (m : option Mode) (o : Out) : option Mode :=
  match m, o with
  | Some NoHeader, ThinkingHeader => Some ThinkingOpened
  | Some Response, ThinkingHeader => Some ThinkingOpened
  | Some ThinkingOpened, Dim _ => Some Thinking
  | Some Thinking, Dim _ => Some Thinking
  | Some Thinking, Spacing => Some Spaced
  | Some Spaced, ResponseHeader => Some ResponseOpened
  | Some NoHeader, ResponseHeader => Some ResponseOpened
  | Some ResponseOpened, Plain _ => Some Response
  | Some Response, Plain _ => Some Response
  | _, _ => None
  end.

End Step2.

(** The mode the flags of step 2 stand for. *)
Definition step2_mode (st : Step2.State) : Step2.Mode :=
  if Step2.isThinking st then Step2.Thinking
  else if Step2.hasContent st then Step2.Response
  else Step2.NoHeader.

(** The text of a part as it is to be shown: dim when the part is a
    thought, plain otherwise. *)
Definition shown (part : Sdk.Part) : Step2.Out :=
  match Sdk.thought part with
  | Some true => Step2.Dim (Spec.textOf part)
  | _ => Step2.Plain (Spec.textOf part)
  end.

(** All non-empty text fragments of a reply in arrival order, each as it
    is to be shown. *)
Definition textKinds (chunks : list Sdk.Chunk) : list Step2.Out :=
  map shown
    (List.filter (fun part => JS.truthyOpt (Sdk.text part)) (Spec.allParts chunks)).

(** ** The inline variant of step 3: detection and guarded execution *)
Module Step3Demo.

(** Lines 179-194: [hasTools1]. *)
Definition detectPart (hasTools : bool) (part : Sdk.Part) : bool :=
  match Sdk.functionCall part with Some _ => true | None => hasTools end.

Definition detectChunk (hasTools : bool) (chunk : Sdk.Chunk) : bool :=
  match Sdk.parts chunk with
  | Some ps => fold_left detectPart ps hasTools
  | None => hasTools
  end.

Definition hasTools (chunks : list Sdk.Chunk) : bool :=
  fold_left detectChunk chunks false.

(** What the script reports for one tool call (lines 261-271). *)
Inductive Report : Type :=
| Succeeded (resultDisplay : option string)
| ToolError (message : string)       (* [result.error] is set *)
| Failed (message : string).         (* [executeToolCall] threw *)

Section WithSdk.
Context {W : Type} `{SdkOps W}.

(** Lines 246-271: the request, and the call inside [try]/[catch]. *)
Definition runOne (fc : Sdk.FunctionCall) : M W Report :=
  (t <- now ;;
   tryCatch
     (result <- execute (Step3Inline.requestInfo fc t) ;;
      ret (match Sdk.error result with
           | Some message => ToolError message
           | None => Succeeded (Sdk.resultDisplay result)
           end))
     (fun e => ret (Failed e)))%async.

(** Lines 241-272: [for (const fc of allFunctionCalls)]. *)
Fixpoint executeAll (fcs : list Sdk.FunctionCall) : M W (list Report) :=
  match fcs with
  | [] => ret []
  | fc :: rest =>
      (r <- runOne fc ;;
       rs <- executeAll rest ;;
       ret (r :: rs))%async
  end.

End WithSdk.
End Step3Demo.

(** ** Step 5: the chat side *)
Module Step5Chat.

(** The stream events as [sendStreamingMessage] reads them. *)
Inductive GeminiEvent : Type :=
| Thoughts (text : option string)
| Content (text : option string)
| FunctionCalls (fcs : list Sdk.FunctionCall)
| OtherEvent.

(** What [sendStreamingMessage] does on the terminal. *)
Inductive Out : Type :=
| SpinnerStart | SpinnerStop
| ThinkingHeader | AssistantHeader
| Dim (s : string) | Plain (s : string)
| UsingTools (n : nat)
| Prompt.

(** Lines 347-348. *)
Record Flags : Type := mkFlags { hasThoughts : bool; hasContent : bool }.

(** Lines 368-372: [event.value.map(fc => ...)]; [t i] is the clock when
    the callback runs for the call at index [i]. *)
Definition toolCallRequests (fcs : list Sdk.FunctionCall) (t : nat -> Z)
  : list Sdk.ToolCallRequestInfo :=
  imap (fun i fc => Step5.toolCallRequest fc (t i)) fcs.

(** Lines 350-381: the loop over the stream, from the flags [f]; the
    second component is the batch handed to [scheduler.schedule], after
    which the function returns without reading on. *)
Fixpoint consume (events : list GeminiEvent) (f : Flags) (t : nat -> Z)
  : list Out * option (list Sdk.ToolCallRequestInfo) :=
  match events with
  | [] => ([Prompt], None)
  | Thoughts text :: rest =>
      if JS.truthyOpt text then
        let '(out, batch) := consume rest (mkFlags true (hasContent f)) t in
        (((if negb (hasThoughts f) then [SpinnerStop; ThinkingHeader] else [])
            ++ [Dim (JS.template text)] ++ out)%list, batch)
      else consume rest f t
  | Content text :: rest =>
      if JS.truthyOpt text then
        let '(out, batch) := consume rest (mkFlags (hasThoughts f) true) t in
        (((if negb (hasContent f)
           then (if negb (hasThoughts f) then [SpinnerStop] else []) ++ [AssistantHeader]
           else [])
            ++ [Plain (JS.template text)] ++ out)%list, batch)
      else consume rest f t
  | FunctionCalls fcs :: _ =>
      (((if negb (hasThoughts f) && negb (hasContent f) then [SpinnerStop] else [])
          ++ [UsingTools (length fcs)])%list,
       Some (toolCallRequests fcs t))
  | OtherEvent :: rest => consume rest f t
  end.

(** Lines 337-382: [sendStreamingMessage]. *)
Definition sendStreamingMessage (events : list GeminiEvent) (t : nat -> Z)
  : list Out * option (list Sdk.ToolCallRequestInfo) :=
  let '(out, batch) := consume events (mkFlags false false) t in
  (SpinnerStart :: out, batch).

Definition isFunctionCalls (event : GeminiEvent) : bool :=
  match event with FunctionCalls _ => true | _ => false end.

(** An event the loop reacts to: a thought or content with text, or
    function calls. *)
Definition handled (event : GeminiEvent) : bool :=
  match event with
  | Thoughts text | Content text => JS.truthyOpt text
  | FunctionCalls _ => true
  | OtherEvent => false
  end.

Definition count (o : Out) (out : list Out) : nat :=
  length (List.filter
            (fun x => match o, x with
                      | SpinnerStart, SpinnerStart | SpinnerStop, SpinnerStop
                      | ThinkingHeader, ThinkingHeader | AssistantHeader, AssistantHeader
                      | Prompt, Prompt => true
                      | _, _ => false
                      end) out).

(** Lines 294-296: [completedCalls.flatMap((call) => call.response.responseParts)];
    reading [responseParts] of an absent [response] raises. *)
Fixpoint responseParts (completedCalls : list Sdk.CompletedToolCall)
  : Completion (list Sdk.PartUnion) :=
  match completedCalls with
  | [] => Normal []
  | call :: rest =>
      match Sdk.c_response call with
      | None => Throw "Cannot read properties of undefined (reading 'responseParts')"
      | Some r =>
          match responseParts rest with
          | Normal ps => Normal (Sdk.asArray (Sdk.responseParts r) ++ ps)%list
          | other => other
          end
      end
  end.

(** Lines 145-160: the spinner's timer callback, [frames[i]] written and
    [i] advanced; the ten frames are named by their index. *)
Definition frameCount : nat := 10.

Definition tick (i : nat) : nat * nat := (i, (i + 1) mod frameCount).

(** The frames written by the first [n] ticks after [start], which sets
    [i = 0]. *)
Fixpoint ticks (n : nat) (i : nat) : list nat :=
  match n with
  | O => []
  | S n' => fst (tick i) :: ticks n' (snd (tick i))
  end.

End Step5Chat.

(** ** Step 5: the command loop *)
Module Repl.

(** A line typed by the operator, with the events read from the backend's
    stream when the line is sent as a message: to the end of the stream,
    or to where reading it raises (lines 424-429 catch what is raised). *)
Record Typed : Type := mkTyped {
  typed : string;
  stream : list Step5Chat.GeminiEvent
}.

(** Line 393: the [exit] command. *)
Definition isExit (line : Typed) : bool :=
  JS.truthy (JS.trim (typed line))
  && (JS.toLowerCase (JS.trim (typed line)) =? "exit").

(** Lines 388-424: a line that is sent as a message. *)
Definition isMessage (line : Typed) : bool :=
  JS.truthy (JS.trim (typed line))
  && negb (JS.toLowerCase (JS.trim (typed line)) =? "exit")
  && negb (JS.toLowerCase (JS.trim (typed line)) =? "help")
  && negb (JS.toLowerCase (JS.trim (typed line)) =? "clear").

(** Whether [sendStreamingMessage] leaves the interval of its spinner
    running: [spinner.stop()] is what clears it (lines 162-165). *)
Definition leavesSpinner (events : list Step5Chat.GeminiEvent) (t : nat -> Z) : bool :=
  (Step5Chat.count Step5Chat.SpinnerStop (fst (Step5Chat.sendStreamingMessage events t)) =? 0)%nat.

(** Lines 385-430: the ['line'] handler; [Some code] when it ends the
    process, and whether it leaves a spinner running. *)
Definition onLine (t : nat -> Z) (line : Typed) : option Z * bool :=
  let input := JS.trim (typed line) in
  if negb (JS.truthy input) then (None, false)
  else if JS.toLowerCase input =? "exit" then (Some 0%Z, false)
  else if JS.toLowerCase input =? "help" then (None, false)
  else if JS.toLowerCase input =? "clear" then (None, false)
  else (None, leavesSpinner (stream line) t).

(** The lines typed until [exit] or the end of the input; [running]:
    a spinner is running. *)
Fixpoint repl (t : nat -> Z) (lines : list Typed) (running : bool) : option Z * bool :=
  match lines with
  | [] => (None, running)
  | line :: later =>
      match onLine t line with
      | (Some code, _) => (Some code, running)
      | (None, leaves) => repl t later (running || leaves)
      end
  end.

Section Step5.
Context {W : Type} `{SdkOps W}.
Variable setup : M W unit.

(** Lines 258-432 and the lines read afterwards: [main] ends with
    [rl.prompt()] once the set-up is through; the command loop runs in the
    ['line'] handler. *)
Definition step5 (t : nat -> Z) (lines : list Typed) (st : St W) : Process.MainEnd * bool :=
  match fst (setup st) with
  | Normal _ =>
      match repl t lines false with
      | (Some code, _) => (Process.Exits code, false)
      | (None, running) => (Process.Settles (Normal tt), running)
      end
  | Throw e => (Process.Settles (Throw e), false)
  | Pending => (Process.Settles Pending, false)
  end.

(** Lines 254-257 and 436-439; a running spinner is a timer left to run. *)
Definition script (GEMINI_API_KEY : option string) (t : nat -> Z) (lines : list Typed)
  (idle : bool) (st : St W) : option Z :=
  if negb (JS.truthyOpt GEMINI_API_KEY) then Some 1%Z
  else Process.exitCode (fst (step5 t lines st)) (idle && negb (snd (step5 t lines st))).

End Step5.
End Repl.


(* ===================================================================== *)
(** * Part II: theorems *)
(* ===================================================================== *)

(** ** Strings *)

Ltac each_char c :=
  destruct c as [[] [] [] [] [] [] [] []]; vm_compute; intros; try discriminate; auto.

Lemma toLowerChar_y (c : ascii) :
  JS.toLowerChar c = "y"%char -> c = "y"%char \/ c = "Y"%char.
Proof. each_char c. Qed.

Lemma toLowerChar_a (c : ascii) :
  JS.toLowerChar c = "a"%char -> c = "a"%char \/ c = "A"%char.
Proof. each_char c. Qed.

Lemma toLowerChar_e (c : ascii) :
  JS.toLowerChar c = "e"%char -> c = "e"%char \/ c = "E"%char.
Proof. each_char c. Qed.

Lemma toLowerChar_s (c : ascii) :
  JS.toLowerChar c = "s"%char -> c = "s"%char \/ c = "S"%char.
Proof. each_char c. Qed.

Lemma toLowerCase_empty (s : string) : JS.toLowerCase s = "" -> s = "".
Proof. destruct s; simpl; [reflexivity | discriminate]. Qed.

Lemma toLowerCase_y (s : string) :
  JS.toLowerCase s = "y" <-> s = "y" \/ s = "Y".
Proof.
  split.
  - destruct s as [|c r]; simpl; [discriminate|].
    intros E. injection E as Ec Er.
    apply toLowerCase_empty in Er. subst r.
    destruct (toLowerChar_y c Ec); subst; auto.
  - intros [-> | ->]; reflexivity.
Qed.

Lemma toLowerCase_a (s : string) :
  JS.toLowerCase s = "a" <-> s = "a" \/ s = "A".
Proof.
  split.
  - destruct s as [|c r]; simpl; [discriminate|].
    intros E. injection E as Ec Er.
    apply toLowerCase_empty in Er. subst r.
    destruct (toLowerChar_a c Ec); subst; auto.
  - intros [-> | ->]; reflexivity.
Qed.

Lemma toLowerCase_yes (s : string) :
  JS.toLowerCase s = "yes" <->
  In s ["yes"; "yeS"; "yEs"; "yES"; "Yes"; "YeS"; "YEs"; "YES"].
Proof.
  split.
  - destruct s as [|c1 [|c2 [|c3 r]]]; simpl; try discriminate.
    intros E. injection E as E1 E2 E3 Er.
    apply toLowerCase_empty in Er. subst r.
    destruct (toLowerChar_y c1 E1), (toLowerChar_e c2 E2), (toLowerChar_s c3 E3);
      subst; simpl; tauto.
  - simpl. intros H. repeat (destruct H as [<- | H]; [reflexivity|]). destruct H.
Qed.

(** ** The approval tokens (steps 4 and 5) *)

Lemma step4_outcome_cases (s : string) :
  (JS.toLowerCase s = "y" /\ Step4.outcomeOf s = Sdk.ProceedOnce)
  \/ (JS.toLowerCase s = "a" /\ Step4.outcomeOf s = Sdk.ProceedAlwaysTool)
  \/ (JS.toLowerCase s <> "y" /\ JS.toLowerCase s <> "a" /\ Step4.outcomeOf s = Sdk.Cancel).
Proof.
  unfold Step4.outcomeOf.
  destruct (JS.toLowerCase s =? "y") eqn:Ey.
  - left. apply String.eqb_eq in Ey. auto.
  - apply String.eqb_neq in Ey.
    destruct (JS.toLowerCase s =? "a") eqn:Ea.
    + right; left. apply String.eqb_eq in Ea. auto.
    + right; right. apply String.eqb_neq in Ea. auto.
Qed.

Lemma step4_handler_uses_outcomeOf (toolCalls : list Sdk.ToolCall) :
  forall stdin,
    let cs := fst (Step4Handler.onToolCallsUpdate toolCalls stdin) in
    map outcome cs = map Step4.outcomeOf (take (length cs) stdin).
Proof.
  induction toolCalls as [|tc rest IH]; intros stdin; simpl; [reflexivity|].
  destruct (Sdk.status tc); try apply IH.
  destruct (Sdk.confirmationDetails tc); try apply IH.
  destruct stdin as [|response stdin']; [reflexivity|].
  specialize (IH stdin'). simpl in IH.
  destruct (Step4Handler.onToolCallsUpdate rest stdin') as [cs remaining].
  simpl in *. f_equal. exact IH.
Qed.

Lemma step5_handler_uses_outcomeOf (toolCalls : list Sdk.ToolCall) :
  forall stdin,
    let cs := fst (Step5.onToolCallsUpdate toolCalls stdin) in
    map outcome cs = map Step5.outcomeOf (take (length cs) stdin).
Proof.
  induction toolCalls as [|tc rest IH]; intros stdin; simpl; [reflexivity|].
  destruct (Sdk.status tc); try apply IH.
  destruct (Sdk.confirmationDetails tc); try apply IH.
  destruct stdin as [|response stdin']; [reflexivity|].
  specialize (IH stdin'). simpl in IH.
  destruct (Step5.onToolCallsUpdate rest stdin') as [cs remaining].
  simpl in *. f_equal. exact IH.
Qed.

(** C3, as stated, fails: step 4 lower-cases the answer, so [Y] (which is
    neither token) proceeds once and [A] approves always; step 5 knows no
    [a] token at all (it cancels) and takes [yes] for [y]. *)
Lemma approval_tokens_counterexample :
  Step4.outcomeOf "Y" = Sdk.ProceedOnce
  /\ Step5.outcomeOf "a" = Sdk.Cancel
  /\ ~ Spec.tokenProtocol Step4.outcomeOf
  /\ ~ Spec.tokenProtocol Step5.outcomeOf.
Proof.
  split; [reflexivity|]. split; [reflexivity|]. split.
  - intros (_ & _ & Hother).
    specialize (Hother "Y"). vm_compute in Hother.
    assert (Sdk.ProceedOnce = Sdk.Cancel) by (apply Hother; discriminate).
    discriminate.
  - intros (_ & Ha & _). vm_compute in Ha. discriminate.
Qed.

(** C3 (amended): in step 4 the answer is compared after lower-casing:
    [y]/[Y] is proceed-once, [a]/[A] is proceed-always-for-this-tool, every
    other line is cancel; in step 5 [y] and [yes] in any letter case are
    proceed-once and every other line, [a] included, is cancel.  Each
    handler applies its mapping to every prompt it answers. *)
Theorem approval_tokens (s : string) :
  (Step4.outcomeOf s = Sdk.ProceedOnce <-> s = "y" \/ s = "Y")
  /\ (Step4.outcomeOf s = Sdk.ProceedAlwaysTool <-> s = "a" \/ s = "A")
  /\ (Step4.outcomeOf s = Sdk.Cancel <-> ~ In s ["y"; "Y"; "a"; "A"])
  /\ (Step5.outcomeOf s = Sdk.ProceedOnce <->
      In s ["y"; "Y"; "yes"; "yeS"; "yEs"; "yES"; "Yes"; "YeS"; "YEs"; "YES"])
  /\ (Step5.outcomeOf s = Sdk.Cancel <->
      ~ In s ["y"; "Y"; "yes"; "yeS"; "yEs"; "yES"; "Yes"; "YeS"; "YEs"; "YES"])
  /\ (forall toolCalls stdin,
        let cs := fst (Step4Handler.onToolCallsUpdate toolCalls stdin) in
        map outcome cs = map Step4.outcomeOf (take (length cs) stdin))
  /\ (forall toolCalls stdin,
        let cs := fst (Step5.onToolCallsUpdate toolCalls stdin) in
        map outcome cs = map Step5.outcomeOf (take (length cs) stdin)).
Proof.
  pose proof (toLowerCase_y s) as Hy.
  pose proof (toLowerCase_a s) as Ha.
  pose proof (toLowerCase_yes s) as Hyes.
  assert (Hya : JS.toLowerCase s = "y" -> JS.toLowerCase s = "a" -> False)
    by (intros E1 E2; rewrite E1 in E2; discriminate).
  assert (Hyes' : JS.toLowerCase s = "y" \/ JS.toLowerCase s = "yes" <->
                  In s ["y"; "Y"; "yes"; "yeS"; "yEs"; "yES"; "Yes"; "YeS"; "YEs"; "YES"]).
  { split.
    - intros [E | E].
      + apply Hy in E. destruct E; subst; simpl; auto.
      + apply Hyes in E. simpl in *. tauto.
    - intros H. simpl in H.
      destruct H as [<- | [<- | H]]; [left; reflexivity | left; reflexivity |].
      right. apply Hyes. simpl. exact H. }
  assert (Hin4 : JS.toLowerCase s = "y" \/ JS.toLowerCase s = "a" <->
                 In s ["y"; "Y"; "a"; "A"]).
  { split.
    - intros [E | E]; [apply Hy in E | apply Ha in E]; destruct E; subst; simpl; auto.
    - intros H. simpl in H.
      destruct H as [<- | [<- | [<- | [<- | []]]]]; auto. }
  assert (H5 : Step5.confirm s = true <->
               JS.toLowerCase s = "y" \/ JS.toLowerCase s = "yes").
  { unfold Step5.confirm. rewrite orb_true_iff, !String.eqb_eq. reflexivity. }
  destruct (step4_outcome_cases s) as [[L O] | [[L O] | (L1 & L2 & O)]];
    rewrite O; unfold Step5.outcomeOf;
    (destruct (Step5.confirm s) eqn:E5;
     [ assert (H5' : JS.toLowerCase s = "y" \/ JS.toLowerCase s = "yes") by (apply H5; reflexivity)
     | assert (H5' : ~ (JS.toLowerCase s = "y" \/ JS.toLowerCase s = "yes"))
         by (rewrite <- H5; discriminate) ]);
    clear Hyes H5 E5 O;
    (split; [|split; [|split; [|split; [|split; [|split]]]]]);
    try apply step4_handler_uses_outcomeOf;
    try apply step5_handler_uses_outcomeOf;
    (split; intros; try discriminate; try reflexivity; tauto).
Qed.

(** C3 (amended) at the answers [Y] and [a]. *)
Lemma approval_tokens_witness :
  Step4.outcomeOf "Y" = Sdk.ProceedOnce /\ Step5.outcomeOf "a" = Sdk.Cancel.
Proof.
  split.
  - destruct (approval_tokens "Y") as (Honce & _). apply Honce. right. reflexivity.
  - destruct (approval_tokens "a") as (_ & _ & _ & _ & Hcancel & _). apply Hcancel.
    simpl. intros H. repeat (destruct H as [H | H]; [discriminate|]). exact H.
Defined.

(** ** The [callId] of a request *)

Lemma or_else_nonempty (i b : string) : i <> "" -> JS.or_else (Some i) b = i.
Proof.
  intros Hne. unfold JS.or_else, JS.truthyOpt, JS.truthy.
  apply String.eqb_neq in Hne. rewrite Hne. reflexivity.
Qed.

(** C6, as stated, fails: for an empty identifier the scripts differ.
    [fc.id ?? ...] (03-tools.ts, step 4) keeps it, [fc.id || ...] (step 5
    and the inline step 3) replaces it by a generated one. *)
Lemma callId_counterexample :
  let fc := Sdk.mkFunctionCall (Some "") (Some "read_file") None in
  Sdk.callId (Step3.requestInfo fc 1720000000000) = ""
  /\ Sdk.callId (Step4.toolRequest fc 1720000000000) = ""
  /\ Sdk.callId (Step5.toolCallRequest fc 1720000000000) = "read_file-1720000000000"
  /\ Sdk.callId (Step3Inline.requestInfo fc 1720000000000) = "read_file-1720000000000".
Proof. repeat split; reflexivity. Qed.

(** C6 (amended): in every script that builds requests, a non-empty
    identifier supplied by the backend is the [callId] unchanged, and with
    no identifier the [callId] is the tool name, a hyphen and the
    timestamp.  An empty identifier is kept where the script uses [??] and
    replaced by a generated one where it uses [||]. *)
Theorem callId_default (fc : Sdk.FunctionCall) (t : Z) :
  let ids := [Sdk.callId (Step3.requestInfo fc t);
              Sdk.callId (Step4.toolRequest fc t);
              Sdk.callId (Step5.toolCallRequest fc t);
              Sdk.callId (Step3Inline.requestInfo fc t)] in
  let generated := JS.template (Sdk.fc_name fc) ++ "-" ++ JS.numberToString t in
  (forall i, Sdk.fc_id fc = Some i -> i <> "" -> forall c, In c ids -> c = i)
  /\ (Sdk.fc_id fc = None -> forall c, In c ids -> c = generated)
  /\ (Sdk.fc_id fc = Some "" ->
      Sdk.callId (Step3.requestInfo fc t) = ""
      /\ Sdk.callId (Step4.toolRequest fc t) = ""
      /\ Sdk.callId (Step5.toolCallRequest fc t) = generated
      /\ Sdk.callId (Step3Inline.requestInfo fc t) = generated).
Proof.
  destruct fc as [id nm ar]. cbv zeta.
  unfold Step3.requestInfo, Step4.toolRequest, Step5.toolCallRequest,
    Step3Inline.requestInfo, callId_nullish, callId_or, generatedId.
  cbn [Sdk.callId Sdk.fc_id Sdk.fc_name].
  split; [|split].
  - intros i -> Hne c Hc. rewrite (or_else_nonempty _ _ Hne) in Hc.
    cbn [JS.nullish] in Hc. simpl in Hc.
    destruct Hc as [<- | [<- | [<- | [<- | []]]]]; reflexivity.
  - intros -> c Hc. simpl in Hc.
    destruct Hc as [<- | [<- | [<- | [<- | []]]]]; reflexivity.
  - intros ->. repeat split; reflexivity.
Qed.

(** The amended C6 at a concrete call: an identifier is kept, a missing
    one is generated. *)
Lemma callId_default_witness :
  Sdk.callId (Step5.toolCallRequest (Sdk.mkFunctionCall (Some "call-7") (Some "ls") None) 5) = "call-7"
  /\ Sdk.callId (Step3.requestInfo (Sdk.mkFunctionCall None (Some "ls") None) 5) = "ls-5".
Proof.
  split.
  - destruct (callId_default (Sdk.mkFunctionCall (Some "call-7") (Some "ls") None) 5)
      as (Hkept & _ & _).
    apply (Hkept "call-7"); [reflexivity | discriminate | simpl; tauto].
  - destruct (callId_default (Sdk.mkFunctionCall None (Some "ls") None) 5)
      as (_ & Hgen & _).
    apply Hgen; [reflexivity | simpl; tauto].
Defined.

(** ** [while (true)] loops *)

Section WhileTrue.
Context {W S A : Type} (body : S -> M W (S + A)).

Lemma while_true_step (n : nat) (s : S) (st : St W) :
  while_true body (Datatypes.S n) s st =
  match body s st with
  | (Normal (inl s'), st') => while_true body n s' st'
  | (Normal (inr a), st') => (Normal a, st')
  | (Throw e, st') => (Throw e, st')
  | (Pending, st') => (Pending, st')
  end.
Proof.
  simpl. unfold bind. destruct (body s st) as [[[s' | a] | e |] st']; reflexivity.
Qed.

(** The loop returns exactly when some iteration within the fuel is
    reached and breaks. *)
Lemma while_true_returns (fuel : nat) :
  forall s st a st',
    while_true body fuel s st = (Normal a, st') <->
    exists k s_k st_k,
      k < fuel /\ iteration body k s st = Some (s_k, st_k)
      /\ body s_k st_k = (Normal (inr a), st').
Proof.
  induction fuel as [|n IH]; intros s st a st'.
  - split; [discriminate|]. intros (k & _ & _ & Hk & _). lia.
  - rewrite while_true_step. split.
    + destruct (body s st) as [[[s1 | a1] | e |] st1] eqn:Hb; try discriminate.
      * intros Hrun. apply IH in Hrun as (k & s_k & st_k & Hk & Hit & Hbk).
        exists (Datatypes.S k), s_k, st_k. simpl. rewrite Hb. repeat split; [lia | assumption..].
      * intros [= <- <-]. exists 0, s, st. simpl. repeat split; [lia | assumption].
    + intros (k & s_k & st_k & Hk & Hit & Hbk).
      destruct k as [|k]; simpl in Hit.
      * injection Hit as <- <-. rewrite Hbk. reflexivity.
      * destruct (body s st) as [[[s1 | a1] | e |] st1] eqn:Hb; try discriminate.
        apply IH. exists k, s_k, st_k. repeat split; [lia | assumption..].
Qed.

(** Reaching iteration [k+1] is reaching iteration [k] and going round. *)
Lemma iteration_next (k : nat) :
  forall s st,
    iteration body (Datatypes.S k) s st =
    match iteration body k s st with
    | Some (s_k, st_k) =>
        match body s_k st_k with
        | (Normal (inl s'), st') => Some (s', st')
        | _ => None
        end
    | None => None
    end.
Proof.
  induction k as [|k IH]; intros s st.
  - simpl. destruct (body s st) as [[[s1 | a1] | e |] st1]; reflexivity.
  - change (iteration body (Datatypes.S (Datatypes.S k)) s st)
      with (match body s st with
            | (Normal (inl s'), st') => iteration body (Datatypes.S k) s' st'
            | _ => None
            end).
    destruct (body s st) as [[[s1 | a1] | e |] st1] eqn:Hb.
    + rewrite IH. simpl. rewrite Hb. reflexivity.
    + simpl. rewrite Hb. reflexivity.
    + simpl. rewrite Hb. reflexivity.
    + simpl. rewrite Hb. reflexivity.
Qed.

(** With enough fuel the loop runs every iteration that is reached: its
    final state extends the state after that iteration's body. *)
Hypothesis body_extends : forall s st, log st `prefix_of` log (snd (body s st)).

Lemma while_true_extends (fuel : nat) :
  forall s st, log st `prefix_of` log (snd (while_true body fuel s st)).
Proof.
  induction fuel as [|n IH]; intros s st.
  - simpl. reflexivity.
  - rewrite while_true_step. pose proof (body_extends s st) as Hb.
    destruct (body s st) as [[[s1 | a1] | e |] st1]; simpl in *; try assumption.
    etrans; [exact Hb | apply IH].
Qed.

Lemma while_true_runs_iteration (fuel : nat) :
  forall k s st s_k st_k,
    k < fuel -> iteration body k s st = Some (s_k, st_k) ->
    log (snd (body s_k st_k)) `prefix_of` log (snd (while_true body fuel s st)).
Proof.
  induction fuel as [|n IH]; intros k s st s_k st_k Hk Hit; [lia|].
  rewrite while_true_step. destruct k as [|k]; simpl in Hit.
  - injection Hit as <- <-.
    destruct (body s st) as [[[s1 | a1] | e |] st1]; simpl; try reflexivity.
    apply while_true_extends.
  - destruct (body s st) as [[[s1 | a1] | e |] st1]; try discriminate.
    apply (IH k); [lia | assumption].
Qed.

End WhileTrue.

(** ** Reading the stream: the accumulators against the specification *)

Lemma append_cons (c : ascii) (s t : string) : String c s ++ t = String c (s ++ t).
Proof. reflexivity. Qed.

Lemma append_nil_r (s : string) : s ++ "" = s.
Proof.
  induction s as [|c s IH]; [reflexivity | rewrite append_cons, IH; reflexivity].
Qed.

Lemma append_assoc (a b c : string) : (a ++ b) ++ c = a ++ (b ++ c).
Proof.
  induction a as [|x a IH]; [reflexivity | rewrite !append_cons, IH; reflexivity].
Qed.

Lemma joined_app (ps qs : list Sdk.Part) : Spec.joined (ps ++ qs) = Spec.joined ps ++ Spec.joined qs.
Proof.
  unfold Spec.joined. induction ps as [|p ps IH]; simpl; [reflexivity|].
  destruct (Spec.isContent p); simpl; [rewrite IH, append_assoc|]; auto.
Qed.

Lemma step3_parts (ps : list Sdk.Part) :
  forall acc,
    Step3.functionCalls (fold_left Step3.consumePart ps acc)
    = (Step3.functionCalls acc ++ Spec.callsOf ps)%list
    /\ Step3.responseText (fold_left Step3.consumePart ps acc)
       = Step3.responseText acc ++ Spec.joined ps.
Proof.
  induction ps as [|p ps IH]; intros acc; simpl.
  - unfold Spec.joined. simpl. rewrite app_nil_r, append_nil_r. auto.
  - destruct (IH (Step3.consumePart acc p)) as [-> ->]. clear IH.
    unfold Step3.consumePart, Spec.joined, Spec.isContent, Step3.isThought, Spec.textOf.
    destruct p as [txt th fc fr]; simpl.
    destruct th as [[|]|], (JS.truthyOpt txt), fc; simpl;
      rewrite <- ?app_assoc, ?append_assoc; simpl; auto.
Qed.

Lemma callsOf_app (ps qs : list Sdk.Part) :
  Spec.callsOf (ps ++ qs) = (Spec.callsOf ps ++ Spec.callsOf qs)%list.
Proof. unfold Spec.callsOf. apply flat_map_app. Qed.

Lemma allParts_cons (c : Sdk.Chunk) (chunks : list Sdk.Chunk) :
  Spec.allParts (c :: chunks)
  = (match Sdk.parts c with Some ps => ps | None => [] end ++ Spec.allParts chunks)%list.
Proof. reflexivity. Qed.

Lemma step3_stream (chunks : list Sdk.Chunk) :
  forall acc,
    Step3.functionCalls (fold_left Step3.consumeChunk chunks acc)
    = (Step3.functionCalls acc ++ Spec.callsInParts chunks)%list
    /\ Step3.responseText (fold_left Step3.consumeChunk chunks acc)
       = Step3.responseText acc ++ Spec.contentText chunks.
Proof.
  unfold Spec.callsInParts, Spec.contentText.
  induction chunks as [|c chunks IH]; intros acc.
  - simpl. unfold Spec.joined. simpl. rewrite app_nil_r, append_nil_r. auto.
  - cbn [fold_left]. destruct (IH (Step3.consumeChunk acc c)) as [-> ->]. clear IH.
    rewrite allParts_cons, callsOf_app, joined_app.
    unfold Step3.consumeChunk.
    destruct (Sdk.parts c) as [ps|].
    + destruct (step3_parts ps acc) as [-> ->].
      rewrite <- app_assoc, append_assoc. auto.
    + unfold Spec.joined. simpl. auto.
Qed.

(** The accumulators of [runChatWithTool] hold what the specification
    calls the tool-call requests and the content text of the reply. *)
Lemma step3_consumeStream (chunks : list Sdk.Chunk) :
  Step3.functionCalls (Step3.consumeStream chunks) = Spec.callsInParts chunks
  /\ Step3.responseText (Step3.consumeStream chunks) = Spec.contentText chunks.
Proof.
  unfold Step3.consumeStream. destruct (step3_stream chunks Step3.emptyAcc) as [-> ->].
  auto.
Qed.

Lemma step4_parts (ps : list Sdk.Part) :
  forall txt, fold_left Step4.consumePart ps txt = txt ++ Spec.joined ps.
Proof.
  induction ps as [|p ps IH]; intros txt; simpl.
  - unfold Spec.joined. simpl. rewrite append_nil_r. reflexivity.
  - rewrite IH. unfold Step4.consumePart, Spec.joined, Spec.isContent, Step4.isThought, Spec.textOf.
    simpl. destruct (JS.truthyOpt (Sdk.text p)); simpl; [|reflexivity].
    destruct (Sdk.thought p) as [[|]|]; simpl; rewrite ?append_assoc; reflexivity.
Qed.

Lemma step4_stream (chunks : list Sdk.Chunk) :
  forall acc,
    Step4.functionCalls (fold_left Step4.consumeResp chunks acc)
    = (Step4.functionCalls acc ++ Spec.callsInChunks chunks)%list
    /\ Step4.streamedText (fold_left Step4.consumeResp chunks acc)
       = Step4.streamedText acc ++ Spec.contentText chunks.
Proof.
  unfold Spec.callsInChunks, Spec.contentText.
  induction chunks as [|c chunks IH]; intros acc.
  - simpl. unfold Spec.joined. simpl. rewrite app_nil_r, append_nil_r. auto.
  - cbn [fold_left flat_map]. destruct (IH (Step4.consumeResp acc c)) as [-> ->]. clear IH.
    rewrite allParts_cons, joined_app.
    unfold Step4.consumeResp. cbn [Step4.functionCalls Step4.streamedText]. split.
    + destruct (Sdk.functionCalls c); simpl; rewrite <- ?app_assoc; reflexivity.
    + destruct (Sdk.parts c) as [ps|].
      * rewrite step4_parts, append_assoc. reflexivity.
      * unfold Spec.joined. simpl. reflexivity.
Qed.

Lemma step4_consumeStream (chunks : list Sdk.Chunk) :
  Step4.functionCalls (Step4.consumeStream chunks) = Spec.callsInChunks chunks
  /\ Step4.streamedText (Step4.consumeStream chunks) = Spec.contentText chunks.
Proof.
  unfold Step4.consumeStream. destruct (step4_stream chunks Step4.emptyAcc) as [-> ->].
  auto.
Qed.

Lemma no_calls (A : Type) (l : list A) : (0 <? length l)%nat = false <-> l = [].
Proof.
  destruct l; simpl; split; auto; discriminate.
Qed.

(** ** The bodies of the two loops *)

Section LoopBodies.
Context {W : Type} `{SdkOps W}.

Lemma send_runs (messages : list Sdk.PartUnion) (st : St W) :
  send messages st
  = (fst (sendMessageStream (world st) messages),
     sent st messages (snd (sendMessageStream (world st) messages))).
Proof.
  unfold send, sent. destruct (sendMessageStream (world st) messages); reflexivity.
Qed.

Lemma mapNow_runs {A B : Type} (f : A -> Z -> B) (l : list A) (st : St W) :
  mapNow f l st
  = (Normal (fst (readings f l (world st))), mkSt (snd (readings f l (world st))) (log st)).
Proof.
  unfold mapNow. destruct (readings f l (world st)); reflexivity.
Qed.

Lemma readings_length {A B : Type} (f : A -> Z -> B) (l : list A) :
  forall w, length (fst (readings f l w)) = length l.
Proof.
  induction l as [|x l IH]; intros w; simpl; [reflexivity|].
  specialize (IH (later w)). destruct (readings f l (later w)). simpl in *. lia.
Qed.

Lemma executeCalls_extends (fcs : list Sdk.FunctionCall) :
  forall acc (st : St W), log st `prefix_of` log (snd (Step3.executeCalls fcs acc st)).
Proof.
  induction fcs as [|fc rest IH]; intros acc st; simpl; [reflexivity|].
  unfold bind, now, execute, liftC. simpl.
  destruct (executeToolCall (world st) _) as [[r | e |] w1]; simpl;
    try (apply prefix_app_r; reflexivity).
  destruct (Step3.collectResponse acc r) as [parts' | e |]; simpl;
    try (apply prefix_app_r; reflexivity).
  etrans; [|apply IH]. simpl. apply prefix_app_r. reflexivity.
Qed.

(** Step 3: the body breaks exactly when the reply carries no function
    call, with the trimmed content text. *)
Lemma step3_breaks (messages : list Sdk.PartUnion) (st : St W) (a : string) (st' : St W) :
  Step3.loopBody messages st = (Normal (inr a), st') <->
  exists chunks w',
    sendMessageStream (world st) messages = (Normal chunks, w')
    /\ Spec.callsInParts chunks = []
    /\ a = JS.trim (Spec.contentText chunks)
    /\ st' = sent st messages w'.
Proof.
  unfold Step3.loopBody, bind. rewrite send_runs.
  destruct (sendMessageStream (world st) messages) as [[chunks | e |] w1] eqn:Hs; simpl.
  - destruct (step3_consumeStream chunks) as [-> ->].
    destruct (0 <? length (Spec.callsInParts chunks))%nat eqn:Hc.
    + split.
      * destruct (Step3.executeCalls _ _ _) as [[parts | e |] st2]; discriminate.
      * intros (chunks' & w' & [= <- <-] & Hnil & _). rewrite Hnil in Hc. discriminate.
    + apply no_calls in Hc. unfold ret. split.
      * intros [= <- <-]. exists chunks, w1. auto.
      * intros (chunks' & w' & [= <- <-] & _ & -> & ->). reflexivity.
  - split; [discriminate|]. intros (? & ? & ? & _). discriminate.
  - split; [discriminate|]. intros (? & ? & ? & _). discriminate.
Qed.

(** Step 3: the body goes round again exactly when the reply carries a
    function call and every tool call comes back; the next input is what
    the tool calls produced. *)
Lemma step3_continues (messages next : list Sdk.PartUnion) (st st' : St W) :
  Step3.loopBody messages st = (Normal (inl next), st') <->
  exists chunks w',
    sendMessageStream (world st) messages = (Normal chunks, w')
    /\ Spec.callsInParts chunks <> []
    /\ Step3.executeCalls (Spec.callsInParts chunks) [] (sent st messages w')
       = (Normal next, st').
Proof.
  unfold Step3.loopBody, bind. rewrite send_runs.
  destruct (sendMessageStream (world st) messages) as [[chunks | e |] w1] eqn:Hs; simpl.
  - destruct (step3_consumeStream chunks) as [-> _].
    destruct (0 <? length (Spec.callsInParts chunks))%nat eqn:Hc.
    + assert (Hne : Spec.callsInParts chunks <> []).
      { intros Hnil. rewrite Hnil in Hc. discriminate. }
      split.
      * destruct (Step3.executeCalls _ _ _) as [[parts | e |] st2] eqn:He; try discriminate.
        unfold ret. intros [= <- <-]. exists chunks, w1. auto.
      * intros (chunks' & w' & [= <- <-] & _ & ->). reflexivity.
    + apply no_calls in Hc. split; [discriminate|].
      intros (chunks' & w' & [= <- <-] & Hne & _). contradiction.
  - split; [discriminate|]. intros (? & ? & ? & _). discriminate.
  - split; [discriminate|]. intros (? & ? & ? & _). discriminate.
Qed.

Lemma step3_body_extends (messages : list Sdk.PartUnion) (st : St W) :
  log st `prefix_of` log (snd (Step3.loopBody messages st)).
Proof.
  unfold Step3.loopBody, bind. rewrite send_runs.
  destruct (sendMessageStream (world st) messages) as [[chunks | e |] w1]; simpl;
    try (apply prefix_app_r; reflexivity).
  destruct (0 <? _)%nat; simpl; [|apply prefix_app_r; reflexivity].
  pose proof (executeCalls_extends (Step3.functionCalls (Step3.consumeStream chunks)) []
                (sent st messages w1)) as Hx.
  destruct (Step3.executeCalls _ _ _) as [[parts | e |] st2]; simpl in *;
    (etrans; [|exact Hx]; apply prefix_app_r; reflexivity).
Qed.

Lemma step3_body_sends (messages : list Sdk.PartUnion) (st : St W) :
  (log st ++ [EvSend messages])%list `prefix_of` log (snd (Step3.loopBody messages st)).
Proof.
  unfold Step3.loopBody, bind. rewrite send_runs.
  destruct (sendMessageStream (world st) messages) as [[chunks | e |] w1]; simpl;
    try reflexivity.
  destruct (0 <? _)%nat; simpl; [|reflexivity].
  pose proof (executeCalls_extends (Step3.functionCalls (Step3.consumeStream chunks)) []
                (sent st messages w1)) as Hx.
  destruct (Step3.executeCalls _ _ _) as [[parts | e |] st2]; simpl in *; exact Hx.
Qed.

Lemma step4_breaks (messages : list Sdk.PartUnion) (st : St W) (a : string) (st' : St W) :
  Step4.loopBody messages st = (Normal (inr a), st') <->
  exists chunks w',
    sendMessageStream (world st) messages = (Normal chunks, w')
    /\ Spec.callsInChunks chunks = []
    /\ a = Spec.contentText chunks
    /\ st' = sent st messages w'.
Proof.
  unfold Step4.loopBody, bind. rewrite send_runs.
  destruct (sendMessageStream (world st) messages) as [[chunks | e |] w1] eqn:Hs; simpl.
  - destruct (step4_consumeStream chunks) as [-> ->].
    destruct (0 <? length (Spec.callsInChunks chunks))%nat eqn:Hc.
    + split.
      * rewrite mapNow_runs. unfold scheduleAndWait. simpl.
        destruct (scheduleBatch _ _) as [[calls|] w2]; discriminate.
      * intros (chunks' & w' & [= <- <-] & Hnil & _). rewrite Hnil in Hc. discriminate.
    + apply no_calls in Hc. unfold ret. split.
      * intros [= <- <-]. exists chunks, w1. auto.
      * intros (chunks' & w' & [= <- <-] & _ & -> & ->). reflexivity.
  - split; [discriminate|]. intros (? & ? & ? & _). discriminate.
  - split; [discriminate|]. intros (? & ? & ? & _). discriminate.
Qed.

Lemma step4_continues (messages next : list Sdk.PartUnion) (st st' : St W) :
  Step4.loopBody messages st = (Normal (inl next), st') <->
  exists chunks w1 completedCalls w2,
    sendMessageStream (world st) messages = (Normal chunks, w1)
    /\ Spec.callsInChunks chunks <> []
    /\ scheduleBatch (Step4.afterRequests (Spec.callsInChunks chunks) w1)
         (Step4.requestsFor (Spec.callsInChunks chunks) w1) = (Some completedCalls, w2)
    /\ next = Step4.aggregate completedCalls
    /\ st' = mkSt w2 (log st ++ [EvSend messages; EvSchedule (Step4.requestsFor (Spec.callsInChunks chunks) w1)]).
Proof.
  unfold Step4.loopBody, bind, Step4.requestsFor, Step4.afterRequests. rewrite send_runs.
  destruct (sendMessageStream (world st) messages) as [[chunks | e |] w1] eqn:Hs; simpl.
  - destruct (step4_consumeStream chunks) as [-> _].
    destruct (0 <? length (Spec.callsInChunks chunks))%nat eqn:Hc.
    + assert (Hne : Spec.callsInChunks chunks <> []).
      { intros Hnil. rewrite Hnil in Hc. discriminate. }
      rewrite mapNow_runs. unfold scheduleAndWait, ret. simpl.
      destruct (scheduleBatch _ _) as [[calls|] w2] eqn:Hsch; split; try discriminate.
      * intros [= <- <-]. exists chunks, w1, calls, w2.
        rewrite <- app_assoc. auto.
      * intros (chunks' & w1' & calls' & w2' & [= <- <-] & _ & Hs' & -> & ->).
        rewrite Hsch in Hs'. injection Hs' as <- <-. rewrite <- app_assoc. reflexivity.
      * intros (chunks' & w1' & calls' & w2' & [= <- <-] & _ & Hs' & _).
        rewrite Hsch in Hs'. discriminate.
    + apply no_calls in Hc. split; [discriminate|].
      intros (chunks' & w1' & calls' & w2' & [= <- <-] & Hne & _). contradiction.
  - split; [discriminate|]. intros (? & ? & ? & ? & ? & _). discriminate.
  - split; [discriminate|]. intros (? & ? & ? & ? & ? & _). discriminate.
Qed.

Lemma step4_body_sends (messages : list Sdk.PartUnion) (st : St W) :
  (log st ++ [EvSend messages])%list `prefix_of` log (snd (Step4.loopBody messages st)).
Proof.
  unfold Step4.loopBody, bind. rewrite send_runs.
  destruct (sendMessageStream (world st) messages) as [[chunks | e |] w1]; simpl;
    try reflexivity.
  destruct (0 <? _)%nat; simpl; [|reflexivity].
  rewrite mapNow_runs. unfold scheduleAndWait, ret. simpl.
  destruct (scheduleBatch _ _) as [[calls|] w2]; simpl; apply prefix_app_r; reflexivity.
Qed.

Lemma step4_body_extends (messages : list Sdk.PartUnion) (st : St W) :
  log st `prefix_of` log (snd (Step4.loopBody messages st)).
Proof.
  etrans; [|apply step4_body_sends]. apply prefix_app_r. reflexivity.
Qed.

End LoopBodies.

(** ** C1: when the chat/tool loop ends *)

(** What lines 91-105 add for one response, against the specification. *)
Lemma collectResponse_results (acc parts' : list Sdk.PartUnion) (r : Sdk.ToolCallResponseInfo) :
  Step3.collectResponse acc r = Normal parts' ->
  parts' = (acc ++ Spec.payloadParts (Sdk.responseParts r))%list.
Proof.
  unfold Step3.collectResponse, Step3.readOutput, Step3.pushParts.
  destruct (Sdk.responseParts r) as [l | [s | | p]]; simpl; try discriminate.
  - unfold JS.truthy. destruct (s =? ""); simpl; [|discriminate].
    intros [= <-]. rewrite app_nil_r. reflexivity.
  - intros [= <-]. rewrite app_nil_r. reflexivity.
  - destruct (Sdk.functionResponse p) as [fr|]; [|discriminate].
    destruct (Sdk.fr_response fr); [|discriminate]. intros [= <-]. reflexivity.
Qed.

Lemma results_collectResponse (acc : list Sdk.PartUnion) (r : Sdk.ToolCallResponseInfo) :
  Spec.functionResponseOrEmpty (Sdk.responseParts r) = true ->
  Step3.collectResponse acc r = Normal (acc ++ Spec.payloadParts (Sdk.responseParts r))%list.
Proof.
  unfold Step3.collectResponse, Step3.readOutput, Step3.pushParts, Spec.functionResponseOrEmpty.
  destruct (Sdk.responseParts r) as [l | [s | | p]]; simpl; try discriminate.
  - unfold JS.truthy. intros ->. simpl. rewrite app_nil_r. reflexivity.
  - intros _. rewrite app_nil_r. reflexivity.
  - destruct (Sdk.functionResponse p) as [fr|]; [|discriminate].
    destruct (Sdk.fr_response fr); [|discriminate]. reflexivity.
Qed.

(** What lines 472-480 collect, against the specification. *)
Lemma aggregate_toolResults (completedCalls : list Sdk.CompletedToolCall) :
  Step4.aggregate completedCalls = Spec.toolResults completedCalls.
Proof.
  unfold Step4.aggregate.
  assert (Hfrom : forall acc,
             fold_left Step4.collect completedCalls acc
             = (acc ++ Spec.toolResults completedCalls)%list).
  { induction completedCalls as [|call calls IH]; intros acc; simpl.
    - rewrite app_nil_r. reflexivity.
    - rewrite IH. rewrite (app_assoc acc). f_equal. unfold Step4.collect.
      destruct (Sdk.c_response call) as [r|]; [|rewrite app_nil_r; reflexivity].
      destruct (Sdk.responseParts r) as [l | [s | | p]]; simpl;
        rewrite ?app_nil_r; try reflexivity.
      unfold JS.truthy. destruct (s =? ""); simpl; rewrite ?app_nil_r; reflexivity. }
  apply (Hfrom []).
Qed.

Section ToolRun.
Context {W : Type} `{SdkOps W}.

(** Whenever the [for] loop of lines 75-106 comes to its end, the tool
    executor was called for every function call, and what the loop
    collected is the results of the responses. *)
Lemma executeCalls_toolRun (fcs : list Sdk.FunctionCall) :
  forall acc (st st' : St W) next,
    Step3.executeCalls fcs acc st = (Normal next, st') ->
    exists run w2,
      Spec.toolRun fcs (world st) = Some (run, w2)
      /\ next = (acc ++ Spec.responseResults (map snd run))%list
      /\ st' = mkSt w2 (log st ++ map EvExecute (map fst run)).
Proof.
  induction fcs as [|fc rest IH]; intros acc st st' next.
  - simpl. unfold ret. intros [= <- <-]. exists [], (world st). simpl.
    rewrite !app_nil_r. destruct st; auto.
  - cbn [Step3.executeCalls Spec.toolRun]. unfold bind, now, execute, liftC.
    cbn [fst snd world log].
    destruct (executeToolCall (world st) _) as [[r | e |] w1]; try discriminate.
    destruct (Step3.collectResponse acc r) as [parts' | e |] eqn:Hc; try discriminate.
    intros Hrest. apply IH in Hrest as (run & w2 & Hrun & -> & ->). cbn [world log] in *.
    rewrite Hrun. eexists _, w2. split; [reflexivity|].
    apply collectResponse_results in Hc as ->. cbn [map Spec.responseResults flat_map fst snd].
    rewrite <- !app_assoc. split; reflexivity.
Qed.

(** When every call comes back with a function-response object or with
    nothing, the loop comes to its end. *)
Lemma toolRun_executeCalls (fcs : list Sdk.FunctionCall) :
  forall acc (st : St W) run w2,
    Spec.toolRun fcs (world st) = Some (run, w2) ->
    Forall (fun rr => Spec.functionResponseOrEmpty (Sdk.responseParts (snd rr)) = true) run ->
    Step3.executeCalls fcs acc st
    = (Normal (acc ++ Spec.responseResults (map snd run))%list,
       mkSt w2 (log st ++ map EvExecute (map fst run))).
Proof.
  induction fcs as [|fc rest IH]; intros acc st run w2.
  - simpl. intros [= <- <-] _. unfold ret. simpl. rewrite !app_nil_r. destruct st; reflexivity.
  - cbn [Step3.executeCalls Spec.toolRun]. unfold bind, now, execute, liftC.
    cbn [fst snd world log].
    destruct (executeToolCall (world st) _) as [[r | e |] w1]; try discriminate.
    destruct (Spec.toolRun rest w1) as [[run' w2']|] eqn:Hrun; [|discriminate].
    intros [= <- <-] Hall. apply Forall_cons in Hall as [Hr Hall]. cbn [snd] in Hr.
    rewrite (results_collectResponse acc r Hr).
    rewrite (IH _ (mkSt w1 (log st ++ [EvExecute _])) run' w2' Hrun Hall).
    cbn [map Spec.responseResults flat_map fst snd log]. rewrite <- !app_assoc. reflexivity.
Qed.

End ToolRun.


Section TurnLoop.
Context {W : Type} `{SdkOps W}.


End TurnLoop.


(** A run of [runDemo]: one round with a tool call, then the answer. *)
Example runDemo_two_rounds :
  let w := Scripted.mkWorld
             [[Scripted.callChunk (Scripted.call None "grep")]; [Scripted.textChunk "done"]]
             (Scripted.output "a.ts") Sdk.completed 7 in
  let request := Sdk.mkRequest "grep-7" (Some "grep") (Some []) (Some false) in
  let result := Step4.runDemo 3 "find files" (Scripted.start w) in
  fst result = Normal "done"
  /\ log (snd result)
     = [EvSend [Sdk.PUPart (Sdk.textPart "find files")];
        EvSchedule [request];
        EvSend (Sdk.asArray (Scripted.output "a.ts"))].
Proof. split; reflexivity. Qed.

(** With too little fuel the same run is still pending. *)
Example runDemo_out_of_fuel :
  let w := Scripted.mkWorld
             [[Scripted.callChunk (Scripted.call None "grep")]; [Scripted.textChunk "done"]]
             (Scripted.output "a.ts") Sdk.completed 7 in
  fst (Step4.runDemo 1 "find files" (Scripted.start w)) = Pending.
Proof. reflexivity. Qed.

(** A run of [runChatWithTool] with one tool call. *)
Example runChatWithTool_two_rounds :
  let w := Scripted.mkWorld
             [[Scripted.callChunk (Scripted.call (Some "c1") "ls")]; [Scripted.textChunk " a.txt "]]
             (Scripted.output "a.txt") Sdk.completed 7 in
  let result := Step3.runChatWithTool 3 "list" (Scripted.start w) in
  fst result = Normal "a.txt"
  /\ log (snd result)
     = [EvSend [Sdk.PUPart (Sdk.textPart "list")];
        EvExecute (Sdk.mkRequest "c1" (Some "ls") (Some []) (Some false));
        EvSend (Sdk.asArray (Scripted.output "a.txt"))].
Proof. split; reflexivity. Qed.

(** ** C2: the answer of a round without tool calls *)

(** C2, as stated, fails for step 3: the answer it prints is the content
    text with the white space at both ends removed, not the content text
    itself. *)
Lemma final_answer_counterexample :
  let reply := [Scripted.textChunk " Paris "] in
  let w := Scripted.mkWorld [reply] (Scripted.output "") Sdk.completed 0 in
  Spec.callsInParts reply = []
  /\ Spec.contentText reply = " Paris "
  /\ fst (Step3.runChatWithTool 1 "What's the capital of France?" (Scripted.start w))
     = Normal "Paris".
Proof. repeat split; reflexivity. Qed.

Section FinalAnswer.
Context {W : Type} `{SdkOps W}.

(** C2 (amended).  In a round whose streamed reply carries no tool-call
    request the loop ends: [runDemo] (step 4) answers exactly the
    accumulated content text, [runChatWithTool] (step 3) answers that text
    with leading and trailing white space trimmed; in both, the round's
    only call on the SDK is the one that sends the message, so neither
    the tool executor nor the scheduler is invoked. *)
Theorem final_answer_without_tool_calls
  (messages : list Sdk.PartUnion) (st : St W) (chunks : list Sdk.Chunk) (w' : W) (n : nat) :
  sendMessageStream (world st) messages = (Normal chunks, w') ->
  (Spec.callsInParts chunks = [] ->
   exists st',
     while_true Step3.loopBody (S n) messages st
     = (Normal (JS.trim (Spec.contentText chunks)), st')
     /\ world st' = w' /\ log st' = (log st ++ [EvSend messages])%list)
  /\ (Spec.callsInChunks chunks = [] ->
      exists st',
        while_true Step4.loopBody (S n) messages st
        = (Normal (Spec.contentText chunks), st')
        /\ world st' = w' /\ log st' = (log st ++ [EvSend messages])%list).
Proof.
  intros Hs. split; intros Hc; exists (sent st messages w'); (split; [|split; reflexivity]);
    rewrite while_true_step.
  - assert (Hb : Step3.loopBody messages st
                 = (Normal (inr (JS.trim (Spec.contentText chunks))), sent st messages w'))
      by (apply step3_breaks; exists chunks, w'; repeat split; assumption).
    rewrite Hb. reflexivity.
  - assert (Hb : Step4.loopBody messages st
                 = (Normal (inr (Spec.contentText chunks)), sent st messages w'))
      by (apply step4_breaks; exists chunks, w'; repeat split; assumption).
    rewrite Hb. reflexivity.
Qed.

End FinalAnswer.

(** The amended C2 on a scripted reply without tool calls. *)
Lemma final_answer_without_tool_calls_witness :
  let reply := [Scripted.textChunk "Paris"] in
  let w := Scripted.mkWorld [reply] (Scripted.output "") Sdk.completed 0 in
  exists st',
    while_true Step4.loopBody 1 [Sdk.PUString "capital?"] (Scripted.start w)
    = (Normal "Paris", st')
    /\ world st' = Scripted.mkWorld [] (Scripted.output "") Sdk.completed 0
    /\ log st' = [EvSend [Sdk.PUString "capital?"]].
Proof.
  intros reply w.
  refine (proj2 (final_answer_without_tool_calls [Sdk.PUString "capital?"]
                   (Scripted.start w) reply
                   (Scripted.mkWorld [] (Scripted.output "") Sdk.completed 0) 0 _) _);
    reflexivity.
Defined.

(** ** C5: the payloads of cancelled and failed calls *)

Lemma collect_appends (call : Sdk.CompletedToolCall) (acc : list Sdk.PartUnion) :
  Step4.collect acc call = (acc ++ Step4.collect [] call)%list.
Proof.
  unfold Step4.collect. destruct (Sdk.c_response call) as [r|]; simpl.
  - destruct (Sdk.truthyParts (Sdk.responseParts r)); simpl;
      [reflexivity | rewrite app_nil_r; reflexivity].
  - rewrite app_nil_r. reflexivity.
Qed.

Lemma aggregate_from (calls : list Sdk.CompletedToolCall) :
  forall acc, fold_left Step4.collect calls acc = (acc ++ Step4.aggregate calls)%list.
Proof.
  unfold Step4.aggregate.
  induction calls as [|call calls IH]; intros acc; simpl.
  - rewrite app_nil_r. reflexivity.
  - rewrite (IH (Step4.collect acc call)), (IH (Step4.collect [] call)).
    rewrite (collect_appends call acc), app_assoc. reflexivity.
Qed.

(** The parts sent back are the payloads of the calls, one after the other
    in the order of the batch. *)
Lemma aggregate_split (before after : list Sdk.CompletedToolCall) (call : Sdk.CompletedToolCall) :
  Step4.aggregate (before ++ call :: after)
  = (Step4.aggregate before ++ Step4.collect [] call ++ Step4.aggregate after)%list.
Proof.
  unfold Step4.aggregate at 1. rewrite fold_left_app. cbn [fold_left].
  rewrite aggregate_from. fold (Step4.aggregate before).
  rewrite collect_appends, <- app_assoc. reflexivity.
Qed.

(** The calls of a batch on the gate: every staged request gets one call,
    the call ends in a terminal state, and it is executed exactly when it
    went from [validating] to [executing] or its prompt was answered with a
    decision to proceed, whatever becomes of the other calls. *)
Section GateBatch.
Context {A : Type} (registry : string -> Gate.Tool A).

Lemma runTool_ends (r : Gate.Request A) (before : list Gate.State) (d : option Gate.Decision) :
  Gate.request (Gate.runTool registry r before d) = r
  /\ Gate.decision (Gate.runTool registry r before d) = d
  /\ (exists s, last (Gate.path (Gate.runTool registry r before d)) = Some s
                /\ Gate.terminal s = true)
  /\ In Gate.executing (Gate.path (Gate.runTool registry r before d)).
Proof.
  unfold Gate.runTool.
  destruct (Gate.run (registry (Gate.toolName r)) (Gate.arguments r)); cbn [Gate.request
    Gate.decision Gate.path]; (split; [reflexivity | split; [reflexivity | split]]).
  - exists Gate.completed. rewrite last_app. split; reflexivity.
  - apply in_or_app. right. left. reflexivity.
  - exists Gate.errored. rewrite last_app. split; reflexivity.
  - apply in_or_app. right. left. reflexivity.
Qed.

Lemma runTool_callOf (r : Gate.Request A) (s : Gate.State) (before : list Gate.State)
  (d : option Gate.Decision) :
  s = Gate.executing \/ d = Some Gate.proceed_once \/ d = Some Gate.proceed_always ->
  Gate.callOf (r, s) (Gate.runTool registry r before d).
Proof.
  intros Hrun. destruct (runTool_ends r before d) as (Hr & Hd & Hend & Hex).
  unfold Gate.callOf. cbn [fst snd]. rewrite Hd. repeat split; auto.
Qed.

Lemma stopped_callOf (r : Gate.Request A) (s : Gate.State) (d : option Gate.Decision)
  (path : list Gate.State) (end_ : Gate.State) (payload : Gate.Payload) :
  s <> Gate.executing -> d <> Some Gate.proceed_once -> d <> Some Gate.proceed_always ->
  ~ In Gate.executing path -> end_ <> Gate.executing -> Gate.terminal end_ = true ->
  Gate.callOf (r, s) (Gate.mkCall r (path ++ [end_]) d payload).
Proof.
  intros Hs Hd1 Hd2 Hpath Hend Hterm. unfold Gate.callOf. cbn [fst snd Gate.request Gate.path
    Gate.decision]. split; [reflexivity|]. split.
  - exists end_. rewrite last_app. split; [reflexivity | exact Hterm].
  - split.
    + intros Hin. apply in_app_or in Hin as [Hin | [Hin | []]]; [contradiction | congruence].
    + intros [? | [? | ?]]; contradiction.
Qed.

Lemma resolve_each (staged : list (Gate.Request A * Gate.State)) :
  forall autoApprove decisions,
    Forall2 Gate.callOf staged (fst (fst (Gate.resolve registry autoApprove staged decisions))).
Proof.
  induction staged as [|[r s] rest IH]; intros autoApprove decisions; simpl; [constructor|].
  assert (Hstop : forall d path end_ payload auto' ds,
             s <> Gate.executing -> d <> Some Gate.proceed_once ->
             d <> Some Gate.proceed_always ->
             ~ In Gate.executing path -> end_ <> Gate.executing -> Gate.terminal end_ = true ->
             Forall2 Gate.callOf ((r, s) :: rest)
               (Gate.mkCall r (path ++ [end_]) d payload
                  :: fst (fst (Gate.resolve registry auto' rest ds)))).
  { intros. constructor; [apply stopped_callOf; assumption | apply IH]. }
  assert (Hrun : forall before d auto' ds,
             s = Gate.executing \/ d = Some Gate.proceed_once \/ d = Some Gate.proceed_always ->
             Forall2 Gate.callOf ((r, s) :: rest)
               (Gate.runTool registry r before d
                  :: fst (fst (Gate.resolve registry auto' rest ds)))).
  { intros. constructor; [apply runTool_callOf; assumption | apply IH]. }
  destruct s.
  - specialize (Hstop None [Gate.validating] Gate.errored
                  (Gate.ErrorPayload
                     (match Gate.validate (registry (Gate.toolName r)) (Gate.arguments r) with
                      | Some e => e
                      | None => ""
                      end)) autoApprove decisions).
    destruct (Gate.resolve registry autoApprove rest decisions) as [[cs auto'] ds'].
    apply Hstop; try discriminate; try reflexivity. intros [? | []]; discriminate.
  - destruct decisions as [|[| |] ds].
    + specialize (Hstop None [Gate.validating; Gate.awaiting_approval] Gate.cancelled
                    Gate.CancellationPayload autoApprove []).
      destruct (Gate.resolve registry autoApprove rest []) as [[cs auto'] ds'].
      apply Hstop; try discriminate; try reflexivity. intros [? | [? | []]]; discriminate.
    + specialize (Hrun [Gate.validating; Gate.awaiting_approval] (Some Gate.proceed_once)
                    autoApprove ds).
      destruct (Gate.resolve registry autoApprove rest ds) as [[cs auto'] ds'].
      apply Hrun. auto.
    + specialize (Hrun [Gate.validating; Gate.awaiting_approval] (Some Gate.proceed_always)
                    ({[Gate.toolName r]} ∪ autoApprove) ds).
      destruct (Gate.resolve registry ({[Gate.toolName r]} ∪ autoApprove) rest ds)
        as [[cs auto'] ds'].
      apply Hrun. auto.
    + specialize (Hstop (Some Gate.cancel) [Gate.validating; Gate.awaiting_approval]
                    Gate.cancelled Gate.CancellationPayload autoApprove ds).
      destruct (Gate.resolve registry autoApprove rest ds) as [[cs auto'] ds'].
      apply Hstop; try discriminate; try reflexivity. intros [? | [? | []]]; discriminate.
  - specialize (Hrun [Gate.validating] None autoApprove decisions).
    destruct (Gate.resolve registry autoApprove rest decisions) as [[cs auto'] ds'].
    apply Hrun. auto.
  - specialize (Hstop None [Gate.validating] Gate.errored
                  (Gate.ErrorPayload
                     (match Gate.validate (registry (Gate.toolName r)) (Gate.arguments r) with
                      | Some e => e
                      | None => ""
                      end)) autoApprove decisions).
    destruct (Gate.resolve registry autoApprove rest decisions) as [[cs auto'] ds'].
    apply Hstop; try discriminate; try reflexivity. intros [? | []]; discriminate.
  - specialize (Hstop None [Gate.validating] Gate.errored
                  (Gate.ErrorPayload
                     (match Gate.validate (registry (Gate.toolName r)) (Gate.arguments r) with
                      | Some e => e
                      | None => ""
                      end)) autoApprove decisions).
    destruct (Gate.resolve registry autoApprove rest decisions) as [[cs auto'] ds'].
    apply Hstop; try discriminate; try reflexivity. intros [? | []]; discriminate.
  - specialize (Hstop None [Gate.validating] Gate.errored
                  (Gate.ErrorPayload
                     (match Gate.validate (registry (Gate.toolName r)) (Gate.arguments r) with
                      | Some e => e
                      | None => ""
                      end)) autoApprove decisions).
    destruct (Gate.resolve registry autoApprove rest decisions) as [[cs auto'] ds'].
    apply Hstop; try discriminate; try reflexivity. intros [? | []]; discriminate.
Qed.

End GateBatch.

Section FailedCalls.
Context {W : Type} `{SdkOps W}.


End FailedCalls.


(** ** C9: the next round's input in step 3 *)

Lemma pushParts_from (l acc : list Sdk.PartUnion) :
  fold_left Step3.pushPart l acc
  = (acc ++ flat_map (fun part =>
                        match part with
                        | Sdk.PUString s => [Sdk.PUPart (Sdk.textPart s)]
                        | Sdk.PUNullish => []
                        | Sdk.PUPart _ => [part]
                        end) l)%list.
Proof.
  revert acc. induction l as [|part l IH]; intros acc; simpl.
  - rewrite app_nil_r. reflexivity.
  - rewrite IH. destruct part; simpl; rewrite <- ?app_assoc; reflexivity.
Qed.

(** Lines 95-104 add to the accumulated parts what the specification
    describes. *)
Lemma pushParts_objectParts (acc : list Sdk.PartUnion) (rp : Sdk.PartListUnion) :
  Step3.pushParts acc rp = (acc ++ Spec.objectParts rp)%list.
Proof. unfold Step3.pushParts, Spec.objectParts. apply pushParts_from. Qed.

Lemma objectParts_objects (rp : Sdk.PartListUnion) : Spec.objects (Spec.objectParts rp).
Proof.
  unfold Spec.objects, Spec.objectParts. induction (Sdk.asArray rp) as [|part l IH]; simpl.
  - constructor.
  - destruct part; simpl; auto.
Qed.

Lemma collectResponse_objects (acc parts : list Sdk.PartUnion) (r : Sdk.ToolCallResponseInfo) :
  Spec.objects acc -> Step3.collectResponse acc r = Normal parts -> Spec.objects parts.
Proof.
  unfold Step3.collectResponse. intros Hacc.
  destruct (Sdk.truthyParts (Sdk.responseParts r)).
  - destruct (Step3.readOutput (Sdk.responseParts r)); try discriminate.
    intros [= <-]. rewrite pushParts_objectParts.
    apply Forall_app. split; [exact Hacc | apply objectParts_objects].
  - intros [= <-]. exact Hacc.
Qed.

Section NextInput.
Context {W : Type} `{SdkOps W}.

Lemma executeCalls_objects (fcs : list Sdk.FunctionCall) :
  forall acc (st : St W) parts st',
    Spec.objects acc -> Step3.executeCalls fcs acc st = (Normal parts, st') -> Spec.objects parts.
Proof.
  induction fcs as [|fc rest IH]; intros acc st parts st' Hacc; simpl.
  - unfold ret. intros [= <- _]. exact Hacc.
  - unfold bind, now, execute, liftC. simpl.
    destruct (executeToolCall (world st) _) as [[r | e |] w1]; simpl; try discriminate.
    destruct (Step3.collectResponse acc r) as [parts' | e |] eqn:Hc; try discriminate.
    apply IH. exact (collectResponse_objects acc parts' r Hacc Hc).
Qed.


End NextInput.


(** An array or a string as [responseParts] never reaches lines 95-104:
    line 92 reads [.functionResponse.response] of it and raises. *)
Example step3_array_response_throws :
  let part := Sdk.PUPart (Sdk.mkPart None None None
                (Some (Sdk.mkFunctionResponse None None (Some [("error", Sdk.JStr "no such file")])))) in
  Step3.collectResponse [] (Sdk.mkResponse "c1" (Sdk.PLArray [part]) None (Some "no such file"))
  = Throw "Cannot read properties of undefined (reading 'response')"
  /\ Step3.collectResponse [] (Sdk.mkResponse "c1" (Sdk.PLSingle part) None None)
     = Normal [part].
Proof. split; reflexivity. Qed.

(** ** C7: how often [onConfirm] is invoked *)

Lemma step4_answersPrompts :
  Spec.answersPrompts Step4Handler.onToolCallsUpdate Step4.outcomeOf.
Proof.
  intros toolCalls. unfold Spec.answered.
  induction toolCalls as [|tc rest IH]; intros stdin; [reflexivity|].
  cbn [Step4Handler.onToolCallsUpdate List.filter].
  replace (Spec.isPrompt tc)
    with (match Sdk.status tc, Sdk.confirmationDetails tc with
          | Sdk.awaiting_approval, Some _ => true
          | _, _ => false
          end) by reflexivity.
  destruct (Sdk.status tc); try apply IH.
  destruct (Sdk.confirmationDetails tc); try apply IH.
  destruct stdin as [|response stdin']; [reflexivity|].
  rewrite IH. reflexivity.
Qed.

Lemma step5_answersPrompts :
  Spec.answersPrompts Step5.onToolCallsUpdate Step5.outcomeOf.
Proof.
  intros toolCalls. unfold Spec.answered.
  induction toolCalls as [|tc rest IH]; intros stdin; [reflexivity|].
  cbn [Step5.onToolCallsUpdate List.filter].
  replace (Spec.isPrompt tc)
    with (match Sdk.status tc, Sdk.confirmationDetails tc with
          | Sdk.awaiting_approval, Some _ => true
          | _, _ => false
          end) by reflexivity.
  destruct (Sdk.status tc); try apply IH.
  destruct (Sdk.confirmationDetails tc); try apply IH.
  destruct stdin as [|answer stdin']; [reflexivity|].
  rewrite IH. reflexivity.
Qed.

(** The question an invocation asks first is about the first call its
    update shows awaiting approval. *)
Lemma firstPrompt_awaiting (toolCalls : list Sdk.ToolCall) :
  Approvals.awaiting toolCalls
  = Approvals.stillToAsk (Approvals.firstPrompt toolCalls).
Proof.
  unfold Approvals.awaiting.
  induction toolCalls as [|tc rest IH]; [reflexivity|].
  cbn [Approvals.firstPrompt List.filter].
  destruct (Sdk.status tc); try exact IH.
  destruct (Sdk.confirmationDetails tc); [reflexivity | exact IH].
Qed.

(** While a question is pending, updates change nothing; without one, the
    question is that of the first update that asks. *)
Lemma notify_pending (q : Approvals.Question) (updates : list (list Sdk.ToolCall)) :
  fold_left Approvals.notify updates (Some q) = Some q.
Proof.
  induction updates as [|u updates IH]; [reflexivity | exact IH].
Qed.

Lemma notify_first (updates : list (list Sdk.ToolCall)) (q : Approvals.Question) :
  fold_left Approvals.notify updates None = Some q ->
  exists u, In u updates /\ Approvals.firstPrompt u = Some q.
Proof.
  induction updates as [|u updates IH]; [discriminate|].
  cbn [fold_left Approvals.notify Approvals.ask].
  destruct (Approvals.firstPrompt u) as [q'|] eqn:Hu.
  - rewrite notify_pending. intros [= <-]. exists u. split; [left; reflexivity | exact Hu].
  - intros Hq. destruct (IH Hq) as (u' & Hin & Hu'). exists u'. split; [right|]; assumption.
Qed.

Lemma deliverable_question (confirmed : list string) (toolCalls : list Sdk.ToolCall) :
  Approvals.deliverable confirmed toolCalls ->
  List.NoDup (Approvals.stillToAsk (Approvals.firstPrompt toolCalls))
  /\ forall id, In id (Approvals.stillToAsk (Approvals.firstPrompt toolCalls)) ->
                ~ In id confirmed.
Proof.
  unfold Approvals.deliverable. rewrite firstPrompt_awaiting. auto.
Qed.

(** Over an orderly sequence of events no call is confirmed a second
    time. *)
Lemma run_confirms_once (outcomeOf : string -> Sdk.ToolConfirmationOutcome)
  (events : list Approvals.Event) :
  forall pending confirmed,
    Approvals.orderly pending confirmed events ->
    List.NoDup (Approvals.stillToAsk pending) ->
    (forall id, In id (Approvals.stillToAsk pending) -> ~ In id confirmed) ->
    List.NoDup confirmed ->
    List.NoDup (map confirmedCall (Approvals.run outcomeOf pending events) ++ confirmed).
Proof.
  induction events as [|ev events IH]; intros pending confirmed Hord Hnd Hnew Hconf;
    [exact Hconf|].
  destruct ev as [toolCalls | answer during]; cbn [Approvals.run Approvals.step fst snd app].
  - destruct Hord as [Hdel Hord]. apply IH; try assumption.
    + unfold Approvals.notify, Approvals.ask. destruct pending; [exact Hnd|].
      apply (deliverable_question confirmed toolCalls Hdel).
    + unfold Approvals.notify, Approvals.ask. destruct pending; [exact Hnew|].
      apply (deliverable_question confirmed toolCalls Hdel).
  - destruct pending as [q|]; cbn [fst snd app map confirmedCall].
    + cbn [Approvals.orderly] in Hord. destruct Hord as [Hdel Hord].
      set (id0 := Sdk.callId (Sdk.request (Approvals.asked q))) in *.
      cbn [Approvals.stillToAsk] in Hnd, Hnew. fold id0 in Hnd, Hnew.
      apply List.NoDup_cons_iff in Hnd as [Hfresh Hnd].
      assert (Hconf' : List.NoDup (id0 :: confirmed)).
      { apply List.NoDup_cons_iff. split; [apply Hnew; left; reflexivity | exact Hconf]. }
      set (next := Approvals.ask (fold_left Approvals.notify during None)
                     (Approvals.firstPrompt (Approvals.remaining q))) in *.
      assert (Hnext : List.NoDup (Approvals.stillToAsk next)
                      /\ forall id, In id (Approvals.stillToAsk next) ->
                                    ~ In id (id0 :: confirmed)).
      { subst next. unfold Approvals.ask.
        destruct (fold_left Approvals.notify during None) as [q'|] eqn:Hq'.
        - apply notify_first in Hq' as (u & Hin & Hu).
          rewrite List.Forall_forall in Hdel. specialize (Hdel u Hin).
          apply deliverable_question in Hdel. rewrite Hu in Hdel. exact Hdel.
        - rewrite <- firstPrompt_awaiting. split; [exact Hnd|].
          intros id Hin [<- | Hc]; [contradiction|].
          apply (Hnew id); [right; exact Hin | exact Hc]. }
      destruct Hnext as [Hnd' Hnew'].
      specialize (IH next (id0 :: confirmed) Hord Hnd' Hnew' Hconf').
      apply (Permutation.Permutation_NoDup (l := map confirmedCall
                                                   (Approvals.run outcomeOf next events)
                                                 ++ id0 :: confirmed));
        [|exact IH].
      symmetry. apply Permutation.Permutation_middle.
    + cbn [Approvals.orderly] in Hord. apply IH; assumption.
Qed.

Lemma invocations_nodup (id : string) (cs : list Confirmation) :
  List.NoDup (map confirmedCall cs) -> invocations id cs <= 1.
Proof.
  unfold invocations. induction cs as [|c cs IH]; simpl; [lia|].
  intros Hnd. apply List.NoDup_cons_iff in Hnd as [Hfresh Hnd]. specialize (IH Hnd).
  destruct (confirmedCall c =? id) eqn:Heq; [|exact IH].
  apply String.eqb_eq in Heq. simpl.
  assert (Hnone : List.filter (fun c' => confirmedCall c' =? id) cs = []).
  { clear IH Hnd. induction cs as [|c' cs IH]; simpl; [reflexivity|].
    destruct (confirmedCall c' =? id) eqn:Heq'.
    - apply String.eqb_eq in Heq'. exfalso. apply Hfresh. simpl. left. congruence.
    - apply IH. intros Hin. apply Hfresh. simpl. right. exact Hin. }
  rewrite Hnone. simpl. lia.
Qed.

(** One update answered line by line is one invocation of the handler
    reading its answers from stdin. *)
Lemma run_one_update (outcomeOf : string -> Sdk.ToolConfirmationOutcome)
  (toolCalls : list Sdk.ToolCall) (stdin : list string) :
  Approvals.run outcomeOf None
    (Approvals.Update toolCalls :: map (fun answer => Approvals.Line answer []) stdin)
  = Spec.answered outcomeOf toolCalls stdin.
Proof.
  cbn [Approvals.run Approvals.step fst snd app Approvals.notify Approvals.ask].
  unfold Spec.answered. revert stdin.
  induction toolCalls as [|tc rest IH]; intros stdin.
  - cbn [Approvals.firstPrompt List.filter combine map].
    induction stdin as [|answer stdin IHs]; [reflexivity | exact IHs].
  - cbn [Approvals.firstPrompt List.filter].
    replace (Spec.isPrompt tc)
      with (match Sdk.status tc, Sdk.confirmationDetails tc with
            | Sdk.awaiting_approval, Some _ => true
            | _, _ => false
            end) by reflexivity.
    destruct (Sdk.status tc); try apply IH.
    destruct (Sdk.confirmationDetails tc); try apply IH.
    destruct stdin as [|answer stdin]; [reflexivity|].
    cbn [map Approvals.run Approvals.step fst snd app fold_left Approvals.ask
           Approvals.asked Approvals.remaining combine].
    rewrite IH. reflexivity.
Qed.



(** ** Reading the stream of a message in step 5 *)

Lemma count_app (o : Step5Chat.Out) (a b : list Step5Chat.Out) :
  Step5Chat.count o (a ++ b) = Step5Chat.count o a + Step5Chat.count o b.
Proof. unfold Step5Chat.count. rewrite List.filter_app, length_app. reflexivity. Qed.

Lemma count_cons (o x : Step5Chat.Out) (l : list Step5Chat.Out) :
  Step5Chat.count o (x :: l) = Step5Chat.count o [x] + Step5Chat.count o l.
Proof. apply (count_app o [x] l). Qed.

Ltac count_known :=
  repeat match goal with
         | |- context [Step5Chat.count ?o ?l] =>
             tryif is_var l then fail
             else (let v := eval vm_compute in (Step5Chat.count o l) in
                   change (Step5Chat.count o l) with v)
         end.

Ltac count_out out :=
  rewrite ?count_app;
  repeat match goal with
         | |- context [Step5Chat.count ?o (?x :: out)] => rewrite (count_cons o x out)
         end.


Lemma consume_until_calls (before : list Step5Chat.GeminiEvent) :
  forall fcs after f t,
    Forall (fun event => Step5Chat.isFunctionCalls event = false) before ->
    Step5Chat.consume (before ++ Step5Chat.FunctionCalls fcs :: after) f t
    = Step5Chat.consume (before ++ [Step5Chat.FunctionCalls fcs]) f t
    /\ snd (Step5Chat.consume (before ++ Step5Chat.FunctionCalls fcs :: after) f t)
       = Some (imap (fun i fc => Step5.toolCallRequest fc (t i)) fcs)
    /\ Step5Chat.count Step5Chat.Prompt
         (fst (Step5Chat.consume (before ++ Step5Chat.FunctionCalls fcs :: after) f t)) = 0.
Proof.
  induction before as [|event before IH]; intros fcs after f t Hno.
  - simpl. repeat split; auto.
    destruct (negb (Step5Chat.hasThoughts f) && negb (Step5Chat.hasContent f)); reflexivity.
  - apply Forall_cons in Hno as [Hev Hno].
    destruct event as [text | text | fcs' | ]; try discriminate; cbn [app Step5Chat.consume].
    + destruct (JS.truthyOpt text); [|apply IH; exact Hno].
      destruct (IH fcs after (Step5Chat.mkFlags true (Step5Chat.hasContent f)) t Hno)
        as (Heq & Hb & Hp).
      rewrite Heq in *.
      destruct (Step5Chat.consume (before ++ [Step5Chat.FunctionCalls fcs]) _ t) as [out batch].
      cbn beta iota in *. cbn [fst snd] in *. repeat split; auto.
      count_out out. rewrite Hp.
      destruct (negb (Step5Chat.hasThoughts f)); reflexivity.
    + destruct (JS.truthyOpt text); [|apply IH; exact Hno].
      destruct (IH fcs after (Step5Chat.mkFlags (Step5Chat.hasThoughts f) true) t Hno)
        as (Heq & Hb & Hp).
      rewrite Heq in *.
      destruct (Step5Chat.consume (before ++ [Step5Chat.FunctionCalls fcs]) _ t) as [out batch].
      cbn beta iota in *. cbn [fst snd] in *. repeat split; auto.
      count_out out. rewrite Hp.
      destruct (negb (Step5Chat.hasContent f)), (negb (Step5Chat.hasThoughts f)); reflexivity.
    + apply IH. exact Hno.
Qed.

Lemma consume_without_calls (events : list Step5Chat.GeminiEvent) :
  forall f t,
    Forall (fun event => Step5Chat.isFunctionCalls event = false) events ->
    snd (Step5Chat.consume events f t) = None
    /\ Step5Chat.count Step5Chat.Prompt (fst (Step5Chat.consume events f t)) = 1.
Proof.
  induction events as [|event events IH]; intros f t Hno.
  - simpl. auto.
  - apply Forall_cons in Hno as [Hev Hno].
    destruct event as [text | text | fcs' | ]; try discriminate; cbn [Step5Chat.consume].
    + destruct (JS.truthyOpt text); [|apply IH; exact Hno].
      destruct (IH (Step5Chat.mkFlags true (Step5Chat.hasContent f)) t Hno) as (Hb & Hp).
      destruct (Step5Chat.consume events _ t) as [out batch].
      cbn beta iota in *. cbn [fst snd] in *. split; [exact Hb|].
      count_out out. rewrite Hp.
      destruct (negb (Step5Chat.hasThoughts f)); reflexivity.
    + destruct (JS.truthyOpt text); [|apply IH; exact Hno].
      destruct (IH (Step5Chat.mkFlags (Step5Chat.hasThoughts f) true) t Hno) as (Hb & Hp).
      destruct (Step5Chat.consume events _ t) as [out batch].
      cbn beta iota in *. cbn [fst snd] in *. split; [exact Hb|].
      count_out out. rewrite Hp.
      destruct (negb (Step5Chat.hasContent f)), (negb (Step5Chat.hasThoughts f)); reflexivity.
    + apply IH. exact Hno.
Qed.

Lemma consume_headers (events : list Step5Chat.GeminiEvent) :
  forall f t,
    let out := fst (Step5Chat.consume events f t) in
    Step5Chat.count Step5Chat.ThinkingHeader out
    <= (if Step5Chat.hasThoughts f then 0 else 1)
    /\ Step5Chat.count Step5Chat.AssistantHeader out
       <= (if Step5Chat.hasContent f then 0 else 1)
    /\ Step5Chat.count Step5Chat.SpinnerStop out
       <= (if Step5Chat.hasThoughts f then 0 else 1)
          + (if Step5Chat.hasThoughts f || Step5Chat.hasContent f then 0 else 1)
    /\ Step5Chat.count Step5Chat.SpinnerStart out = 0
    /\ (existsb Step5Chat.handled events = true ->
        Step5Chat.hasThoughts f = false -> Step5Chat.hasContent f = false ->
        1 <= Step5Chat.count Step5Chat.SpinnerStop out).
Proof.
  induction events as [|event events IH]; intros f t; cbv zeta.
  - unfold Step5Chat.count. destruct f as [[|] [|]]; simpl; repeat split; try lia; discriminate.
  - destruct event as [text | text | fcs | ]; cbn [Step5Chat.consume existsb Step5Chat.handled].
    + destruct (JS.truthyOpt text); [|apply IH].
      destruct (IH (Step5Chat.mkFlags true (Step5Chat.hasContent f)) t)
        as (Ht & Ha & Hs & H0 & _).
      destruct (Step5Chat.consume events _ t) as [out batch]. cbn beta iota in *. cbn [fst snd] in *.
      count_out out.
      destruct f as [[|] [|]]; cbn [Step5Chat.hasThoughts Step5Chat.hasContent negb orb app] in *;
        count_out out;
        count_known;
        repeat split; try lia; try discriminate; intros; lia.
    + destruct (JS.truthyOpt text); [|apply IH].
      destruct (IH (Step5Chat.mkFlags (Step5Chat.hasThoughts f) true) t)
        as (Ht & Ha & Hs & H0 & _).
      destruct (Step5Chat.consume events _ t) as [out batch]. cbn beta iota in *. cbn [fst snd] in *.
      count_out out.
      destruct f as [[|] [|]]; cbn [Step5Chat.hasThoughts Step5Chat.hasContent negb orb app] in *;
        count_out out;
        count_known;
        repeat split; try lia; try discriminate; intros; lia.
    + cbn [fst].
      destruct f as [[|] [|]]; cbn [Step5Chat.hasThoughts Step5Chat.hasContent negb andb orb app];
        count_known; repeat split; try lia; try discriminate; intros; lia.
    + apply IH.
Qed.

(** ** C8: exit codes *)

Lemma key_missing (key : option string) :
  JS.truthyOpt key = false <-> key = None \/ key = Some "".
Proof.
  destruct key as [s|]; simpl.
  - unfold JS.truthy. rewrite negb_false_iff, String.eqb_eq.
    split; [intros ->; auto | intros [H | [= ->]]; [discriminate | reflexivity]].
  - split; auto.
Qed.

(** How a settled or pending [main] of steps 1 to 4 ends the process. *)
Lemma plain_codes {W : Type} (key : option string) (body : M W unit) (idle : bool) (st : St W) :
  JS.truthyOpt key = true ->
  let code := Process.script key (Process.plain body) idle st in
  (code = Some 1%Z <-> exists e, fst (body st) = Throw e)
  /\ (code = Some 0%Z <-> idle = true /\ forall e, fst (body st) <> Throw e)
  /\ (code = None <-> idle = false /\ forall e, fst (body st) <> Throw e).
Proof.
  intros Hkey. unfold Process.script, Process.main, Process.plain. rewrite Hkey. cbn [negb].
  destruct (fst (body st)) as [[] | e |]; destruct idle; cbn [Process.exitCode];
    repeat split; try discriminate; try reflexivity;
    try (intros [e' He']; discriminate);
    try (intros [Hi _]; discriminate);
    try (intros [_ He']; exfalso; apply (He' e); reflexivity);
    try (intros _; exists e; reflexivity).
Qed.

Section Conversations.
Context {W : Type} `{SdkOps W}.

Lemma conversations_app (run : string -> M W string) (before : list string) :
  forall after st st_p,
    Process.conversations run before st = (Normal tt, st_p) ->
    Process.conversations run (before ++ after) st = Process.conversations run after st_p.
Proof.
  induction before as [|p before IH]; intros after st st_p.
  - simpl. unfold ret. intros [= <-]. reflexivity.
  - cbn [app Process.conversations]. unfold bind.
    destruct (run p st) as [[a | e |] st1]; try discriminate. apply IH.
Qed.

(** The conversations raise exactly what the first failing one raises. *)
Lemma conversations_fail (run : string -> M W string) (prompts : list string) :
  forall st e,
    fst (Process.conversations run prompts st) = Throw e
    <-> Process.failsAt run prompts st e.
Proof.
  unfold Process.failsAt.
  induction prompts as [|p later IH]; intros st e.
  - simpl. split; [discriminate|].
    intros (before & q & after & st_p & Heq & _). destruct before; discriminate.
  - cbn [Process.conversations]. unfold bind.
    destruct (run p st) as [[a | e' |] st1] eqn:Hrun; cbn [fst].
    + rewrite IH. split.
      * intros (before & q & after & st_p & -> & Hb & Hq).
        exists (p :: before), q, after, st_p. split; [reflexivity|].
        split; [|exact Hq]. cbn [Process.conversations]. unfold bind. rewrite Hrun. exact Hb.
      * intros (before & q & after & st_p & Heq & Hb & Hq).
        destruct before as [|p' before]; cbn [app] in Heq; injection Heq as <- ->.
        -- simpl in Hb. unfold ret in Hb. injection Hb as <-. rewrite Hrun in Hq. discriminate.
        -- cbn [Process.conversations] in Hb. unfold bind in Hb. rewrite Hrun in Hb.
           exists before, q, after, st_p. auto.
    + split.
      * intros [= <-]. exists [], p, later, st. rewrite Hrun. auto.
      * intros (before & q & after & st_p & Heq & Hb & Hq).
        destruct before as [|p' before]; cbn [app] in Heq; injection Heq as <- ->.
        -- simpl in Hb. unfold ret in Hb. injection Hb as <-. rewrite Hrun in Hq.
           cbn [fst] in Hq. injection Hq as ->. reflexivity.
        -- cbn [Process.conversations] in Hb. unfold bind in Hb. rewrite Hrun in Hb.
           discriminate.
    + split; [discriminate|].
      intros (before & q & after & st_p & Heq & Hb & Hq).
      destruct before as [|p' before]; cbn [app] in Heq; injection Heq as <- ->.
      * simpl in Hb. unfold ret in Hb. injection Hb as <-. rewrite Hrun in Hq. discriminate.
      * cbn [Process.conversations] in Hb. unfold bind in Hb. rewrite Hrun in Hb.
        discriminate.
Qed.

(** The clean-up catches what [unlink] raises. *)
Lemma cleanUp_catches (unlink : M W unit) (st : St W) (e : string) :
  fst (Process.cleanUp unlink st) <> Throw e.
Proof.
  unfold Process.cleanUp, tryCatch, ret.
  destruct (unlink st) as [[[] | e' |] st1]; discriminate.
Qed.

(** What makes [main] of a script with conversations raise: the set-up,
    or the first conversation that fails. *)
Lemma script_fails (setup unlink : M W unit) (run : string -> M W string)
  (prompts : list string) (st : St W) (e : string) :
  fst ((_ <- setup ;; _ <- Process.conversations run prompts ;; Process.cleanUp unlink)%async st)
  = Throw e
  <-> fst (setup st) = Throw e
      \/ exists st0, setup st = (Normal tt, st0) /\ Process.failsAt run prompts st0 e.
Proof.
  unfold bind at 1. destruct (setup st) as [[[] | e' |] st0]; cbn [fst].
  - transitivity (Process.failsAt run prompts st0 e).
    + rewrite <- conversations_fail. unfold bind.
      destruct (Process.conversations run prompts st0) as [[[] | e' |] st1]; cbn [fst].
      * split; [|discriminate].
        intros Hclean. exfalso. exact (cleanUp_catches unlink st1 e Hclean).
      * reflexivity.
      * split; discriminate.
    + split; [intros Hf; right; exists st0; auto|].
      intros [? | (st0' & [= <-] & Hf)]; [discriminate | exact Hf].
  - split; [intros [= <-]; left; reflexivity|].
    intros [Hs | (st0' & Hs & _)]; [exact Hs | discriminate].
  - split; [discriminate|]. intros [? | (st0' & ? & _)]; discriminate.
Qed.

End Conversations.

(** The command loop of step 5. *)
Lemma unhandled_stream (events : list Step5Chat.GeminiEvent) :
  existsb Step5Chat.handled events = false ->
  forall f t, Step5Chat.consume events f t = ([Step5Chat.Prompt], None).
Proof.
  induction events as [|event events IH]; intros Hh f t; [reflexivity|].
  cbn [existsb] in Hh. apply orb_false_iff in Hh as [Hev Hh].
  destruct event as [text | text | fcs | ]; cbn [Step5Chat.handled] in Hev;
    try discriminate; cbn [Step5Chat.consume]; rewrite ?Hev; apply IH; exact Hh.
Qed.

Lemma leavesSpinner_handled (events : list Step5Chat.GeminiEvent) (t : nat -> Z) :
  Repl.leavesSpinner events t = negb (existsb Step5Chat.handled events).
Proof.
  unfold Repl.leavesSpinner, Step5Chat.sendStreamingMessage.
  destruct (existsb Step5Chat.handled events) eqn:Hh; cbn [negb].
  - destruct (consume_headers events (Step5Chat.mkFlags false false) t) as (_ & _ & _ & _ & H1).
    specialize (H1 Hh eq_refl eq_refl).
    destruct (Step5Chat.consume events _ t) as [out batch]. cbn [fst] in *.
    change (Step5Chat.SpinnerStart :: out) with ([Step5Chat.SpinnerStart] ++ out)%list.
    rewrite count_app. apply Nat.eqb_neq. simpl. lia.
  - rewrite (unhandled_stream events Hh). reflexivity.
Qed.

Lemma onLine_cases (t : nat -> Z) (line : Repl.Typed) :
  Repl.onLine t line
  = if Repl.isExit line then (Some 0%Z, false)
    else (None, Repl.isMessage line && Repl.leavesSpinner (Repl.stream line) t).
Proof.
  unfold Repl.onLine, Repl.isExit, Repl.isMessage.
  destruct (JS.truthy (JS.trim (Repl.typed line))); cbn [negb andb]; [|reflexivity].
  destruct (JS.toLowerCase (JS.trim (Repl.typed line)) =? "exit"); cbn [negb andb];
    [reflexivity|].
  destruct (JS.toLowerCase (JS.trim (Repl.typed line)) =? "help"); cbn [negb andb];
    [reflexivity|].
  destruct (JS.toLowerCase (JS.trim (Repl.typed line)) =? "clear"); reflexivity.
Qed.

Lemma repl_exit (t : nat -> Z) (lines : list Repl.Typed) :
  existsb Repl.isExit lines = true ->
  forall running, fst (Repl.repl t lines running) = Some 0%Z.
Proof.
  induction lines as [|line later IH]; [discriminate|].
  cbn [existsb Repl.repl]. rewrite onLine_cases. intros Hex running.
  destruct (Repl.isExit line); [reflexivity|]. apply IH. exact Hex.
Qed.

Lemma repl_no_exit (t : nat -> Z) (lines : list Repl.Typed) :
  existsb Repl.isExit lines = false ->
  forall running,
    Repl.repl t lines running
    = (None,
       running || existsb (fun line => Repl.isMessage line
                                       && negb (existsb Step5Chat.handled (Repl.stream line)))
                    lines).
Proof.
  induction lines as [|line later IH]; intros Hex running.
  - simpl. rewrite orb_false_r. reflexivity.
  - cbn [existsb Repl.repl] in *. rewrite onLine_cases.
    apply orb_false_iff in Hex as [-> Hex]. rewrite (IH Hex), leavesSpinner_handled.
    rewrite orb_assoc. reflexivity.
Qed.


Section ExitCodes.
Context {W : Type} `{SdkOps W}.


End ExitCodes.


(** ** The approval gate *)

Section GateFacts.
Context {A : Type} (registry : string -> Gate.Tool A).

Lemma runTool_fields (r : Gate.Request A) (before : list Gate.State) (d : option Gate.Decision) :
  Gate.request (Gate.runTool registry r before d) = r
  /\ Gate.decision (Gate.runTool registry r before d) = d
  /\ (In Gate.awaiting_approval (Gate.path (Gate.runTool registry r before d))
      <-> In Gate.awaiting_approval before).
Proof.
  unfold Gate.runTool.
  destruct (Gate.run (registry (Gate.toolName r)) (Gate.arguments r)); simpl;
    (split; [reflexivity | split; [reflexivity|]]);
    rewrite in_app_iff; simpl; intuition discriminate.
Qed.

(** The auto-approve set only grows while prompts are resolved. *)
Lemma resolve_grows (staged : list (Gate.Request A * Gate.State)) :
  forall autoApprove decisions,
    autoApprove ⊆ snd (fst (Gate.resolve registry autoApprove staged decisions)).
Proof.
  induction staged as [|[r s] rest IH]; intros autoApprove decisions; simpl; [set_solver|].
  destruct s;
    try (specialize (IH autoApprove decisions);
         destruct (Gate.resolve registry autoApprove rest decisions) as [[cs auto'] ds'];
         exact IH).
  destruct decisions as [|[| |] ds].
  - specialize (IH autoApprove []).
    destruct (Gate.resolve registry autoApprove rest []) as [[cs auto'] ds']. exact IH.
  - specialize (IH autoApprove ds).
    destruct (Gate.resolve registry autoApprove rest ds) as [[cs auto'] ds']. exact IH.
  - specialize (IH ({[Gate.toolName r]} ∪ autoApprove) ds).
    destruct (Gate.resolve registry _ rest ds) as [[cs auto'] ds']. simpl in *. set_solver.
  - specialize (IH autoApprove ds).
    destruct (Gate.resolve registry autoApprove rest ds) as [[cs auto'] ds']. exact IH.
Qed.

(** A call decided with [proceed_always] has its tool name in the set
    afterwards. *)
Lemma resolve_always (staged : list (Gate.Request A * Gate.State)) :
  forall autoApprove decisions call,
    In call (fst (fst (Gate.resolve registry autoApprove staged decisions))) ->
    Gate.decision call = Some Gate.proceed_always ->
    Gate.toolName (Gate.request call)
    ∈ snd (fst (Gate.resolve registry autoApprove staged decisions)).
Proof.
  induction staged as [|[r s] rest IH]; intros autoApprove decisions call; simpl; [tauto|].
  destruct s;
    try (specialize (IH autoApprove decisions call);
         destruct (Gate.resolve registry autoApprove rest decisions) as [[cs auto'] ds'];
         simpl in *; intros [<- | Hin] Hd;
         [ first [ destruct (runTool_fields r [Gate.validating] None) as (_ & Hdec & _);
                   rewrite Hdec in Hd; discriminate
                 | discriminate ]
         | exact (IH Hin Hd) ]).
  destruct decisions as [|[| |] ds].
  - specialize (IH autoApprove [] call).
    destruct (Gate.resolve registry autoApprove rest []) as [[cs auto'] ds'].
    simpl in *. intros [<- | Hin] Hd; [discriminate | exact (IH Hin Hd)].
  - specialize (IH autoApprove ds call).
    destruct (Gate.resolve registry autoApprove rest ds) as [[cs auto'] ds'].
    simpl in *. intros [<- | Hin] Hd; [|exact (IH Hin Hd)].
    destruct (runTool_fields r [Gate.validating; Gate.awaiting_approval]
                (Some Gate.proceed_once)) as (_ & Hdec & _).
    rewrite Hdec in Hd. discriminate.
  - pose proof (resolve_grows rest ({[Gate.toolName r]} ∪ autoApprove) ds) as Hgrow.
    specialize (IH ({[Gate.toolName r]} ∪ autoApprove) ds call).
    destruct (Gate.resolve registry _ rest ds) as [[cs auto'] ds'].
    simpl in *. intros [<- | Hin] Hd; [|exact (IH Hin Hd)].
    destruct (runTool_fields r [Gate.validating; Gate.awaiting_approval]
                (Some Gate.proceed_always)) as (-> & _ & _).
    set_solver.
  - specialize (IH autoApprove ds call).
    destruct (Gate.resolve registry autoApprove rest ds) as [[cs auto'] ds'].
    simpl in *. intros [<- | Hin] Hd; [discriminate | exact (IH Hin Hd)].
Qed.

(** Every call comes from a staged request, and it went through
    [awaiting_approval] exactly when it was staged there. *)
Lemma resolve_paths (staged : list (Gate.Request A * Gate.State)) :
  forall autoApprove decisions call,
    In call (fst (fst (Gate.resolve registry autoApprove staged decisions))) ->
    exists s,
      In (Gate.request call, s) staged
      /\ (In Gate.awaiting_approval (Gate.path call) <-> s = Gate.awaiting_approval).
Proof.
  induction staged as [|[r s] rest IH]; intros autoApprove decisions call; simpl; [tauto|].
  assert (Hrest : forall auto' ds,
             In call (fst (fst (Gate.resolve registry auto' rest ds))) ->
             exists s0, ((r, s) = (Gate.request call, s0) \/ In (Gate.request call, s0) rest)
                        /\ (In Gate.awaiting_approval (Gate.path call)
                            <-> s0 = Gate.awaiting_approval)).
  { intros auto' ds Hin. destruct (IH auto' ds call Hin) as (s0 & Hs0 & Hiff).
    exists s0. auto. }
  destruct s;
    try (pose proof (Hrest autoApprove decisions) as Hr;
         destruct (Gate.resolve registry autoApprove rest decisions) as [[cs auto'] ds'];
         simpl in *; intros [<- | Hin]; [|exact (Hr Hin)]).
  - exists Gate.validating. simpl. split; [auto|]. intuition discriminate.
  - destruct decisions as [|[| |] ds];
      [ pose proof (Hrest autoApprove []) as Hr;
        destruct (Gate.resolve registry autoApprove rest []) as [[cs auto'] ds']
      | pose proof (Hrest autoApprove ds) as Hr;
        destruct (Gate.resolve registry autoApprove rest ds) as [[cs auto'] ds']
      | pose proof (Hrest ({[Gate.toolName r]} ∪ autoApprove) ds) as Hr;
        destruct (Gate.resolve registry _ rest ds) as [[cs auto'] ds']
      | pose proof (Hrest autoApprove ds) as Hr;
        destruct (Gate.resolve registry autoApprove rest ds) as [[cs auto'] ds'] ];
      simpl in *; (intros [<- | Hin]; [|exact (Hr Hin)]);
      exists Gate.awaiting_approval;
      try (destruct (runTool_fields r [Gate.validating; Gate.awaiting_approval]
                       (Some Gate.proceed_once)) as (-> & _ & ->));
      try (destruct (runTool_fields r [Gate.validating; Gate.awaiting_approval]
                       (Some Gate.proceed_always)) as (-> & _ & ->));
      simpl; (split; [auto | tauto]).
  - exists Gate.executing.
    destruct (runTool_fields r [Gate.validating] None) as (-> & _ & ->).
    simpl. split; [auto|]. intuition discriminate.
  - exists Gate.completed. simpl. split; [auto|]. intuition discriminate.
  - exists Gate.cancelled. simpl. split; [auto|]. intuition discriminate.
  - exists Gate.errored. simpl. split; [auto|]. intuition discriminate.
Qed.

(** In one batch, whether a call is prompted depends only on the set as it
    was when the batch was scheduled. *)
Lemma schedule_paths (autoApprove : gset string) (requests : list (Gate.Request A))
  (decisions : list Gate.Decision) (call : Gate.Call A) :
  In call (fst (fst (Gate.schedule registry autoApprove requests decisions))) ->
  (In Gate.awaiting_approval (Gate.path call)
   <-> Gate.afterValidating registry autoApprove (Gate.request call) = Gate.awaiting_approval).
Proof.
  unfold Gate.schedule. intros Hin.
  apply resolve_paths in Hin as (s & Hs & Hiff).
  apply in_map_iff in Hs as (r & [= <- <-] & _). exact Hiff.
Qed.

Lemma approved_not_prompted (autoApprove : gset string) (r : Gate.Request A) :
  Gate.toolName r ∈ autoApprove ->
  Gate.afterValidating registry autoApprove r <> Gate.awaiting_approval.
Proof.
  intros Hin. unfold Gate.afterValidating.
  destruct (Gate.validate _ _); [discriminate|].
  rewrite bool_decide_eq_true_2 by exact Hin. discriminate.
Qed.

Lemma lifetime_step (autoApprove : gset string) (requests : list (Gate.Request A))
  (decisions : list Gate.Decision) (later : list (list (Gate.Request A) * list Gate.Decision)) :
  Gate.lifetime registry autoApprove ((requests, decisions) :: later)
  = (fst (fst (Gate.schedule registry autoApprove requests decisions))
       :: fst (Gate.lifetime registry
                 (snd (fst (Gate.schedule registry autoApprove requests decisions))) later),
     snd (Gate.lifetime registry
            (snd (fst (Gate.schedule registry autoApprove requests decisions))) later)).
Proof.
  simpl. destruct (Gate.schedule registry autoApprove requests decisions) as [[calls auto'] ds'].
  simpl. destruct (Gate.lifetime registry auto' later). reflexivity.
Qed.

Lemma setBefore_next (batches : list (list (Gate.Request A) * list Gate.Decision)) :
  forall autoApprove k,
    Gate.setBefore registry autoApprove batches k
    ⊆ Gate.setBefore registry autoApprove batches (S k).
Proof.
  unfold Gate.setBefore.
  induction batches as [|[requests decisions] later IH]; intros autoApprove k.
  - rewrite !take_nil. reflexivity.
  - destruct k as [|k].
    + cbn [take]. rewrite lifetime_step. simpl.
      apply resolve_grows.
    + cbn [take]. rewrite !lifetime_step. cbn [snd]. apply IH.
Qed.

Lemma setBefore_grows (batches : list (list (Gate.Request A) * list Gate.Decision))
  (autoApprove : gset string) (k k' : nat) :
  k <= k' ->
  Gate.setBefore registry autoApprove batches k
  ⊆ Gate.setBefore registry autoApprove batches k'.
Proof.
  induction 1 as [|k' _ IH]; [reflexivity|].
  etrans; [exact IH | apply setBefore_next].
Qed.

(** Batch [i] of a lifetime is scheduled against the set before it and
    leaves the set before batch [i+1]. *)
Lemma lifetime_batch (batches : list (list (Gate.Request A) * list Gate.Decision)) :
  forall autoApprove i calls,
    fst (Gate.lifetime registry autoApprove batches) !! i = Some calls ->
    exists requests decisions,
      calls = fst (fst (Gate.schedule registry
                          (Gate.setBefore registry autoApprove batches i) requests decisions))
      /\ Gate.setBefore registry autoApprove batches (S i)
         = snd (fst (Gate.schedule registry
                       (Gate.setBefore registry autoApprove batches i) requests decisions)).
Proof.
  unfold Gate.setBefore.
  induction batches as [|[requests decisions] later IH]; intros autoApprove i calls.
  - simpl. intros Hl. discriminate.
  - rewrite lifetime_step. cbn [fst]. destruct i as [|i].
    + simpl lookup. intros [= <-]. exists requests, decisions.
      cbn [take]. rewrite lifetime_step. simpl. auto.
    + simpl lookup. intros Hl.
      destruct (IH _ i calls Hl) as (rq & ds & Hcalls & Hset).
      exists rq, ds. cbn [take]. rewrite !lifetime_step. cbn [snd]. auto.
Qed.

End GateFacts.

(** ** C4: proceed-always and later batches *)

Section ProceedAlways.
Context {A : Type} (registry : string -> Gate.Tool A).

(** C4.  On one scheduler instance, once a call of batch [i] has been
    decided with proceed-always, its tool name is in the auto-approve set
    whenever a later batch is scheduled, to the end of the instance's
    lifetime; a request for the same tool name in a later batch never
    enters [awaiting_approval]; and the calls of batch [i] itself are
    prompted or not according to the set as it was when that batch was
    scheduled, whatever is decided during the batch. *)
Theorem proceed_always_skips_later_prompts
  (autoApprove : gset string) (batches : list (list (Gate.Request A) * list Gate.Decision))
  (i : nat) (calls_i : list (Gate.Call A)) (call_i : Gate.Call A) :
  fst (Gate.lifetime registry autoApprove batches) !! i = Some calls_i ->
  In call_i calls_i ->
  Gate.decision call_i = Some Gate.proceed_always ->
  (forall k, i < k ->
     Gate.toolName (Gate.request call_i) ∈ Gate.setBefore registry autoApprove batches k)
  /\ (forall j calls_j call_j,
        i < j ->
        fst (Gate.lifetime registry autoApprove batches) !! j = Some calls_j ->
        In call_j calls_j ->
        Gate.toolName (Gate.request call_j) = Gate.toolName (Gate.request call_i) ->
        ~ In Gate.awaiting_approval (Gate.path call_j))
  /\ (forall call,
        In call calls_i ->
        (In Gate.awaiting_approval (Gate.path call)
         <-> Gate.afterValidating registry
               (Gate.setBefore registry autoApprove batches i) (Gate.request call)
             = Gate.awaiting_approval)).
Proof.
  intros Hi Hin Hd.
  destruct (lifetime_batch registry batches autoApprove i calls_i Hi)
    as (requests & decisions & Hcalls & Hset).
  assert (Hnext : Gate.toolName (Gate.request call_i)
                  ∈ Gate.setBefore registry autoApprove batches (S i)).
  { rewrite Hset. unfold Gate.schedule. apply resolve_always; [|exact Hd].
    rewrite Hcalls in Hin. exact Hin. }
  assert (Hlater : forall k, i < k ->
             Gate.toolName (Gate.request call_i)
             ∈ Gate.setBefore registry autoApprove batches k).
  { intros k Hk.
    apply (setBefore_grows registry batches autoApprove (S i) k); [lia | exact Hnext]. }
  split; [exact Hlater|]. split.
  - intros j calls_j call_j Hj Hlj Hinj Hname Hpath.
    destruct (lifetime_batch registry batches autoApprove j calls_j Hlj)
      as (requests_j & decisions_j & Hcalls_j & _).
    rewrite Hcalls_j in Hinj. apply schedule_paths in Hinj. apply Hinj in Hpath.
    revert Hpath. apply approved_not_prompted. rewrite Hname. apply Hlater. exact Hj.
  - intros call Hc. rewrite Hcalls in Hc. apply schedule_paths in Hc. exact Hc.
Qed.

End ProceedAlways.

(** C4 on two batches: after "always" on the first write, the write of
    the second batch runs without a prompt, while the second write of the
    first batch was still prompted. *)
Lemma proceed_always_skips_later_prompts_witness :
  let results := fst (Gate.lifetime Scripted.registry ∅ Scripted.twoBatches) in
  map (fun calls => map Gate.path calls) results
  = [[[Gate.validating; Gate.awaiting_approval; Gate.executing; Gate.completed];
      [Gate.validating; Gate.awaiting_approval; Gate.executing; Gate.completed]];
     [[Gate.validating; Gate.executing; Gate.completed]]]
  /\ forall call,
       In call (nth 1 results []) -> ~ In Gate.awaiting_approval (Gate.path call).
Proof.
  intros results. split; [vm_compute; reflexivity|].
  intros call Hin.
  pose (first := Gate.mkCall (Scripted.write "w1")
                   [Gate.validating; Gate.awaiting_approval; Gate.executing; Gate.completed]
                   (Some Gate.proceed_always) (Gate.Output "ok")).
  destruct (proceed_always_skips_later_prompts Scripted.registry ∅ Scripted.twoBatches
              0 (nth 0 results []) first) as (_ & Hlater & _).
  - vm_compute. reflexivity.
  - vm_compute. left. reflexivity.
  - reflexivity.
  - apply (Hlater 1 (nth 1 results []) call); [lia | vm_compute; reflexivity | exact Hin |].
    vm_compute in Hin. destruct Hin as [<- | []]. reflexivity.
Defined.

(** A scheduler starts with an empty set: the same write scheduled on a
    new instance, as [createScheduler] makes one for every batch of step 4,
    is prompted again. *)
Example fresh_scheduler_prompts_again :
  map Gate.path
    (fst (fst (Gate.schedule Scripted.registry ∅ [Scripted.write "w3"] [Gate.proceed_once])))
  = [[Gate.validating; Gate.awaiting_approval; Gate.executing; Gate.completed]].
Proof. vm_compute. reflexivity. Qed.

(** ** C10: [CalculatorTool] *)

Lemma removeDisallowed_length (s : string) :
  String.length (CalculatorTool.removeDisallowed s) <= String.length s.
Proof.
  induction s as [|c s IH]; simpl; [lia|].
  destruct (CalculatorTool.allowedChar c); simpl; lia.
Qed.

(** The filter leaves a string unchanged exactly when every character of
    it is allowed. *)
Lemma removeDisallowed_fixed (s : string) :
  CalculatorTool.removeDisallowed s = s
  <-> forall c, In c (list_ascii_of_string s) -> CalculatorTool.allowedChar c = true.
Proof.
  induction s as [|c s IH]; simpl.
  - split; [intros _ c [] | reflexivity].
  - destruct (CalculatorTool.allowedChar c) eqn:Hc.
    + split.
      * intros [= Hs] c' [<- | Hin]; [exact Hc | apply IH; assumption].
      * intros Hall. f_equal. apply IH. intros c' Hin. apply Hall. right. exact Hin.
    + split.
      * intros Heq. pose proof (removeDisallowed_length s) as Hlen.
        rewrite Heq in Hlen. simpl in Hlen. lia.
      * intros Hall. specialize (Hall c (or_introl eq_refl)). congruence.
Qed.

(** C10, as stated, fails: line 211 destructures [params] before the
    [try] block, so for [undefined] or [null] the call raises a TypeError
    (the promise rejects) instead of returning a result. *)
Lemma calculator_counterexample :
  fst (CalculatorTool.execute (fun _ => CalculatorTool.Value "4") CalculatorTool.ParamsUndefined)
  = Throw "Cannot destructure property 'expression' of 'params' as it is undefined."
  /\ fst (CalculatorTool.execute (fun _ => CalculatorTool.Value "4") CalculatorTool.ParamsNull)
     = Throw "Cannot destructure property 'expression' of 'params' as it is null.".
Proof. split; reflexivity. Qed.

(** C10 (amended).  For every [params] that is an object, with its
    [expression] absent or a primitive value, [CalculatorTool.execute]
    returns a [ToolResult] and does not raise; an
    expression containing a character outside digits, white space and
    [. + - * / ( )] is rejected before anything is evaluated and gives an
    error-describing result, while an expression of allowed characters
    only is handed to the evaluator; [shouldConfirmExecute] always returns
    [false], so in the gate a call of this tool never enters
    [awaiting_approval]. *)
Theorem calculator_execute (runFunction : string -> CalculatorTool.EvalResult) :
  (forall expression,
      exists result,
        fst (CalculatorTool.execute runFunction (CalculatorTool.ParamsObject expression))
        = Normal result)
  /\ (forall s c,
        In c (list_ascii_of_string s) ->
        CalculatorTool.allowedChar c = false ->
        CalculatorTool.execute runFunction
          (CalculatorTool.ParamsObject (CalculatorTool.EString s))
        = (Normal (CalculatorTool.mkToolResult
                     [Sdk.textPart ("Error calculating " ++ s
                                    ++ ": Invalid characters in expression")]
                     "Error: Invalid characters in expression"),
           []))
  /\ (forall s,
        (forall c, In c (list_ascii_of_string s) -> CalculatorTool.allowedChar c = true) ->
        snd (CalculatorTool.execute runFunction
               (CalculatorTool.ParamsObject (CalculatorTool.EString s)))
        = [CalculatorTool.functionSource s])
  /\ (forall c,
        CalculatorTool.allowedChar c = true <->
        JS.isDigit c = true \/ JS.isWhiteSpace c = true
        \/ In c ["+"; "-"; "*"; "/"; "("; ")"; "."]%char)
  /\ (forall params, CalculatorTool.shouldConfirmExecute params = None)
  /\ (forall registry autoApprove requests decisions call,
        registry CalculatorTool.Name = calculatorInRegistry runFunction ->
        In call (fst (fst (Gate.schedule registry autoApprove requests decisions))) ->
        Gate.toolName (Gate.request call) = CalculatorTool.Name ->
        ~ In Gate.awaiting_approval (Gate.path call)).
Proof.
  split; [|split; [|split; [|split; [|split]]]].
  - intros expression. unfold CalculatorTool.execute.
    destruct (CalculatorTool.evaluateExpression runFunction expression) as [[shown | message] evaluated];
      eexists; reflexivity.
  - intros s c Hin Hc.
    assert (Hne : (CalculatorTool.removeDisallowed s =? s) = false).
    { apply String.eqb_neq. intros Heq.
      pose proof (proj1 (removeDisallowed_fixed s) Heq c Hin). congruence. }
    unfold CalculatorTool.execute, CalculatorTool.evaluateExpression.
    rewrite Hne. reflexivity.
  - intros s Hall.
    assert (Heq : CalculatorTool.removeDisallowed s = s)
      by (apply removeDisallowed_fixed; exact Hall).
    unfold CalculatorTool.execute, CalculatorTool.evaluateExpression.
    rewrite Heq, String.eqb_refl. simpl.
    destruct (runFunction (CalculatorTool.functionSource s)); reflexivity.
  - intros c. unfold CalculatorTool.allowedChar.
    rewrite !orb_true_iff, existsb_exists. split.
    + intros [[Hd | Hw] | (x & Hx & Heq)]; auto.
      apply Ascii.eqb_eq in Heq. subst x. auto.
    + intros [Hd | [Hw | Hin]]; auto.
      right. exists c. split; [exact Hin | apply Ascii.eqb_refl].
  - reflexivity.
  - intros registry autoApprove requests decisions call Hreg Hin Hname Hpath.
    apply schedule_paths in Hin. apply Hin in Hpath. revert Hpath.
    unfold Gate.afterValidating. rewrite Hname, Hreg.
    destruct (Gate.validate _ _); [discriminate|].
    destruct (bool_decide _); discriminate.
Qed.

(** The amended C10 on [2 + 2] and on an expression with a letter. *)
Lemma calculator_execute_witness :
  let runFunction := fun _ : string => CalculatorTool.Value "4" in
  CalculatorTool.execute runFunction (CalculatorTool.ParamsObject (CalculatorTool.EString "2 + 2"))
  = (Normal (CalculatorTool.mkToolResult [Sdk.textPart "2 + 2 = 4"] "2 + 2 = 4"),
     [CalculatorTool.functionSource "2 + 2"])
  /\ CalculatorTool.execute runFunction
       (CalculatorTool.ParamsObject (CalculatorTool.EString "2 + x"))
     = (Normal (CalculatorTool.mkToolResult
                  [Sdk.textPart "Error calculating 2 + x: Invalid characters in expression"]
                  "Error: Invalid characters in expression"),
        []).
Proof.
  intros runFunction. split; [reflexivity|].
  destruct (calculator_execute runFunction) as (_ & Hrejected & _).
  apply (Hrejected "2 + x" "x"%char); [simpl; tauto | reflexivity].
Defined.

(* ===================================================================== *)
(** * Part III: more properties of the scripts *)
(* ===================================================================== *)

(** ** Step 3: the tool calls of a round *)

Section Step3Calls.
Context {W : Type} `{SdkOps W}.

(** The executions of the loop of lines 75-106, in the log. *)
Lemma executeCalls_done
  (fcs : list Sdk.FunctionCall) (acc : list Sdk.PartUnion) (st : St W) :
  exists done,
    log (snd (Step3.executeCalls fcs acc st)) = (log st ++ map EvExecute done)%list
    /\ length done <= length fcs
    /\ Forall2 (fun fc req => exists t, req = Step3.requestInfo fc t)
         (take (length done) fcs) done
    /\ (forall parts, fst (Step3.executeCalls fcs acc st) = Normal parts ->
        length done = length fcs).
Proof.
  revert acc st.
  induction fcs as [|fc rest IH]; intros acc st.
  - exists []. simpl. rewrite app_nil_r. repeat split; auto; discriminate.
  - cbn [Step3.executeCalls]. unfold bind, now, execute, liftC. cbn [fst snd world log].
    set (req := Step3.requestInfo fc (Date_now (world st))).
    destruct (executeToolCall (world st) req) as [[r | e |] w1] eqn:Hx; cbn [fst snd log].
    + destruct (Step3.collectResponse acc r) as [parts' | e |] eqn:Hc; cbn [fst snd log].
      * destruct (IH parts' (mkSt w1 (log st ++ [EvExecute req]))) as (done & Hlog & Hlen & Hreq & Hall).
        exists (req :: done). cbn [log] in Hlog. rewrite Hlog.
        split; [rewrite <- app_assoc; reflexivity|].
        split; [simpl; lia|].
        split; [simpl; constructor; [exists (Date_now (world st)); reflexivity | exact Hreq]|].
        intros parts Hn. simpl. f_equal. apply (Hall parts Hn).
      * exists [req]. repeat split; simpl; try lia; try discriminate.
        constructor; [exists (Date_now (world st)); reflexivity | constructor].
      * exists [req]. repeat split; simpl; try lia; try discriminate.
        constructor; [exists (Date_now (world st)); reflexivity | constructor].
    + exists [req]. repeat split; simpl; try lia; try discriminate.
      constructor; [exists (Date_now (world st)); reflexivity | constructor].
    + exists [req]. repeat split; simpl; try lia; try discriminate.
      constructor; [exists (Date_now (world st)); reflexivity | constructor].
Qed.

(** The loop over [before ++ rest] is the loop over [before], then the
    loop over [rest]. *)
Lemma executeCalls_app (before rest : list Sdk.FunctionCall) :
  forall acc (st st1 : St W) parts,
    Step3.executeCalls before acc st = (Normal parts, st1) ->
    Step3.executeCalls (before ++ rest) acc st = Step3.executeCalls rest parts st1.
Proof.
  induction before as [|fc before IH]; intros acc st st1 parts.
  - simpl. unfold ret. intros [= <- <-]. reflexivity.
  - cbn [app Step3.executeCalls]. unfold bind, now, execute, liftC. cbn [fst snd world log].
    destruct (executeToolCall (world st) _) as [[r | e |] w1]; try discriminate.
    destruct (Step3.collectResponse acc r) as [parts' | e |]; try discriminate.
    apply IH.
Qed.

Lemma executeCalls_one (fc : Sdk.FunctionCall) (after : list Sdk.FunctionCall)
  (parts : list Sdk.PartUnion) (st : St W) :
  log (snd (Step3.executeCalls [fc] parts st))
  = (log st ++ [EvExecute (Step3.requestInfo fc (Date_now (world st)))])%list
  /\ ((forall parts', fst (Step3.executeCalls [fc] parts st) <> Normal parts') ->
      Step3.executeCalls (fc :: after) parts st = Step3.executeCalls [fc] parts st).
Proof.
  cbn [Step3.executeCalls]. unfold bind, now, execute, liftC, ret. cbn [fst snd world log].
  destruct (executeToolCall (world st) _) as [[r | e |] w1]; cbn [fst snd log];
    try (split; reflexivity).
  destruct (Step3.collectResponse parts r) as [parts' | e |]; cbn [fst snd log];
    try (split; reflexivity).
  split; [reflexivity|]. intros Hfails. exfalso. apply (Hfails parts'). reflexivity.
Qed.

(** X1.  The [for] loop of [runChatWithTool] over the function calls of a
    reply calls [executeToolCall] for the calls one after the other, in the
    order of the reply, each with the request built from it, and makes no
    other call on the SDK; when it comes to its end every function call
    has been executed exactly once; and it stops at the first call that
    fails: when the calls [before] have gone through and the call after
    them does not (its execution raises or does not return, or line 92
    raises on its payload), the loop ends as that call ends, and the calls
    after it are not executed. *)
Theorem step3_executes_calls_in_order
  (fcs : list Sdk.FunctionCall) (acc : list Sdk.PartUnion) (st : St W) :
  exists done,
    log (snd (Step3.executeCalls fcs acc st)) = (log st ++ map EvExecute done)%list
    /\ length done <= length fcs
    /\ Forall2 (fun fc req => exists t, req = Step3.requestInfo fc t)
         (take (length done) fcs) done
    /\ (forall parts, fst (Step3.executeCalls fcs acc st) = Normal parts ->
        length done = length fcs)
    /\ (forall before fc after parts st1,
          fcs = (before ++ fc :: after)%list ->
          Step3.executeCalls before acc st = (Normal parts, st1) ->
          (forall parts', fst (Step3.executeCalls [fc] parts st1) <> Normal parts') ->
          Step3.executeCalls fcs acc st = Step3.executeCalls [fc] parts st1
          /\ length done = S (length before)).
Proof.
  destruct (executeCalls_done fcs acc st) as (done & Hlog & Hlen & Hreq & Hall).
  exists done. repeat split; try assumption.
  - subst fcs. rewrite (executeCalls_app before (fc :: after) acc st st1 parts) by assumption.
    apply executeCalls_one. assumption.
  - subst fcs.
    rewrite (executeCalls_app before (fc :: after) acc st st1 parts) in Hlog by assumption.
    destruct (executeCalls_one fc after parts st1) as [Hone Hstop].
    rewrite Hstop, Hone in Hlog by assumption.
    destruct (executeCalls_done before acc st) as (doneB & HlogB & _ & _ & HallB).
    match goal with Hb : Step3.executeCalls before acc st = _ |- _ =>
      rewrite Hb in HlogB, HallB; cbn [fst snd] in HlogB, HallB end.
    rewrite HlogB, <- app_assoc in Hlog. apply app_inv_head in Hlog.
    apply (f_equal (@length Event)) in Hlog.
    rewrite length_app, !length_map in Hlog. cbn [length] in Hlog.
    rewrite <- (HallB parts eq_refl). lia.
Qed.

Lemma collectResponse_shape (acc parts : list Sdk.PartUnion) (r : Sdk.ToolCallResponseInfo) :
  Step3.collectResponse acc r = Normal parts ->
  (Sdk.truthyParts (Sdk.responseParts r) = false /\ parts = acc)
  \/ exists p fr resp,
       Sdk.responseParts r = Sdk.PLSingle (Sdk.PUPart p)
       /\ Sdk.functionResponse p = Some fr
       /\ Sdk.fr_response fr = Some resp
       /\ parts = (acc ++ [Sdk.PUPart p])%list.
Proof.
  unfold Step3.collectResponse.
  destruct (Sdk.truthyParts (Sdk.responseParts r)) eqn:Ht.
  - destruct (Sdk.responseParts r) as [l | [s | | p]]; simpl; try discriminate.
    destruct (Sdk.functionResponse p) as [fr|] eqn:Hfr; try discriminate.
    destruct (Sdk.fr_response fr) as [resp|] eqn:Hresp; try discriminate.
    intros [= <-]. right. exists p, fr, resp. auto.
  - intros [= <-]. left. auto.
Qed.

(** X2.  Whenever the tool calls of a round of [runChatWithTool] all come
    back, what is added to the next input is at most one part per function
    call, and every added part is a single function-response object with a
    [response]: an array or a string as [responseParts] never reaches the
    next input (line 92 raises on it first). *)
Theorem step3_feeds_back_function_responses
  (fcs : list Sdk.FunctionCall) (acc parts : list Sdk.PartUnion) (st st' : St W) :
  Step3.executeCalls fcs acc st = (Normal parts, st') ->
  exists added,
    parts = (acc ++ added)%list
    /\ length added <= length fcs
    /\ Forall isFunctionResponse added.
Proof.
  revert acc st. induction fcs as [|fc rest IH]; intros acc st.
  - simpl. unfold ret. intros [= <- _]. exists []. rewrite app_nil_r. repeat split; auto.
  - cbn [Step3.executeCalls]. unfold bind, now, execute, liftC. cbn [fst snd world log].
    destruct (executeToolCall (world st) _) as [[r | e |] w1]; try discriminate.
    destruct (Step3.collectResponse acc r) as [parts' | e |] eqn:Hc; try discriminate.
    intros Hrest. destruct (IH _ _ Hrest) as (added & -> & Hlen & Hall).
    destruct (collectResponse_shape _ _ _ Hc) as [[_ ->] | (p & fr & resp & _ & Hfr & Hresp & ->)].
    + exists added. repeat split; [simpl; lia | exact Hall].
    + exists (Sdk.PUPart p :: added). rewrite <- app_assoc. repeat split; [simpl; lia|].
      constructor; [exists p, fr, resp; auto | exact Hall].
Qed.

(** X3.  When the first tool call of a round of [runChatWithTool] comes
    back with [responseParts] that is an array or a non-empty string, the
    loop does not go on: it raises the TypeError of line 92, the remaining
    function calls of the reply are not executed and no further message is
    sent to the backend. *)
Theorem step3_stops_on_array_payload
  (messages : list Sdk.PartUnion) (st : St W) (chunks : list Sdk.Chunk) (w1 w2 : W)
  (fc : Sdk.FunctionCall) (rest : list Sdk.FunctionCall) (r : Sdk.ToolCallResponseInfo)
  (n : nat) :
  sendMessageStream (world st) messages = (Normal chunks, w1) ->
  Spec.callsInParts chunks = fc :: rest ->
  executeToolCall w1 (Step3.requestInfo fc (Date_now w1)) = (Normal r, w2) ->
  (exists l, Sdk.responseParts r = Sdk.PLArray l)
  \/ (exists s, Sdk.responseParts r = Sdk.PLSingle (Sdk.PUString s) /\ s <> "") ->
  while_true Step3.loopBody (S n) messages st
  = (Throw "Cannot read properties of undefined (reading 'response')",
     mkSt w2 (log st ++ [EvSend messages;
                         EvExecute (Step3.requestInfo fc (Date_now w1))])).
Proof.
  intros Hs Hc Hx Hshape.
  rewrite while_true_step. unfold Step3.loopBody, bind. rewrite send_runs, Hs.
  cbn [fst snd]. destruct (step3_consumeStream chunks) as [-> _]. rewrite Hc.
  cbn [length Nat.ltb Nat.leb Step3.executeCalls]. unfold bind, now, execute, liftC, sent.
  cbn [world log]. rewrite Hx. cbn [fst snd].
  assert (Hcol : Step3.collectResponse [] r
                 = Throw "Cannot read properties of undefined (reading 'response')").
  { unfold Step3.collectResponse.
    destruct Hshape as [[l ->] | (s & -> & Hne)]; [reflexivity|].
    simpl. unfold JS.truthy. apply String.eqb_neq in Hne. rewrite Hne. reflexivity. }
  rewrite Hcol. rewrite <- app_assoc. reflexivity.
Qed.

End Step3Calls.

(** X1 on a scripted round with two tool calls whose tool answers with an
    array: the first call fails on line 92 and the second is not
    executed. *)
Lemma step3_executes_calls_in_order_witness :
  let w := Scripted.mkWorld [] (Sdk.PLArray [Sdk.PUString "a.txt"]) Sdk.completed 7 in
  let fcs := [Scripted.call (Some "c1") "ls"; Scripted.call None "read_file"] in
  exists done,
    log (snd (Step3.executeCalls fcs [] (Scripted.start w))) = map EvExecute done
    /\ length done = 1.
Proof.
  intros w fcs.
  destruct (step3_executes_calls_in_order fcs [] (Scripted.start w))
    as (done & Hlog & _ & _ & _ & Hstop).
  exists done. split; [exact Hlog|].
  apply (Hstop [] (Scripted.call (Some "c1") "ls") [Scripted.call None "read_file"]
           [] (Scripted.start w)); [reflexivity | reflexivity | discriminate].
Defined.

(** X2 on a scripted round with two tool calls. *)
Lemma step3_feeds_back_function_responses_witness :
  let w := Scripted.mkWorld [] (Scripted.output "a.txt") Sdk.completed 7 in
  let fcs := [Scripted.call (Some "c1") "ls"; Scripted.call None "read_file"] in
  exists added,
    fst (Step3.executeCalls fcs [] (Scripted.start w)) = Normal ([] ++ added)%list
    /\ length added <= 2.
Proof.
  intros w fcs.
  destruct (step3_feeds_back_function_responses fcs []
              (Sdk.asArray (Scripted.output "a.txt") ++ Sdk.asArray (Scripted.output "a.txt"))%list
              (Scripted.start w)
              (mkSt w [EvExecute (Step3.requestInfo (Scripted.call (Some "c1") "ls") 7);
                       EvExecute (Step3.requestInfo (Scripted.call None "read_file") 7)]))
    as (added & Hparts & Hlen & _); [reflexivity|].
  exists added. split; [rewrite <- Hparts; reflexivity | exact Hlen].
Defined.

(** X3 on a scripted round whose tool answers with an array. *)
Lemma step3_stops_on_array_payload_witness :
  let reply := [Scripted.callChunk (Scripted.call (Some "c1") "ls");
                Scripted.callChunk (Scripted.call (Some "c2") "ls")] in
  let w := Scripted.mkWorld [reply; [Scripted.textChunk "never read"]]
             (Sdk.PLArray [Sdk.PUString "a.txt"]) Sdk.completed 7 in
  fst (Step3.runChatWithTool 5 "list" (Scripted.start w))
  = Throw "Cannot read properties of undefined (reading 'response')"
  /\ log (snd (Step3.runChatWithTool 5 "list" (Scripted.start w)))
     = [EvSend [Sdk.PUPart (Sdk.textPart "list")];
        EvExecute (Step3.requestInfo (Scripted.call (Some "c1") "ls") 7)].
Proof.
  intros reply w. unfold Step3.runChatWithTool.
  rewrite (step3_stops_on_array_payload [Sdk.PUPart (Sdk.textPart "list")] (Scripted.start w)
             reply
             (Scripted.mkWorld [[Scripted.textChunk "never read"]]
                (Sdk.PLArray [Sdk.PUString "a.txt"]) Sdk.completed 7)
             (Scripted.mkWorld [[Scripted.textChunk "never read"]]
                (Sdk.PLArray [Sdk.PUString "a.txt"]) Sdk.completed 7)
             (Scripted.call (Some "c1") "ls") [Scripted.call (Some "c2") "ls"]
             (Sdk.mkResponse "c1" (Sdk.PLArray [Sdk.PUString "a.txt"]) None None) 4);
    [split; reflexivity | reflexivity | reflexivity | reflexivity |].
  left. exists [Sdk.PUString "a.txt"]. reflexivity.
Defined.


(** ** The calls of the two loops on the SDK *)

Lemma sends_app (l1 l2 : list Event) : sends (l1 ++ l2) = sends l1 + sends l2.
Proof. unfold sends. rewrite List.filter_app, length_app. reflexivity. Qed.

Lemma schedules_app (l1 l2 : list Event) : schedules (l1 ++ l2) = schedules l1 + schedules l2.
Proof. unfold schedules. rewrite List.filter_app, length_app. reflexivity. Qed.

Lemma executions_app (l1 l2 : list Event) :
  executions (l1 ++ l2) = executions l1 + executions l2.
Proof. unfold executions. rewrite List.filter_app, length_app. reflexivity. Qed.

Ltac count_events :=
  rewrite ?executions_app, ?sends_app, ?schedules_app;
  unfold executions, sends, schedules; simpl; try lia.

Section LoopCalls.
Context {W : Type} `{SdkOps W}.

Lemma executeCalls_schedules (fcs : list Sdk.FunctionCall) :
  forall acc (st : St W),
    schedules (log (snd (Step3.executeCalls fcs acc st))) = schedules (log st).
Proof.
  induction fcs as [|fc rest IH]; intros acc st; [reflexivity|].
  cbn [Step3.executeCalls]. unfold bind, now, execute, liftC. cbn [fst snd world log].
  destruct (executeToolCall (world st) _) as [[r | e |] w1]; cbn [fst snd log];
    try (count_events; fail).
  destruct (Step3.collectResponse acc r) as [parts' | e |]; cbn [fst snd log];
    try (count_events; fail).
  rewrite IH. cbn [log]. count_events.
Qed.

Lemma step3_body_schedules (messages : list Sdk.PartUnion) (st : St W) :
  schedules (log (snd (Step3.loopBody messages st))) = schedules (log st).
Proof.
  unfold Step3.loopBody, bind. rewrite send_runs.
  destruct (sendMessageStream (world st) messages) as [[chunks | e |] w1]; cbn [fst snd];
    try (unfold sent; cbn [log]; count_events; fail).
  destruct (0 <? _)%nat.
  - pose proof (executeCalls_schedules (Step3.functionCalls (Step3.consumeStream chunks)) []
                  (sent st messages w1)) as Hx.
    destruct (Step3.executeCalls _ _ _) as [[parts | e |] st2]; unfold ret; simpl in *;
      rewrite Hx; count_events.
  - unfold ret, sent. cbn [snd log]. count_events.
Qed.

(** What one pass of [runDemo]'s loop adds to the counts. *)
Lemma step4_body_counts (messages : list Sdk.PartUnion) (st : St W) :
  let r := Step4.loopBody messages st in
  executions (log (snd r)) = executions (log st)
  /\ sends (log (snd r)) = sends (log st) + 1
  /\ match fst r with
     | Normal (inl _) => schedules (log (snd r)) = schedules (log st) + 1
     | Pending => True
     | _ => schedules (log (snd r)) = schedules (log st)
     end.
Proof.
  cbv zeta. unfold Step4.loopBody, bind. rewrite send_runs.
  destruct (sendMessageStream (world st) messages) as [[chunks | e |] w1]; cbn [fst snd].
  - destruct (0 <? _)%nat.
    + rewrite mapNow_runs. unfold scheduleAndWait, ret. cbn [fst snd world log sent].
      destruct (scheduleBatch _ _) as [[calls|] w2]; cbn [fst snd log];
        repeat split; count_events.
    + unfold ret, sent. cbn [fst snd log]. repeat split; count_events.
  - unfold sent. cbn [log]. repeat split; count_events.
  - (* an unsettled stream: the message was sent; the loop is pending *)
    unfold sent. cbn [log]. repeat split; count_events.
Qed.

(** X4.  [runChatWithTool] never hands a batch to a scheduler and [runDemo]
    never calls [executeToolCall]; and whenever a run of [runDemo] settles,
    with an answer or with an error of the backend, it has sent the backend
    exactly one message more than it has scheduled batches: every batch
    lies between two backend calls. *)
Theorem loops_keep_to_one_tool_path (fuel : nat) (prompt : string) (st : St W) :
  schedules (log (snd (Step3.runChatWithTool fuel prompt st))) = schedules (log st)
  /\ executions (log (snd (Step4.runDemo fuel prompt st))) = executions (log st)
  /\ (fst (Step4.runDemo fuel prompt st) <> Pending ->
      sends (log (snd (Step4.runDemo fuel prompt st))) + schedules (log st)
      = sends (log st) + schedules (log (snd (Step4.runDemo fuel prompt st))) + 1).
Proof.
  unfold Step3.runChatWithTool, Step4.runDemo.
  generalize [Sdk.PUPart (Sdk.textPart prompt)] as messages.
  revert st. induction fuel as [|n IH]; intros st messages.
  - simpl. repeat split; auto. intros Hp. exfalso. apply Hp. reflexivity.
  - rewrite !while_true_step. split; [|split].
    + pose proof (step3_body_schedules messages st) as Hb.
      destruct (Step3.loopBody messages st) as [[[next | a] | e |] st1]; cbn [snd] in *;
        try exact Hb.
      destruct (IH st1 next) as (H3 & _). rewrite H3. exact Hb.
    + destruct (step4_body_counts messages st) as (Hb & _).
      destruct (Step4.loopBody messages st) as [[[next | a] | e |] st1]; cbn [snd] in *;
        try exact Hb.
      destruct (IH st1 next) as (_ & H4 & _). rewrite H4. exact Hb.
    + destruct (step4_body_counts messages st) as (_ & Hs & Hc).
      destruct (Step4.loopBody messages st) as [[[next | a] | e |] st1]; cbn [fst snd] in *.
      * intros Hp. destruct (IH st1 next) as (_ & _ & Hrest). specialize (Hrest Hp). lia.
      * intros _. lia.
      * intros _. lia.
      * intros Hp. exfalso. apply Hp. reflexivity.
Qed.

End LoopCalls.

(** X4 on a scripted run of [runDemo] with one tool round. *)
Lemma loops_keep_to_one_tool_path_witness :
  let w := Scripted.mkWorld
             [[Scripted.callChunk (Scripted.call None "grep")]; [Scripted.textChunk "done"]]
             (Scripted.output "a.ts") Sdk.completed 7 in
  sends (log (snd (Step4.runDemo 3 "find files" (Scripted.start w)))) + 0
  = 0 + schedules (log (snd (Step4.runDemo 3 "find files" (Scripted.start w)))) + 1.
Proof.
  intros w.
  destruct (loops_keep_to_one_tool_path 3 "find files" (Scripted.start w)) as (_ & _ & Hcount).
  apply Hcount. discriminate.
Defined.

(** ** Generated identifiers *)

Lemma length_append (a b : string) :
  String.length (a ++ b) = String.length a + String.length b.
Proof.
  induction a as [|c a IH]; [reflexivity|].
  rewrite append_cons. simpl. rewrite IH. reflexivity.
Qed.

Lemma append_cancel_r (a b c : string) : a ++ c = b ++ c -> a = b.
Proof.
  revert b. induction a as [|x a IH]; intros [|y b] Heq.
  - reflexivity.
  - apply (f_equal String.length) in Heq. rewrite !length_append in Heq.
    simpl in Heq. lia.
  - apply (f_equal String.length) in Heq. rewrite !length_append in Heq.
    simpl in Heq. lia.
  - rewrite !append_cons in Heq. injection Heq as -> Heq. f_equal. apply IH. exact Heq.
Qed.

(** X5.  Generated identifiers are not unique: of two function calls that
    come without an identifier and are turned into requests with the same
    reading of the clock, the requests have the same [callId] exactly when
    the tool names are the same (an absent name counting as [undefined]);
    and steps 3, 4 and 5 generate the same identifier for such a call. *)
Theorem generated_callIds_collide (fc1 fc2 : Sdk.FunctionCall) (t : Z) :
  Sdk.fc_id fc1 = None -> Sdk.fc_id fc2 = None ->
  (Sdk.callId (Step4.toolRequest fc1 t) = Sdk.callId (Step4.toolRequest fc2 t)
   <-> JS.template (Sdk.fc_name fc1) = JS.template (Sdk.fc_name fc2))
  /\ Sdk.callId (Step3.requestInfo fc1 t) = Sdk.callId (Step4.toolRequest fc1 t)
  /\ Sdk.callId (Step5.toolCallRequest fc1 t) = Sdk.callId (Step4.toolRequest fc1 t).
Proof.
  intros H1 H2.
  unfold Step4.toolRequest, Step3.requestInfo, Step5.toolCallRequest,
    callId_nullish, callId_or, generatedId. cbn [Sdk.callId].
  rewrite H1, H2. cbn [JS.nullish JS.or_else JS.truthyOpt].
  split; [|split; reflexivity].
  split.
  - apply append_cancel_r.
  - intros ->. reflexivity.
Qed.

(** X5 on two calls of [write_file] in one batch. *)
Lemma generated_callIds_collide_witness :
  Sdk.callId (Step4.toolRequest (Sdk.mkFunctionCall None (Some "write_file") None) 7)
  = Sdk.callId (Step4.toolRequest
                  (Sdk.mkFunctionCall None (Some "write_file") (Some [("path", Sdk.JStr "b")])) 7).
Proof.
  destruct (generated_callIds_collide
              (Sdk.mkFunctionCall None (Some "write_file") None)
              (Sdk.mkFunctionCall None (Some "write_file") (Some [("path", Sdk.JStr "b")])) 7
              eq_refl eq_refl) as [Hsame _].
  apply Hsame. reflexivity.
Defined.


(** ** The approval handlers on one update *)

Lemma combine_fst {A B : Type} (l1 : list A) (l2 : list B) :
  map fst (combine l1 l2) = take (length l2) l1.
Proof.
  revert l2. induction l1 as [|a l1 IH]; intros [|b l2]; simpl; try reflexivity.
  f_equal. apply IH.
Qed.

Lemma answered_calls (f : string -> Sdk.ToolConfirmationOutcome)
  (toolCalls : list Sdk.ToolCall) (stdin : list string) :
  map confirmedCall (Spec.answered f toolCalls stdin)
  = take (length stdin)
      (map (fun toolCall => Sdk.callId (Sdk.request toolCall))
         (List.filter Spec.isPrompt toolCalls)).
Proof.
  unfold Spec.answered. rewrite map_map. cbn [confirmedCall].
  rewrite <- (map_map fst (fun toolCall => Sdk.callId (Sdk.request toolCall))).
  rewrite combine_fst. symmetry. apply List.firstn_map.
Qed.

(** X6.  On one status update the handler of step 4 answers the calls that
    wait for approval in the order of the update, one line of stdin each,
    and leaves the other lines unread; calls in any other state take no
    input.  The handler of step 5 confirms the same calls in the same
    order and reads the same lines. *)
Theorem handlers_answer_prompts_in_order (toolCalls : list Sdk.ToolCall) (stdin : list string) :
  let waiting := map (fun toolCall => Sdk.callId (Sdk.request toolCall))
                   (List.filter Spec.isPrompt toolCalls) in
  map confirmedCall (fst (Step4Handler.onToolCallsUpdate toolCalls stdin))
  = take (length stdin) waiting
  /\ snd (Step4Handler.onToolCallsUpdate toolCalls stdin) = skipn (length waiting) stdin
  /\ map confirmedCall (fst (Step5.onToolCallsUpdate toolCalls stdin))
     = take (length stdin) waiting
  /\ snd (Step5.onToolCallsUpdate toolCalls stdin) = skipn (length waiting) stdin.
Proof.
  cbv zeta. rewrite step4_answersPrompts, step5_answersPrompts. cbn [fst snd].
  rewrite !answered_calls, length_map. auto.
Qed.

(** X7.  The handler of step 5 never decides proceed-always, whatever is
    typed; the handler of step 4 decides it only for a line that is [a] or
    [A]. *)
Theorem always_only_in_step4 (toolCalls : list Sdk.ToolCall) (stdin : list string) :
  Forall (fun c => outcome c <> Sdk.ProceedAlwaysTool)
    (fst (Step5.onToolCallsUpdate toolCalls stdin))
  /\ ((forall line, In line stdin -> line <> "a" /\ line <> "A") ->
      Forall (fun c => outcome c <> Sdk.ProceedAlwaysTool)
        (fst (Step4Handler.onToolCallsUpdate toolCalls stdin))).
Proof.
  rewrite step4_answersPrompts, step5_answersPrompts. cbn [fst]. unfold Spec.answered.
  split.
  - apply List.Forall_forall. intros c Hc. apply in_map_iff in Hc as ([tc line] & <- & _).
    cbn [outcome snd]. unfold Step5.outcomeOf. destruct (Step5.confirm line); discriminate.
  - intros Hlines. apply List.Forall_forall. intros c Hc.
    apply in_map_iff in Hc as ([tc line] & <- & Hin).
    apply in_combine_r in Hin. cbn [outcome snd]. intros Halways.
    destruct (Hlines line Hin) as [Ha HA].
    destruct (step4_outcome_cases line) as [[_ O] | [[L _] | (_ & _ & O)]];
      try (rewrite O in Halways; discriminate).
    apply toLowerCase_a in L. tauto.
Qed.

(** X7 on an update with two waiting calls answered [y] and [n]. *)
Lemma always_only_in_step4_witness :
  Forall (fun c => outcome c <> Sdk.ProceedAlwaysTool)
    (fst (Step4Handler.onToolCallsUpdate
            [Scripted.waiting "c1"; Scripted.waiting "c2"] ["y"; "n"])).
Proof.
  destruct (always_only_in_step4 [Scripted.waiting "c1"; Scripted.waiting "c2"] ["y"; "n"])
    as [_ Hstep4].
  apply Hstep4. intros line [<- | [<- | []]]; split; discriminate.
Defined.

(** ** [CalculatorTool]: validation and cleaning *)

(** ToBoolean of the value of [expression]. *)
Lemma validate_passes (params : CalculatorTool.Params) :
  CalculatorTool.validateToolParams params = Normal None <->
  exists e,
    params = CalculatorTool.ParamsObject e
    /\ ((exists s, e = CalculatorTool.EString s /\ s <> "")
        \/ (exists z, e = CalculatorTool.ENumber z /\ z <> 0%Z)
        \/ e = CalculatorTool.EBool true).
Proof.
  split.
  - destruct params as [| | [| | [|] | z | s]]; simpl; try discriminate.
    + intros _. eexists. split; [reflexivity|]. auto.
    + destruct (z =? 0)%Z eqn:Hz; [discriminate|]. apply Z.eqb_neq in Hz.
      intros _. eexists. split; [reflexivity|]. right. left. eauto.
    + unfold JS.truthy. destruct (s =? "") eqn:Hs; [discriminate|].
      apply String.eqb_neq in Hs. intros _. eexists. split; [reflexivity|]. left. eauto.
  - intros (e & -> & [(s & -> & Hs) | [(z & -> & Hz) | ->]]); simpl.
    + unfold JS.truthy. apply String.eqb_neq in Hs. rewrite Hs. reflexivity.
    + apply Z.eqb_neq in Hz. rewrite Hz. reflexivity.
    + reflexivity.
Qed.

(** X8.  [validateToolParams] accepts exactly the parameter objects whose
    [expression] is truthy: a non-empty string, a non-zero number, [true],
    or any object or array.  For parameters it accepts, [execute] returns
    a result and does not raise, with one exception: an [expression] that
    is an object or array whose conversion to a string raises makes
    [execute] raise from its [catch] block, although validation accepted
    it.  When the accepted [expression] is not a string, the result
    describes an error and nothing is evaluated. *)
Theorem validated_params_execute
  (runFunction : string -> CalculatorTool.EvalResult) (params : CalculatorTool.Json.Params) :
  (CalculatorTool.Json.validateToolParams params = Normal None <->
   (exists e,
       params = CalculatorTool.Json.Plain (CalculatorTool.ParamsObject e)
       /\ ((exists s, e = CalculatorTool.EString s /\ s <> "")
           \/ (exists z, e = CalculatorTool.ENumber z /\ z <> 0%Z)
           \/ e = CalculatorTool.EBool true))
   \/ exists shown, params = CalculatorTool.Json.Structured shown)
  /\ (CalculatorTool.Json.validateToolParams params = Normal None ->
      params <> CalculatorTool.Json.Structured None ->
      exists result evaluated,
        CalculatorTool.Json.execute runFunction params = (Normal result, evaluated)
        /\ ((forall s, params <> CalculatorTool.Json.Plain
                                   (CalculatorTool.ParamsObject (CalculatorTool.EString s))) ->
            CalculatorTool.describesError result = true /\ evaluated = []))
  /\ (params = CalculatorTool.Json.Structured None ->
      CalculatorTool.Json.validateToolParams params = Normal None
      /\ CalculatorTool.Json.execute runFunction params
         = (Throw "Cannot convert object to primitive value", [])).
Proof.
  assert (Hiff : CalculatorTool.Json.validateToolParams params = Normal None <->
                 (exists e,
                     params = CalculatorTool.Json.Plain (CalculatorTool.ParamsObject e)
                     /\ ((exists s, e = CalculatorTool.EString s /\ s <> "")
                         \/ (exists z, e = CalculatorTool.ENumber z /\ z <> 0%Z)
                         \/ e = CalculatorTool.EBool true))
                 \/ exists shown, params = CalculatorTool.Json.Structured shown).
  { destruct params as [plain | shown]; cbn [CalculatorTool.Json.validateToolParams].
    - rewrite validate_passes. split.
      + intros (e & -> & He). left. exists e. split; [reflexivity | exact He].
      + intros [(e & [= ->] & He) | (shown & ?)]; [|discriminate].
        exists e. split; [reflexivity | exact He].
    - split; [intros _; right; exists shown; reflexivity | reflexivity]. }
  split; [exact Hiff|]. split.
  - intros Hv Hconv.
    apply Hiff in Hv as [(e & -> & [(s & -> & Hs) | [(z & -> & Hz) | ->]]) | (shown & ->)].
    + cbn [CalculatorTool.Json.execute]. unfold CalculatorTool.execute.
      destruct (CalculatorTool.evaluateExpression runFunction (CalculatorTool.EString s))
        as [[shown | message] evaluated]; do 2 eexists; (split; [reflexivity|]);
        intros Hno; exfalso; apply (Hno s); reflexivity.
    + do 2 eexists. split; [reflexivity|]. intros _. split; reflexivity.
    + do 2 eexists. split; [reflexivity|]. intros _. split; reflexivity.
    + destruct shown as [text|]; [|contradiction].
      do 2 eexists. split; [reflexivity|]. intros _. split; reflexivity.
  - intros ->. split; reflexivity.
Qed.

(** X8 on the number 5 and on an array of numbers, which pass validation,
    and on an object that cannot be converted to a string. *)
Lemma validated_params_execute_witness :
  let runFunction := fun _ : string => CalculatorTool.Value "4" in
  (exists result,
      CalculatorTool.Json.execute runFunction
        (CalculatorTool.Json.Plain (CalculatorTool.ParamsObject (CalculatorTool.ENumber 5)))
      = (Normal result, [])
      /\ CalculatorTool.describesError result = true)
  /\ (exists result,
        CalculatorTool.Json.execute runFunction (CalculatorTool.Json.Structured (Some "1,2"))
        = (Normal result, [])
        /\ CalculatorTool.describesError result = true)
  /\ CalculatorTool.Json.validateToolParams (CalculatorTool.Json.Structured None) = Normal None
  /\ CalculatorTool.Json.execute runFunction (CalculatorTool.Json.Structured None)
     = (Throw "Cannot convert object to primitive value", []).
Proof.
  intros runFunction. split; [|split].
  - destruct (validated_params_execute runFunction
                (CalculatorTool.Json.Plain (CalculatorTool.ParamsObject (CalculatorTool.ENumber 5))))
      as (_ & Hreturns & _).
    destruct (Hreturns eq_refl) as (result & evaluated & Hx & Herr); [discriminate|].
    destruct Herr as [Herr ->]; [intros s; discriminate|].
    exists result. split; [exact Hx | exact Herr].
  - destruct (validated_params_execute runFunction (CalculatorTool.Json.Structured (Some "1,2")))
      as (_ & Hreturns & _).
    destruct (Hreturns eq_refl) as (result & evaluated & Hx & Herr); [discriminate|].
    destruct Herr as [Herr ->]; [intros s; discriminate|].
    exists result. split; [exact Hx | exact Herr].
  - destruct (validated_params_execute runFunction (CalculatorTool.Json.Structured None))
      as (_ & _ & Hraises).
    exact (Hraises eq_refl).
Defined.

Lemma removeDisallowed_allowed (s : string) (c : ascii) :
  In c (list_ascii_of_string (CalculatorTool.removeDisallowed s)) ->
  CalculatorTool.allowedChar c = true.
Proof.
  induction s as [|x s IH]; simpl; [tauto|].
  destruct (CalculatorTool.allowedChar x) eqn:Hx; simpl; [|exact IH].
  intros [<- | Hin]; [exact Hx | apply IH; exact Hin].
Qed.

(** X9.  The cleaning of an expression (the [replace] of line 234) leaves
    only allowed characters, never lengthens the expression and changes
    nothing when applied again: a cleaned expression always passes the
    comparison of line 235. *)
Theorem cleaning_is_idempotent (s : string) :
  (forall c, In c (list_ascii_of_string (CalculatorTool.removeDisallowed s)) ->
             CalculatorTool.allowedChar c = true)
  /\ String.length (CalculatorTool.removeDisallowed s) <= String.length s
  /\ CalculatorTool.removeDisallowed (CalculatorTool.removeDisallowed s)
     = CalculatorTool.removeDisallowed s.
Proof.
  split; [|split].
  - intros c. apply removeDisallowed_allowed.
  - apply removeDisallowed_length.
  - apply removeDisallowed_fixed. intros c. apply removeDisallowed_allowed.
Qed.


(** ** Step 2: counting and printing the stream *)

Lemma thought_or_content (part : Sdk.Part) :
  JS.truthyOpt (Sdk.text part) = true ->
  (isThoughtText part = true /\ Spec.isContent part = false
   /\ Sdk.thought part = Some true)
  \/ (isThoughtText part = false /\ Spec.isContent part = true
      /\ Sdk.thought part <> Some true).
Proof.
  unfold isThoughtText, Spec.isContent. intros ->.
  destruct (Sdk.thought part) as [[|]|]; simpl; [left | right | right]; auto;
    repeat split; discriminate.
Qed.

Lemma step2_scan_app (out more : list Step2.Out) (m : option Step2.Mode) :
  fold_left Step2.scan (out ++ more) m = fold_left Step2.scan more (fold_left Step2.scan out m).
Proof. apply fold_left_app. Qed.

(** What one part adds to the state of step 2. *)
Lemma step2_onPart (st : Step2.State) (part : Sdk.Part) :
  let st' := Step2.onPart st part in
  let here := List.filter (fun p => JS.truthyOpt (Sdk.text p)) [part] in
  Step2.thoughtCount st'
  = Step2.thoughtCount st
    + String.length (fold_right String.append "" (map Spec.textOf (List.filter isThoughtText [part])))
  /\ Step2.contentCount st' = Step2.contentCount st + String.length (Spec.joined [part])
  /\ Step2.fragments (Step2.written st')
     = (Step2.fragments (Step2.written st) ++ map Spec.textOf here)%list
  /\ (fold_left Step2.scan (Step2.written st) (Some Step2.NoHeader) = Some (step2_mode st) ->
      fold_left Step2.scan (Step2.written st') (Some Step2.NoHeader) = Some (step2_mode st'))
  /\ Step2.body (Step2.written st') = (Step2.body (Step2.written st) ++ map shown here)%list.
Proof.
  cbv zeta.
  unfold Step2.onPart, Spec.joined, isThoughtText, Spec.isContent, shown, Spec.textOf,
    Step2.body.
  cbn [List.filter]. destruct st as [thinking content tc cc out].
  destruct part as [[s|] th fc fr]; cbn [Sdk.text Sdk.thought JS.truthyOpt];
    [|simpl; rewrite !app_nil_r; repeat split; auto; lia].
  destruct (JS.truthy s); [|simpl; rewrite !app_nil_r; repeat split; auto; lia].
  unfold Step2.fragments, step2_mode.
  destruct th as [[|]|]; destruct thinking, content;
    cbn [Step2.isThinking Step2.hasContent Step2.thoughtCount Step2.contentCount
         Step2.written negb orb andb map fold_right List.filter app
         Sdk.text Sdk.thought];
    rewrite ?flat_map_app, ?step2_scan_app, ?append_nil_r, ?List.filter_app; simpl;
    rewrite ?app_nil_r, ?Nat.add_0_r;
    (repeat split; auto; try (intros ->; reflexivity)).
Qed.

Lemma allParts_app (a b : list Sdk.Chunk) :
  Spec.allParts (a ++ b) = (Spec.allParts a ++ Spec.allParts b)%list.
Proof. unfold Spec.allParts. apply flat_map_app. Qed.

Lemma thoughtJoined_app (ps qs : list Sdk.Part) :
  thoughtJoined (ps ++ qs) = thoughtJoined ps ++ thoughtJoined qs.
Proof.
  unfold thoughtJoined. induction ps as [|p ps IH]; simpl; [reflexivity|].
  destruct (isThoughtText p); simpl; [rewrite IH, append_assoc|]; auto.
Qed.

Lemma step2_parts (ps : list Sdk.Part) :
  forall st,
    let st' := fold_left Step2.onPart ps st in
    Step2.thoughtCount st' = Step2.thoughtCount st + String.length (thoughtJoined ps)
    /\ Step2.contentCount st' = Step2.contentCount st + String.length (Spec.joined ps)
    /\ Step2.fragments (Step2.written st')
       = (Step2.fragments (Step2.written st)
          ++ map Spec.textOf (List.filter (fun p => JS.truthyOpt (Sdk.text p)) ps))%list
    /\ (fold_left Step2.scan (Step2.written st) (Some Step2.NoHeader) = Some (step2_mode st) ->
        fold_left Step2.scan (Step2.written st') (Some Step2.NoHeader) = Some (step2_mode st'))
    /\ Step2.body (Step2.written st')
       = (Step2.body (Step2.written st)
          ++ map shown (List.filter (fun p => JS.truthyOpt (Sdk.text p)) ps))%list.
Proof.
  induction ps as [|p ps IH]; intros st; cbv zeta.
  - simpl. unfold thoughtJoined, Spec.joined. simpl. rewrite !app_nil_r.
    repeat split; auto; lia.
  - cbn [fold_left]. destruct (IH (Step2.onPart st p)) as (Ht & Hc & Hf & Hs & Hb).
    destruct (step2_onPart st p) as (Ht1 & Hc1 & Hf1 & Hs1 & Hb1).
    change (p :: ps) with ([p] ++ ps)%list.
    rewrite thoughtJoined_app, joined_app, !length_append, List.filter_app, !map_app.
    fold (thoughtJoined [p]) in Ht1.
    rewrite Ht, Hc, Hf, Hb, Ht1, Hc1, Hf1, Hb1, <- !app_assoc.
    repeat split; auto; lia.
Qed.

Lemma step2_stream (stream : list Sdk.Chunk) :
  forall st,
    let st' := fold_left Step2.onEvent stream st in
    Step2.thoughtCount st'
    = Step2.thoughtCount st + String.length (thoughtJoined (Spec.allParts stream))
    /\ Step2.contentCount st'
       = Step2.contentCount st + String.length (Spec.joined (Spec.allParts stream))
    /\ Step2.fragments (Step2.written st')
       = (Step2.fragments (Step2.written st)
          ++ map Spec.textOf
               (List.filter (fun p => JS.truthyOpt (Sdk.text p)) (Spec.allParts stream)))%list
    /\ (fold_left Step2.scan (Step2.written st) (Some Step2.NoHeader) = Some (step2_mode st) ->
        fold_left Step2.scan (Step2.written st') (Some Step2.NoHeader) = Some (step2_mode st'))
    /\ Step2.body (Step2.written st')
       = (Step2.body (Step2.written st)
          ++ map shown
               (List.filter (fun p => JS.truthyOpt (Sdk.text p)) (Spec.allParts stream)))%list.
Proof.
  induction stream as [|event stream IH]; intros st; cbv zeta.
  - simpl. unfold thoughtJoined, Spec.joined. simpl. rewrite !app_nil_r.
    repeat split; auto; lia.
  - cbn [fold_left]. destruct (IH (Step2.onEvent st event)) as (Ht & Hc & Hf & Hs & Hb).
    rewrite allParts_cons, thoughtJoined_app, joined_app, !length_append,
      List.filter_app, !map_app.
    rewrite Ht, Hc, Hf, Hb. unfold Step2.onEvent in *.
    destruct (Sdk.parts event) as [ps|].
    + destruct (step2_parts ps st) as (Ht1 & Hc1 & Hf1 & Hs1 & Hb1).
      rewrite Ht1, Hc1, Hf1, Hb1, <- !app_assoc. repeat split; auto; lia.
    + unfold thoughtJoined, Spec.joined. simpl. repeat split; auto; lia.
Qed.

(** X10.  The statistics of step 2 count every character once:
    [thoughtCount] is the length of the thought fragments joined,
    [contentCount] the length of the content text, whatever the order in
    which thoughts and content arrive. *)
Theorem step2_counts (stream : list Sdk.Chunk) :
  Step2.thoughtCount (Step2.run stream) = String.length (thoughtText stream)
  /\ Step2.contentCount (Step2.run stream) = String.length (Spec.contentText stream).
Proof.
  destruct (step2_stream stream Step2.initial) as (Ht & Hc & _).
  unfold Step2.run. split; [exact Ht | exact Hc].
Qed.

(** X11.  Step 2 writes the non-empty text fragments of the stream in
    arrival order, a thought fragment dim and any other fragment plain,
    and nothing else but headers; and it keeps the headers in step with
    the text: every thought fragment stands under a thinking header and
    every content fragment under a response header, a header is written
    only where the text begins or its kind changes and is followed at once
    by a fragment of its kind, and the blank line is written only where a
    thinking run ends, before the response header. *)
Theorem step2_output_is_well_formed (stream : list Sdk.Chunk) :
  Step2.fragments (Step2.written (Step2.run stream)) = texts stream
  /\ Step2.body (Step2.written (Step2.run stream)) = textKinds stream
  /\ exists mode,
       fold_left Step2.scan (Step2.written (Step2.run stream)) (Some Step2.NoHeader)
       = Some mode
       /\ (mode = Step2.NoHeader \/ mode = Step2.Thinking \/ mode = Step2.Response).
Proof.
  destruct (step2_stream stream Step2.initial) as (_ & _ & Hf & Hs & Hb).
  unfold Step2.run. split; [exact Hf|]. split; [exact Hb|].
  exists (step2_mode (fold_left Step2.onEvent stream Step2.initial)).
  split; [apply Hs; reflexivity|].
  unfold step2_mode.
  destruct (Step2.isThinking _); [auto|]. destruct (Step2.hasContent _); auto.
Qed.

(** A stream of a thought, an answer, a second thought and more answer. *)
Example step2_run :
  let part := fun (s : string) (t : bool) => Sdk.mkPart (Some s) (Some t) None None in
  Step2.written (Step2.run [Sdk.mkChunk (Some [part "hm" true; part "A" false]) None;
                            Sdk.mkChunk (Some [part "so" true; part "B" false; part "C" false]) None])
  = [Step2.ThinkingHeader; Step2.Dim "hm"; Step2.Spacing; Step2.ResponseHeader; Step2.Plain "A";
     Step2.ThinkingHeader; Step2.Dim "so"; Step2.Spacing; Step2.ResponseHeader; Step2.Plain "B";
     Step2.Plain "C"].
Proof. reflexivity. Qed.


(** ** The inline variant of step 3 *)

Lemma detect_parts (ps : list Sdk.Part) :
  forall b, fold_left Step3Demo.detectPart ps b
            = b || negb (match Spec.callsOf ps with [] => true | _ => false end).
Proof.
  induction ps as [|p ps IH]; intros b; simpl.
  - rewrite orb_false_r. reflexivity.
  - rewrite IH. unfold Step3Demo.detectPart.
    destruct (Sdk.functionCall p); simpl.
    + rewrite orb_true_r. reflexivity.
    + fold (Spec.callsOf ps). reflexivity.
Qed.

Lemma detect_chunks (chunks : list Sdk.Chunk) :
  forall b, fold_left Step3Demo.detectChunk chunks b
            = b || negb (match Spec.callsInParts chunks with [] => true | _ => false end).
Proof.
  unfold Spec.callsInParts.
  induction chunks as [|c chunks IH]; intros b.
  - simpl. rewrite orb_false_r. reflexivity.
  - cbn [fold_left]. rewrite IH, allParts_cons, callsOf_app.
    unfold Step3Demo.detectChunk. destruct (Sdk.parts c) as [ps|].
    + rewrite detect_parts.
      destruct b, (Spec.callsOf ps), (Spec.callsOf (Spec.allParts chunks)); reflexivity.
    + reflexivity.
Qed.

(** X13.  The detection of step 3 answers "Yes" exactly when some part of
    some chunk of the reply carries a function call, that is, exactly when
    [runChatWithTool] would go on to execute tools for the same reply. *)
Theorem detection_agrees_with_loop (chunks : list Sdk.Chunk) :
  (Step3Demo.hasTools chunks = true <-> Spec.callsInParts chunks <> [])
  /\ (Step3Demo.hasTools chunks = true
      <-> (0 <? length (Step3.functionCalls (Step3.consumeStream chunks)))%nat = true).
Proof.
  unfold Step3Demo.hasTools. rewrite detect_chunks.
  destruct (step3_consumeStream chunks) as [-> _].
  destruct (Spec.callsInParts chunks); simpl; split; split;
    try discriminate; try reflexivity; try congruence; auto.
Qed.

Section GuardedExecution.
Context {W : Type} `{SdkOps W}.

(** X12.  The inline variant of step 3 runs every function call of the
    reply whether or not an earlier one failed: a call whose
    [executeToolCall] throws is reported as failed and the loop goes on, so
    the loop itself never throws, and when it ends it has called
    [executeToolCall] exactly once per function call, in order, and has one
    report per call. *)
Theorem inline_step3_runs_every_call (fcs : list Sdk.FunctionCall) (st : St W) :
  (forall e, fst (Step3Demo.executeAll fcs st) <> Throw e)
  /\ (forall reports,
        fst (Step3Demo.executeAll fcs st) = Normal reports ->
        length reports = length fcs
        /\ exists done,
             log (snd (Step3Demo.executeAll fcs st)) = (log st ++ map EvExecute done)%list
             /\ Forall2 (fun fc req => exists t, req = Step3Inline.requestInfo fc t) fcs done).
Proof.
  revert st. induction fcs as [|fc rest IH]; intros st.
  - simpl. split; [discriminate|]. intros reports [= <-]. split; [reflexivity|].
    exists []. simpl. rewrite app_nil_r. split; [reflexivity | constructor].
  - cbn [Step3Demo.executeAll]. unfold bind at 1 2. unfold Step3Demo.runOne.
    unfold bind at 1, now, tryCatch, bind, execute, ret. cbn [fst snd world log].
    set (req := Step3Inline.requestInfo fc (Date_now (world st))).
    destruct (executeToolCall (world st) req) as [[r | e |] w1]; cbn [fst snd].
    + destruct (IH (mkSt w1 (log st ++ [EvExecute req]))) as [Hno Hall].
      destruct (Step3Demo.executeAll rest _) as [[rs | e |] st2]; cbn [fst snd] in *.
      * split; [discriminate|]. intros reports [= <-].
        destruct (Hall rs eq_refl) as (Hlen & done & Hlog & Hreq).
        split; [simpl; lia|]. exists (req :: done). rewrite Hlog. cbn [log].
        rewrite <- app_assoc. split; [reflexivity|].
        constructor; [exists (Date_now (world st)); reflexivity | exact Hreq].
      * exfalso. apply (Hno e). reflexivity.
      * split; discriminate.
    + destruct (IH (mkSt w1 (log st ++ [EvExecute req]))) as [Hno Hall].
      destruct (Step3Demo.executeAll rest _) as [[rs | e' |] st2]; cbn [fst snd] in *.
      * split; [discriminate|]. intros reports [= <-].
        destruct (Hall rs eq_refl) as (Hlen & done & Hlog & Hreq).
        split; [simpl; lia|]. exists (req :: done). rewrite Hlog. cbn [log].
        rewrite <- app_assoc. split; [reflexivity|].
        constructor; [exists (Date_now (world st)); reflexivity | exact Hreq].
      * exfalso. apply (Hno e'). reflexivity.
      * split; discriminate.
    + split; discriminate.
Qed.

End GuardedExecution.

(** X12 on a scripted reply with two tool calls. *)
Lemma inline_step3_runs_every_call_witness :
  let w := Scripted.mkWorld [] (Scripted.output "a.txt") Sdk.completed 7 in
  let fcs := [Scripted.call (Some "c1") "ls"; Scripted.call None "read_file"] in
  exists done,
    log (snd (Step3Demo.executeAll fcs (Scripted.start w))) = map EvExecute done
    /\ Forall2 (fun fc req => exists t, req = Step3Inline.requestInfo fc t) fcs done.
Proof.
  intros w fcs.
  destruct (inline_step3_runs_every_call fcs (Scripted.start w)) as [_ Hall].
  destruct (Hall [Step3Demo.Succeeded None; Step3Demo.Succeeded None] eq_refl)
    as (_ & done & Hlog & Hreq).
  exists done. split; [exact Hlog | exact Hreq].
Defined.

(** The two variants of step 3 on a tool that answers with an array: the
    inline variant reports and goes on, [runChatWithTool] stops at once. *)
Example inline_step3_goes_on :
  let w := Scripted.mkWorld [] (Sdk.PLArray [Sdk.PUString "a.txt"]) Sdk.completed 7 in
  let fcs := [Scripted.call (Some "c1") "ls"; Scripted.call (Some "c2") "ls"] in
  fst (Step3Demo.executeAll fcs (Scripted.start w))
  = Normal [Step3Demo.Succeeded None; Step3Demo.Succeeded None]
  /\ fst (Step3.executeCalls fcs [] (Scripted.start w))
     = Throw "Cannot read properties of undefined (reading 'response')".
Proof. split; reflexivity. Qed.

(** ** Step 5: the results sent back, and the stream *)

Lemma aggregate_cons (call : Sdk.CompletedToolCall) (calls : list Sdk.CompletedToolCall) :
  Step4.aggregate (call :: calls) = (Step4.collect [] call ++ Step4.aggregate calls)%list.
Proof.
  change (call :: calls) with ([] ++ call :: calls)%list.
  rewrite aggregate_split. reflexivity.
Qed.

(** X14.  Step 5 sends back the payload of every completed call, whatever
    its status and also when it is falsy, flattened by one level; it raises
    when a call has no [response].  When it does not raise and every
    payload is truthy, it sends back exactly what [runDemo] of step 4
    aggregates for the same calls. *)
Theorem step5_sends_back_what_step4_does
  (completedCalls : list Sdk.CompletedToolCall) (parts : list Sdk.PartUnion) :
  Step5Chat.responseParts completedCalls = Normal parts ->
  parts = flat_map (fun call => match Sdk.c_response call with
                                | Some r => Sdk.asArray (Sdk.responseParts r)
                                | None => []
                                end) completedCalls
  /\ Forall (fun call => Sdk.c_response call <> None) completedCalls
  /\ ((forall call r, In call completedCalls -> Sdk.c_response call = Some r ->
                      Sdk.truthyParts (Sdk.responseParts r) = true) ->
      Step4.aggregate completedCalls = parts).
Proof.
  revert parts. induction completedCalls as [|call calls IH]; intros parts.
  - simpl. intros [= <-]. repeat split; auto.
  - cbn [Step5Chat.responseParts flat_map].
    destruct (Sdk.c_response call) as [r|] eqn:Hr; [|discriminate].
    destruct (Step5Chat.responseParts calls) as [ps | e |]; try discriminate.
    intros [= <-]. destruct (IH ps eq_refl) as (Hps & Hall & Hagg).
    split; [rewrite <- Hps; reflexivity|].
    split; [constructor; [congruence | exact Hall]|].
    intros Htruthy. rewrite aggregate_cons. unfold Step4.collect.
    rewrite Hr, (Htruthy call r (or_introl eq_refl) Hr). simpl. f_equal.
    apply Hagg. intros c r' Hin. apply Htruthy. right. exact Hin.
Qed.

(** X14 on two completed calls, one of them cancelled. *)
Lemma step5_sends_back_what_step4_does_witness :
  let done := fun (id : string) (status : Sdk.Status) =>
                Sdk.mkCompleted (Sdk.mkRequest id (Some "ls") None None) status
                  (Some (Sdk.mkResponse id (Scripted.output id) None None)) in
  Step4.aggregate [done "c1" Sdk.completed; done "c2" Sdk.cancelled]
  = (Sdk.asArray (Scripted.output "c1") ++ Sdk.asArray (Scripted.output "c2"))%list.
Proof.
  intros done.
  destruct (step5_sends_back_what_step4_does
              [done "c1" Sdk.completed; done "c2" Sdk.cancelled]
              (Sdk.asArray (Scripted.output "c1") ++ Sdk.asArray (Scripted.output "c2"))%list
              eq_refl) as (_ & _ & Hagg).
  apply Hagg. intros call r [<- | [<- | []]] [= <-]; reflexivity.
Defined.

(** A falsy payload, the empty string, is kept by step 5 and dropped by
    step 4. *)
Example empty_payload_differs :
  let call := Sdk.mkCompleted (Sdk.mkRequest "c1" (Some "ls") None None) Sdk.completed
                (Some (Sdk.mkResponse "c1" (Sdk.PLSingle (Sdk.PUString "")) None None)) in
  Step5Chat.responseParts [call] = Normal [Sdk.PUString ""]
  /\ Step4.aggregate [call] = [].
Proof. split; reflexivity. Qed.


(** ** Step 5: reading the stream of a message *)

(** X15.  [sendStreamingMessage] schedules at most one batch per message:
    at the first function-calls event it hands the calls of that event to
    the scheduler, one request each, and returns; what the stream brings
    after that event is not read and the prompt is not shown.  A stream
    without such an event schedules nothing and ends with the prompt. *)
Theorem one_batch_per_message
  (before after : list Step5Chat.GeminiEvent) (fcs : list Sdk.FunctionCall) (t : nat -> Z) :
  Forall (fun event => Step5Chat.isFunctionCalls event = false) before ->
  (Step5Chat.sendStreamingMessage (before ++ Step5Chat.FunctionCalls fcs :: after) t
   = Step5Chat.sendStreamingMessage (before ++ [Step5Chat.FunctionCalls fcs]) t
   /\ snd (Step5Chat.sendStreamingMessage (before ++ Step5Chat.FunctionCalls fcs :: after) t)
      = Some (imap (fun i fc => Step5.toolCallRequest fc (t i)) fcs)
   /\ Step5Chat.count Step5Chat.Prompt
        (fst (Step5Chat.sendStreamingMessage (before ++ Step5Chat.FunctionCalls fcs :: after) t))
      = 0)
  /\ (snd (Step5Chat.sendStreamingMessage before t) = None
      /\ Step5Chat.count Step5Chat.Prompt (fst (Step5Chat.sendStreamingMessage before t)) = 1).
Proof.
  intros Hno. unfold Step5Chat.sendStreamingMessage.
  destruct (consume_until_calls before fcs after (Step5Chat.mkFlags false false) t Hno)
    as (Heq & Hb & Hp).
  destruct (consume_without_calls before (Step5Chat.mkFlags false false) t Hno) as (Hb' & Hp').
  rewrite Heq in *.
  destruct (Step5Chat.consume (before ++ [Step5Chat.FunctionCalls fcs]) _ t) as [out batch].
  destruct (Step5Chat.consume before _ t) as [out' batch'].
  cbn [fst snd] in *. repeat split; auto.
Qed.

(** X15 on a stream with text, two tool calls without identifier and more
    after them; the clock moves on between the two requests. *)
Lemma one_batch_per_message_witness :
  let fc := Scripted.call None "ls" in
  Step5Chat.sendStreamingMessage
    [Step5Chat.Content (Some "Let me look."); Step5Chat.FunctionCalls [fc; fc];
     Step5Chat.Content (Some "unread"); Step5Chat.FunctionCalls [fc]]
    (fun i => 7 + Z.of_nat i)%Z
  = ([Step5Chat.SpinnerStart; Step5Chat.SpinnerStop; Step5Chat.AssistantHeader;
      Step5Chat.Plain "Let me look."; Step5Chat.UsingTools 2],
     Some [Step5.toolCallRequest fc 7; Step5.toolCallRequest fc 8]).
Proof.
  intros fc.
  destruct (one_batch_per_message [Step5Chat.Content (Some "Let me look.")]
              [Step5Chat.Content (Some "unread"); Step5Chat.FunctionCalls [fc]] [fc; fc]
              (fun i => 7 + Z.of_nat i)%Z)
    as [(Heq & _) _].
  - repeat constructor.
  - cbn [app] in Heq. rewrite Heq. reflexivity.
Defined.

(** X16.  For every stream, [sendStreamingMessage] starts the spinner once
    and prints each of the two headers at most once; it stops the spinner
    at most twice, at least once when the stream has an event it reacts to,
    and not at all when it has none: then only the prompt is shown while
    the spinner keeps running. *)
Theorem spinner_and_headers (events : list Step5Chat.GeminiEvent) (t : nat -> Z) :
  let out := fst (Step5Chat.sendStreamingMessage events t) in
  Step5Chat.count Step5Chat.SpinnerStart out = 1
  /\ Step5Chat.count Step5Chat.ThinkingHeader out <= 1
  /\ Step5Chat.count Step5Chat.AssistantHeader out <= 1
  /\ Step5Chat.count Step5Chat.SpinnerStop out <= 2
  /\ (existsb Step5Chat.handled events = true -> 1 <= Step5Chat.count Step5Chat.SpinnerStop out)
  /\ (existsb Step5Chat.handled events = false ->
      Step5Chat.sendStreamingMessage events t
      = ([Step5Chat.SpinnerStart; Step5Chat.Prompt], None)).
Proof.
  cbv zeta. unfold Step5Chat.sendStreamingMessage.
  destruct (consume_headers events (Step5Chat.mkFlags false false) t)
    as (Ht & Ha & Hs & H0 & H1).
  split; [|split; [|split; [|split; [|split]]]].
  - destruct (Step5Chat.consume events _ t) as [out batch]. cbn [fst] in *.
    change (Step5Chat.SpinnerStart :: out) with ([Step5Chat.SpinnerStart] ++ out)%list.
    rewrite count_app, H0. reflexivity.
  - destruct (Step5Chat.consume events _ t) as [out batch]. cbn [fst] in *.
    change (Step5Chat.SpinnerStart :: out) with ([Step5Chat.SpinnerStart] ++ out)%list.
    rewrite count_app. simpl in *. exact Ht.
  - destruct (Step5Chat.consume events _ t) as [out batch]. cbn [fst] in *.
    change (Step5Chat.SpinnerStart :: out) with ([Step5Chat.SpinnerStart] ++ out)%list.
    rewrite count_app. simpl in *. exact Ha.
  - destruct (Step5Chat.consume events _ t) as [out batch]. cbn [fst] in *.
    change (Step5Chat.SpinnerStart :: out) with ([Step5Chat.SpinnerStart] ++ out)%list.
    rewrite count_app. simpl in *. exact Hs.
  - intros Hh. specialize (H1 Hh eq_refl eq_refl).
    destruct (Step5Chat.consume events _ t) as [out batch]. cbn [fst] in *.
    change (Step5Chat.SpinnerStart :: out) with ([Step5Chat.SpinnerStart] ++ out)%list.
    rewrite count_app. simpl in *. exact H1.
  - clear. generalize (Step5Chat.mkFlags false false) as f.
    induction events as [|event events IH]; intros f Hh; [reflexivity|].
    cbn [existsb] in Hh. apply orb_false_iff in Hh as [Hev Hh].
    destruct event as [text | text | fcs | ]; cbn [Step5Chat.handled] in Hev;
      try discriminate; cbn [Step5Chat.consume]; rewrite ?Hev; apply IH; exact Hh.
Qed.

(** Content first and a thought after it: the spinner is stopped twice. *)
Example spinner_stopped_twice :
  fst (Step5Chat.sendStreamingMessage
         [Step5Chat.Content (Some "Hi"); Step5Chat.Thoughts (Some "hm")] (fun _ => 0%Z))
  = [Step5Chat.SpinnerStart; Step5Chat.SpinnerStop; Step5Chat.AssistantHeader;
     Step5Chat.Plain "Hi"; Step5Chat.SpinnerStop; Step5Chat.ThinkingHeader;
     Step5Chat.Dim "hm"; Step5Chat.Prompt].
Proof. reflexivity. Qed.

(** X16 on a stream of events without text. *)
Lemma spinner_and_headers_witness :
  Step5Chat.sendStreamingMessage
    [Step5Chat.OtherEvent; Step5Chat.Content (Some ""); Step5Chat.Thoughts None]
    (fun _ => 0%Z)
  = ([Step5Chat.SpinnerStart; Step5Chat.Prompt], None).
Proof.
  destruct (spinner_and_headers
              [Step5Chat.OtherEvent; Step5Chat.Content (Some ""); Step5Chat.Thoughts None]
    (fun _ => 0%Z))
    as (_ & _ & _ & _ & _ & Hnone).
  apply Hnone. reflexivity.
Defined.

(** ** One reply read by the scripts *)

Lemma getter_calls (chunks : list Sdk.Chunk) :
  Forall getterAgrees chunks -> Spec.callsInChunks chunks = Spec.callsInParts chunks.
Proof.
  unfold Spec.callsInChunks, Spec.callsInParts.
  induction 1 as [|c chunks Hc _ IH]; [reflexivity|].
  rewrite allParts_cons, callsOf_app. cbn [flat_map]. rewrite IH. f_equal.
  unfold getterAgrees in Hc. rewrite Hc.
  destruct (Spec.callsOf _); reflexivity.
Qed.

(** X17.  Steps 3 and 4 read a reply alike: for every stream the text
    [runDemo] prints as the answer is the [responseText] of
    [runChatWithTool] for the same stream, and when the [functionCalls]
    getter of every chunk agrees with the chunk's parts, both collect the
    same function calls in the same order, so both take the same branch. *)
Theorem steps_3_and_4_read_alike (chunks : list Sdk.Chunk) :
  Step4.streamedText (Step4.consumeStream chunks)
  = Step3.responseText (Step3.consumeStream chunks)
  /\ (Forall getterAgrees chunks ->
      Step4.functionCalls (Step4.consumeStream chunks)
      = Step3.functionCalls (Step3.consumeStream chunks)).
Proof.
  destruct (step3_consumeStream chunks) as [-> ->].
  destruct (step4_consumeStream chunks) as [-> ->].
  split; [reflexivity|]. apply getter_calls.
Qed.

(** X17 on a reply of a thought, some text and a call. *)
Lemma steps_3_and_4_read_alike_witness :
  let fc := Scripted.call (Some "c1") "ls" in
  let chunks := [Sdk.mkChunk (Some [Sdk.mkPart (Some "hm") (Some true) None None;
                                   Sdk.mkPart (Some "Ok") None None None]) None;
                 Sdk.mkChunk (Some [Sdk.mkPart None None (Some fc) None]) (Some [fc])] in
  Forall getterAgrees chunks
  /\ Step4.functionCalls (Step4.consumeStream chunks)
     = Step3.functionCalls (Step3.consumeStream chunks).
Proof.
  intros fc chunks.
  assert (Hg : Forall getterAgrees chunks) by (repeat constructor).
  split; [exact Hg|].
  exact (proj2 (steps_3_and_4_read_alike chunks) Hg).
Defined.

(** A getter that reports a call the parts do not carry: step 4 schedules
    it, step 3 does not see it. *)
Example getter_disagrees :
  let fc := Scripted.call (Some "c1") "ls" in
  let chunks := [Sdk.mkChunk (Some []) (Some [fc])] in
  Step4.functionCalls (Step4.consumeStream chunks) = [fc]
  /\ Step3.functionCalls (Step3.consumeStream chunks) = [].
Proof. split; reflexivity. Qed.

Lemma step3_thinking_parts (ps : list Sdk.Part) :
  forall acc,
    Step3.thinkingText (fold_left Step3.consumePart ps acc)
    = Step3.thinkingText acc ++ thoughtJoined ps.
Proof.
  induction ps as [|p ps IH]; intros acc; simpl.
  - unfold thoughtJoined. simpl. rewrite append_nil_r. reflexivity.
  - rewrite IH. clear IH.
    unfold Step3.consumePart, thoughtJoined, isThoughtText, Step3.isThought, Spec.textOf.
    destruct p as [txt th fc fr]; simpl.
    destruct th as [[|]|], (JS.truthyOpt txt), fc; simpl;
      rewrite ?append_assoc; simpl; auto.
Qed.

Lemma step3_thinking_stream (chunks : list Sdk.Chunk) :
  forall acc,
    Step3.thinkingText (fold_left Step3.consumeChunk chunks acc)
    = Step3.thinkingText acc ++ thoughtText chunks.
Proof.
  unfold thoughtText.
  induction chunks as [|c chunks IH]; intros acc.
  - simpl. unfold thoughtJoined. simpl. rewrite append_nil_r. reflexivity.
  - cbn [fold_left]. rewrite IH. clear IH.
    rewrite allParts_cons, thoughtJoined_app.
    unfold Step3.consumeChunk. destruct (Sdk.parts c) as [ps|].
    + rewrite step3_thinking_parts, append_assoc. reflexivity.
    + unfold thoughtJoined at 2. simpl. reflexivity.
Qed.

Lemma text_lengths (ps : list Sdk.Part) :
  String.length (thoughtJoined ps) + String.length (Spec.joined ps)
  = list_sum (map String.length
                (map Spec.textOf (List.filter (fun p => JS.truthyOpt (Sdk.text p)) ps))).
Proof.
  induction ps as [|p ps IH]; [reflexivity|].
  change (p :: ps) with ([p] ++ ps)%list.
  rewrite thoughtJoined_app, joined_app, !length_append.
  rewrite List.filter_app, !map_app, list_sum_app, <- IH. clear IH.
  unfold thoughtJoined, Spec.joined. cbn [List.filter].
  destruct (JS.truthyOpt (Sdk.text p)) eqn:Ht.
  - destruct (thought_or_content p Ht) as [(-> & -> & _) | (-> & -> & _)];
      simpl; rewrite append_nil_r; lia.
  - unfold isThoughtText, Spec.isContent. rewrite Ht. simpl. lia.
Qed.

(** X18.  [runChatWithTool] sorts every non-empty text fragment of a reply
    into exactly one of [thinkingText] and [responseText]: the first is the
    thought fragments joined in arrival order, and the two together are as
    long as all the text of the reply, so that no character is lost or kept
    twice; their lengths are the two statistics step 2 reports for the
    same stream. *)
Theorem step3_sorts_the_text (chunks : list Sdk.Chunk) :
  let acc := Step3.consumeStream chunks in
  Step3.thinkingText acc = thoughtText chunks
  /\ String.length (Step3.thinkingText acc) + String.length (Step3.responseText acc)
     = list_sum (map String.length (texts chunks))
  /\ Step2.thoughtCount (Step2.run chunks) = String.length (Step3.thinkingText acc)
  /\ Step2.contentCount (Step2.run chunks) = String.length (Step3.responseText acc).
Proof.
  cbv zeta.
  assert (Ht : Step3.thinkingText (Step3.consumeStream chunks) = thoughtText chunks).
  { unfold Step3.consumeStream. rewrite step3_thinking_stream. reflexivity. }
  destruct (step3_consumeStream chunks) as [_ Hr].
  destruct (step2_stream chunks Step2.initial) as (Ht2 & Hc2 & _).
  rewrite Ht, Hr. split; [reflexivity|]. split; [|split].
  - unfold thoughtText, Spec.contentText, texts. apply text_lengths.
  - exact Ht2.
  - exact Hc2.
Qed.

(** ** The spinner of step 5 *)

Lemma ticks_nth (n : nat) :
  forall i k,
    i < Step5Chat.frameCount -> k < n ->
    nth_error (Step5Chat.ticks n i) k = Some ((i + k) mod Step5Chat.frameCount).
Proof.
  induction n as [|n IH]; intros i k Hi Hk; [lia|].
  cbn [Step5Chat.ticks Step5Chat.tick fst snd].
  destruct k as [|k]; cbn [nth_error].
  - rewrite Nat.add_0_r, Nat.mod_small; auto.
  - rewrite IH; [|apply Nat.mod_upper_bound; discriminate | lia].
    rewrite Nat.Div0.add_mod_idemp_l. f_equal. f_equal. lia.
Qed.

(** X19.  The spinner never reads outside its ten frames and shows them in
    a cycle: the tick number [k] after [start] (counting from 0) writes
    frame [k mod 10], so frame 0 follows frame 9. *)
Theorem spinner_frames_cycle (n k : nat) :
  k < n ->
  nth_error (Step5Chat.ticks n 0) k = Some (k mod Step5Chat.frameCount)
  /\ Forall (fun frame => frame < Step5Chat.frameCount) (Step5Chat.ticks n 0).
Proof.
  intros Hk. split.
  - apply (ticks_nth n 0 k); [unfold Step5Chat.frameCount; lia | exact Hk].
  - apply List.Forall_forall. intros frame Hin.
    apply In_nth_error in Hin as [j Hj].
    assert (Hjn : j < n).
    { assert (Hl : forall m i, length (Step5Chat.ticks m i) = m)
        by (induction m; intros; simpl; auto).
      rewrite <- (Hl n 0). apply nth_error_Some. rewrite Hj. discriminate. }
    rewrite (ticks_nth n 0 j) in Hj; [|unfold Step5Chat.frameCount; lia | exact Hjn].
    assert (Hf : frame = (0 + j) mod Step5Chat.frameCount) by congruence.
    rewrite Hf. apply Nat.mod_upper_bound. discriminate.
Qed.

(** X19 on the twelfth tick. *)
Lemma spinner_frames_cycle_witness :
  11 < 25 /\ nth_error (Step5Chat.ticks 25 0) 11 = Some 1.
Proof.
  split; [lia|]. apply (spinner_frames_cycle 25 11). lia.
Defined.
